(** * iminuit.cost: statistical cost functions, embedded and verified

    The embedding follows [src/iminuit/cost.py].  Arrays are numpy arrays
    (a shape and the elements in row-major order), Python exceptions are an
    error result, and the attributes a setter mutates are threaded through
    explicitly.  The element type of an array is kept generic, as numpy
    keeps it (float32, float64, float128): the kernels are written once
    over the interface [NumPy] and read either at IEEE binary64, where they
    run, or at the real numbers, where their analytic properties are
    stated. *)

From Stdlib Require Import String.
From Stdlib Require Import ZArith List Bool Lia Floats Reals Lra.
Import ListNotations.

Set Implicit Arguments.

(** ** Exceptions and fallible results *)

Inductive exn : Type :=
| ValueError (msg : string)
| IndexError
| TypeError.

Inductive result (A : Type) : Type :=
| Ok (a : A)
| Raise (e : exn).

Arguments Ok {A} a.
Arguments Raise {A} e.

Definition bind {A B} (r : result A) (k : A -> result B) : result B :=
  match r with
  | Ok a => k a
  | Raise e => Raise e
  end.

Declare Scope result_scope.
Delimit Scope result_scope with result.
Notation "x <- r ;; k" := (bind r (fun x => k))
  (at level 61, r at next level, right associativity) : result_scope.
Notation "' p <- r ;; k" := (bind r (fun x => match x with p => k end))
  (at level 61, p pattern, r at next level, right associativity)
  : result_scope.


(** ** The numeric interface of an array element type

    [np_log] and [np_sum] are numpy's: the library decides how a logarithm
    is rounded and in which order a reduction associates, so both are
    operations of the interface and not definitions of this file. *)

Class NumPy (F : Type) : Type := {
  of_int : Z -> F;              (* astype(float64) of an integer element *)
  f0 : F;                       (* 0.0 *)
  f1 : F;                       (* 1.0 *)
  f2 : F;                       (* 2.0 *)
  tiny : F;                     (* the literal 1e-323 *)
  fadd : F -> F -> F;
  fsub : F -> F -> F;
  fmul : F -> F -> F;
  fdiv : F -> F -> F;
  fneg : F -> F;
  np_sqrt : F -> F;
  np_log : F -> F;
  np_sum : list F -> F
}.

Declare Scope np_scope.
Delimit Scope np_scope with np.
Notation "x + y" := (fadd x y) : np_scope.
Notation "x - y" := (fsub x y) : np_scope.
Notation "x * y" := (fmul x y) : np_scope.
Notation "x / y" := (fdiv x y) : np_scope.
Notation "- x" := (fneg x) : np_scope.

(** *** IEEE binary64

    The literal [1e-323] is read by Python as the nearest double, which is
    the subnormal [2^-1073]. *)

Definition tiny64 : float := 0x1p-1073%float.

Definition float_of_Z (z : Z) : float :=
  SF2Prim (binary_normalize prec emax z 0 false).

Definition seq_sum (l : list float) : float :=
  fold_left PrimFloat.add l 0%float.

Definition binary64 (log : float -> float) (sum : list float -> float)
  : NumPy float :=
  {| of_int := float_of_Z;
     f0 := 0%float; f1 := 1%float; f2 := 2%float; tiny := tiny64;
     fadd := PrimFloat.add; fsub := PrimFloat.sub;
     fmul := PrimFloat.mul; fdiv := PrimFloat.div;
     fneg := PrimFloat.opp;
     np_sqrt := PrimFloat.sqrt;
     np_log := log;
     np_sum := sum |}.

(** A reference logarithm for running the kernels: the special values are
    those of C99 Annex F ([log(+-0) = -inf], [log(x) = nan] for [x < 0],
    [log(+inf) = +inf], [log(nan) = nan]); a finite positive argument is
    reduced to [m * 2^e] with [m] in [[sqrt(1/2), sqrt(2))] and
    [log m = 2 atanh((m-1)/(m+1))] is summed as a series.  It agrees with a
    libm logarithm up to the last digits, not bit for bit. *)

Definition ln2 : float := 0x1.62e42fefa39efp-1%float.
Definition sqrt_half : float := 0x1.6a09e667f3bcdp-1%float.

Fixpoint atanh_series (k : nat) (s2 acc : float) : float :=
  match k with
  | O => acc
  | S k' =>
      atanh_series k' s2
        (1 / float_of_Z (Z.of_nat (2 * k' + 1)) + s2 * acc)%float
  end.

Definition log_ref (x : float) : float :=
  if is_nan x then nan
  else if (x <? 0)%float then nan
  else if (x =? 0)%float then neg_infinity
  else if (x =? infinity)%float then infinity
  else
    let (m, e) := Z.frexp x in
    let (m, e) :=
      if (m <? sqrt_half)%float then ((2 * m)%float, (e - 1)%Z) else (m, e) in
    let s := ((m - 1) / (m + 1))%float in
    (float_of_Z e * ln2 + 2 * s * atanh_series 14 (s * s) 0)%float.

Definition np64 : NumPy float := binary64 log_ref seq_sum.

(** *** Exact real arithmetic, the kernels' idealisation *)

Definition Rsum (l : list R) : R := fold_right Rplus 0%R l.

Definition exact : NumPy R :=
  {| of_int := IZR;
     f0 := 0%R; f1 := 1%R; f2 := 2%R; tiny := (/ 2 ^ 1073)%R;
     fadd := Rplus; fsub := Rminus; fmul := Rmult; fdiv := Rdiv;
     fneg := Ropp;
     np_sqrt := sqrt;
     np_log := ln;
     np_sum := Rsum |}.

(** ** numpy arrays *)

Section Arrays.

Context {F : Type} {NP : NumPy F}.

Record ndarray : Type := mk_nd {
  shape : list nat;
  flat : list F                 (* the elements in row-major (C) order *)
}.

Definition size_of (s : list nat) : nat := fold_right Nat.mul 1 s.

Definition ndim (a : ndarray) : nat := length (shape a).

(** The arrays numpy builds hold exactly as many elements as their shape
    says. *)
Definition wf (a : ndarray) : Prop := length (flat a) = size_of (shape a).

(** [chunks count stride l]: [l] cut into [count] consecutive pieces of
    [stride] elements, the sub-arrays along a leading axis. *)
Fixpoint chunks (count stride : nat) (l : list F) : list (list F) :=
  match count with
  | O => []
  | S c => firstn stride l :: chunks c stride (skipn stride l)
  end.

(** [len(a)]; a 0-d array has no length. *)
Definition len_ (a : ndarray) : result nat :=
  match shape a with
  | [] => Raise TypeError
  | d :: _ => Ok d
  end.

(** Iteration over an array ([*x], tuple unpacking): its sub-arrays along
    the first axis. *)
Definition iter (a : ndarray) : result (list ndarray) :=
  match shape a with
  | [] => Raise TypeError
  | d :: ds => Ok (map (mk_nd ds) (chunks d (size_of ds) (flat a)))
  end.

(** *** Element types of array-like arguments *)

Inductive scalar : Type :=
| PyInt (z : Z)
| PyFloat (x : F).

Definition to_float (v : scalar) : F :=
  match v with
  | PyInt z => of_int z
  | PyFloat x => x
  end.

(** An array-like argument as numpy reads it: a shape ([[]] for a plain
    number) and its elements, integers or floats. *)
Record array_like : Type := mk_al {
  al_shape : list nat;
  al_items : list scalar
}.

Definition al_wf (v : array_like) : Prop :=
  length (al_items v) = size_of (al_shape v).

(** [np.array(v, dtype=float)] *)
Definition asfloat (v : array_like) : ndarray :=
  mk_nd (al_shape v) (map to_float (al_items v)).

(** [np.atleast_1d], [np.atleast_2d] *)
Definition atleast_1d (a : ndarray) : ndarray :=
  match shape a with
  | [] => mk_nd [1] (flat a)
  | _ => a
  end.

Definition atleast_2d (a : ndarray) : ndarray :=
  match shape a with
  | [] => mk_nd [1; 1] (flat a)
  | [n] => mk_nd [1; n] (flat a)
  | _ => a
  end.

(** *** Indexing *)

(** The masks of [MaskedCost]: a boolean array or an array of indices,
    both one-dimensional. *)
Inductive mask_t : Type :=
| BoolMask (m : list bool)
| IndexMask (m : list Z).

Fixpoint select_bool {A} (m : list bool) (rows : list A) : list A :=
  match m, rows with
  | b :: m', r :: rows' =>
      if b then r :: select_bool m' rows' else select_bool m' rows'
  | _, _ => []
  end.

(** An index [i] into an axis of length [d]: negative indices count from
    the end, anything outside [-d <= i < d] is an [IndexError]. *)
Definition norm_index (d : nat) (i : Z) : option nat :=
  if ((0 <=? i) && (i <? Z.of_nat d))%Z then Some (Z.to_nat i)
  else if ((- Z.of_nat d <=? i) && (i <? 0))%Z
       then Some (Z.to_nat (i + Z.of_nat d))
       else None.

Fixpoint select_index {A} (rows : list A) (d : nat) (idx : list Z)
  : option (list A) :=
  match idx with
  | [] => Some []
  | i :: idx' =>
      match norm_index d i with
      | None => None
      | Some k =>
          match nth_error rows k, select_index rows d idx' with
          | Some r, Some rs => Some (r :: rs)
          | _, _ => None
          end
      end
  end.

(** A mask applied to the [d] sub-arrays along the first axis: a boolean
    mask must have one entry for each. *)
Definition select_rows {A} (mask : mask_t) (d : nat) (rows : list A)
  : option (list A) :=
  match mask with
  | BoolMask m =>
      if length m =? d then Some (select_bool m rows) else None
  | IndexMask idx => select_index rows d idx
  end.

(** [a[mask]]: selection along the first axis. *)
Definition getitem (a : ndarray) (mask : mask_t) : result ndarray :=
  match shape a with
  | [] => Raise IndexError
  | d :: ds =>
      match select_rows mask d (chunks d (size_of ds) (flat a)) with
      | Some sel => Ok (mk_nd (length sel :: ds) (concat sel))
      | None => Raise IndexError
      end
  end.

(** [a[:, k]] *)
Definition col (a : ndarray) (k : nat) : result ndarray :=
  match shape a with
  | d1 :: d2 :: ds =>
      let c := size_of ds in
      if k <? d2
      then Ok (mk_nd (d1 :: ds)
                 (flat_map (fun r => firstn c (skipn (k * c) r))
                    (chunks d1 (d2 * c) (flat a))))
      else Raise IndexError
  | _ => Raise IndexError
  end.

(** [a[:, :2]] *)
Definition cols_to_2 (a : ndarray) : result ndarray :=
  match shape a with
  | d1 :: d2 :: ds =>
      let c := size_of ds in
      Ok (mk_nd (d1 :: Nat.min 2 d2 :: ds)
            (flat_map (firstn (Nat.min 2 d2 * c))
               (chunks d1 (d2 * c) (flat a))))
  | _ => Raise IndexError
  end.

(** [a[..., k]] *)
Definition last_axis (a : ndarray) (k : nat) : result ndarray :=
  match rev (shape a) with
  | [] => Raise IndexError
  | m :: _ =>
      let lead := removelast (shape a) in
      if k <? m
      then Ok (mk_nd lead
                 (flat_map (fun r => firstn 1 (skipn k r))
                    (chunks (size_of lead) m (flat a))))
      else Raise IndexError
  end.

(** [a.T]: the axes reversed.  Element [(i1, .., ik)] of [a] is element
    [(ik, .., i1)] of [a.T]. *)
Fixpoint unravel (s : list nat) (p : nat) : list nat :=
  match s with
  | [] => []
  | _ :: ds => (p / size_of ds) :: unravel ds (p mod size_of ds)
  end.

Fixpoint ravel (s idx : list nat) : nat :=
  match s, idx with
  | _ :: ds, i :: idx' => i * size_of ds + ravel ds idx'
  | _, _ => 0
  end.

Definition T (a : ndarray) : ndarray :=
  let s := shape a in
  mk_nd (rev s)
    (flat_map
       (fun p => firstn 1 (skipn (ravel s (rev (unravel (rev s) p))) (flat a)))
       (seq 0 (size_of s))).

(** [a[k]], [a[:k]] and [a[k:]] along the first axis, for [k >= 0] *)
Definition item (a : ndarray) (k : nat) : result ndarray :=
  match shape a with
  | [] => Raise IndexError
  | d :: ds =>
      if k <? d
      then Ok (mk_nd ds (firstn (size_of ds) (skipn (k * size_of ds) (flat a))))
      else Raise IndexError
  end.

Definition upto (a : ndarray) (k : nat) : result ndarray :=
  match shape a with
  | [] => Raise IndexError
  | d :: ds =>
      Ok (mk_nd (Nat.min k d :: ds) (firstn (Nat.min k d * size_of ds) (flat a)))
  end.

Definition from (a : ndarray) (k : nat) : result ndarray :=
  match shape a with
  | [] => Raise IndexError
  | d :: ds =>
      Ok (mk_nd (d - k :: ds) (skipn (Nat.min k d * size_of ds) (flat a)))
  end.

(** *** Element-wise arithmetic and broadcasting *)

Definition map_nd (f : F -> F) (a : ndarray) : ndarray :=
  mk_nd (shape a) (map f (flat a)).

(** The common shape of two operands: shapes are aligned at their last
    axis, and a length-1 axis stretches. *)
Definition pad (n : nat) (s : list nat) : list nat :=
  repeat 1 (n - length s) ++ s.

Fixpoint common (s1 s2 : list nat) : option (list nat) :=
  match s1, s2 with
  | [], [] => Some []
  | d1 :: r1, d2 :: r2 =>
      match common r1 r2 with
      | None => None
      | Some r =>
          if d1 =? d2 then Some (d1 :: r)
          else if d1 =? 1 then Some (d2 :: r)
          else if d2 =? 1 then Some (d1 :: r)
          else None
      end
  | _, _ => None
  end.

Definition broadcast_shape (s1 s2 : list nat) : option (list nat) :=
  let n := Nat.max (length s1) (length s2) in
  common (pad n s1) (pad n s2).

Fixpoint all_some {A} (l : list (option A)) : option (list A) :=
  match l with
  | [] => Some []
  | None :: _ => None
  | Some x :: l' =>
      match all_some l' with
      | Some xs => Some (x :: xs)
      | None => None
      end
  end.

(** [stretch vs ts v]: the elements [v] of an array of shape [vs], repeated
    to shape [ts] (both of the same number of axes). *)
Fixpoint stretch (vs ts : list nat) (v : list F) : option (list F) :=
  match vs, ts with
  | [], [] => Some v
  | d :: ds, t :: ts' =>
      if d =? t
      then option_map (@concat F)
             (all_some (map (stretch ds ts') (chunks d (size_of ds) v)))
      else if d =? 1
           then option_map (fun r => concat (repeat r t)) (stretch ds ts' v)
           else None
  | _, _ => None
  end.

Definition broadcast_to (a : ndarray) (ts : list nat) : option ndarray :=
  if length (shape a) <=? length ts
  then option_map (mk_nd ts) (stretch (pad (length ts) (shape a)) ts (flat a))
  else None.

Fixpoint map2 (f : F -> F -> F) (l1 l2 : list F) : list F :=
  match l1, l2 with
  | x :: l1', y :: l2' => f x y :: map2 f l1' l2'
  | _, _ => []
  end.

Definition shape_error : exn :=
  ValueError "operands could not be broadcast together".

(** [a op b] for a binary ufunc *)
Definition lift2 (f : F -> F -> F) (a b : ndarray) : result ndarray :=
  match broadcast_shape (shape a) (shape b) with
  | None => Raise shape_error
  | Some s =>
      match broadcast_to a s, broadcast_to b s with
      | Some a', Some b' => Ok (mk_nd s (map2 f (flat a') (flat b')))
      | _, _ => Raise shape_error
      end
  end.

Fixpoint shape_eqb (s1 s2 : list nat) : bool :=
  match s1, s2 with
  | [], [] => true
  | d1 :: r1, d2 :: r2 => (d1 =? d2) && shape_eqb r1 r2
  | _, _ => false
  end.

(** [a op= b]: as [a op b], and the result must have the shape of [a]. *)
Definition lift2_inplace (f : F -> F -> F) (a b : ndarray) : result ndarray :=
  (r <- lift2 f a b ;;
   if shape_eqb (shape r) (shape a) then Ok r
   else Raise (ValueError "non-broadcastable output operand"))%result.

(** [a[:] = v]: [v] is stretched to the shape of [a]; leading axes of
    length 1 that [a] does not have are dropped first. *)
Fixpoint drop_ones (n : nat) (s : list nat) : list nat :=
  match n, s with
  | S n', 1 :: s' => drop_ones n' s'
  | _, _ => s
  end.

Definition assign_all (a v : ndarray) : result ndarray :=
  let vs := drop_ones (length (shape v) - length (shape a)) (shape v) in
  match broadcast_to (mk_nd vs (flat v)) (shape a) with
  | Some r => Ok r
  | None => Raise (ValueError "could not broadcast input array")
  end.

(** [np.diff(a)]: first differences along the last axis *)
Fixpoint diff1 (l : list F) : list F :=
  match l with
  | [] => []
  | x :: t =>
      match t with
      | [] => []
      | y :: _ => (y - x)%np :: diff1 t
      end
  end.

Definition np_diff (a : ndarray) : result ndarray :=
  match rev (shape a) with
  | [] => Raise (ValueError "diff requires input that is at least one dimensional")
  | m :: _ =>
      let lead := removelast (shape a) in
      Ok (mk_nd (lead ++ [m - 1])
            (flat_map diff1 (chunks (size_of lead) m (flat a))))
  end.

(** [np.sum(a)] over all elements *)
Definition sum_nd (a : ndarray) : F := np_sum (flat a).

(** [np.column_stack]: arrays of fewer than two axes become columns, then
    all are joined along the second axis. *)
Definition as_column (a : ndarray) : ndarray :=
  match shape a with
  | [] => mk_nd [1; 1] (flat a)
  | [n] => mk_nd [n; 1] (flat a)
  | _ => a
  end.

Definition rows (a : ndarray) : list (list F) :=
  match shape a with
  | [] => []
  | d :: ds => chunks d (size_of ds) (flat a)
  end.

Fixpoint zip_rows (d : nat) (rowss : list (list (list F))) : list F :=
  match d with
  | O => []
  | S d' => flat_map (hd []) rowss ++ zip_rows d' (map (@tl _) rowss)
  end.

Definition stackable (d1 : nat) (ds : list nat) (c : ndarray) : bool :=
  match shape c with
  | e1 :: _ :: es => (e1 =? d1) && shape_eqb es ds
  | _ => false
  end.

Definition column_stack (arrs : list ndarray) : result ndarray :=
  let cs := map as_column arrs in
  match cs with
  | [] => Raise (ValueError "need at least one array to concatenate")
  | c0 :: _ =>
      match shape c0 with
      | d1 :: _ :: ds =>
          if forallb (stackable d1 ds) cs
          then Ok (mk_nd
                     (d1 :: fold_right Nat.add 0
                              (map (fun c => nth 1 (shape c) 0) cs) :: ds)
                     (zip_rows d1 (map rows cs)))
          else Raise (ValueError "all the input array dimensions except for the concatenation axis must match exactly")
      | _ => Raise (ValueError "need at least one array to concatenate")
      end
  end.

(** [np.broadcast_arrays] *)
Fixpoint common_all (ss : list (list nat)) : option (list nat) :=
  match ss with
  | [] => Some []
  | s :: ss' =>
      match common_all ss' with
      | None => None
      | Some r => broadcast_shape s r
      end
  end.

Definition broadcast_arrays (arrs : list ndarray) : result (list ndarray) :=
  match common_all (map shape arrs) with
  | None => Raise shape_error
  | Some s =>
      match all_some (map (fun a => broadcast_to a s) arrs) with
      | Some r => Ok r
      | None => Raise shape_error
      end
  end.

End Arrays.

Arguments ndarray F : clear implicits.
Arguments scalar F : clear implicits.
Arguments array_like F : clear implicits.

(** ** The numeric kernels (cost.py, lines 53-82)

    With numba installed each kernel is compiled from the same source
    function and chosen when the dtype is float32 or float64; both paths
    evaluate the expressions below. *)

Section Kernels.

Context {F : Type} {NP : NumPy F}.

Local Open Scope result_scope.

Local Abbreviation ndarray := (ndarray F).

Definition add_tiny (x : F) : F := (x + tiny)%np.

Definition _sum_log_x (x : ndarray) : F :=
  sum_nd (map_nd np_log (map_nd add_tiny x)).

Definition _log_poisson_part (n mu : ndarray) : result ndarray :=
  d <- lift2 fsub (map_nd np_log (map_nd add_tiny n))
                  (map_nd np_log (map_nd add_tiny mu)) ;;
  lift2 fmul n d.

Definition _sum_log_poisson_part (n mu : ndarray) : result F :=
  p <- _log_poisson_part n mu ;;
  Ok (sum_nd p).

Definition _sum_log_poisson (n mu : ndarray) : result F :=
  d <- lift2 fsub mu n ;;
  p <- _log_poisson_part n mu ;;
  s <- lift2 fadd d p ;;
  Ok (sum_nd s).

Definition _z_squared (y ye ym : ndarray) : result ndarray :=
  d <- lift2 fsub y ym ;;
  z <- lift2 fdiv d ye ;;
  lift2 fmul z z.

Definition _sum_z_squared (y ye ym : ndarray) : result F :=
  z <- _z_squared y ye ym ;;
  Ok (sum_nd z).

Definition soft_l1 (z : F) : F := (f2 * (np_sqrt (f1 + z) - f1))%np.

Definition _sum_z_squared_soft_l1 (y ye ym : ndarray) : result F :=
  z <- _z_squared y ye ym ;;
  Ok (sum_nd (map_nd soft_l1 z)).

(** The scalar forms of the summands *)
Definition log_poisson_term (n mu : F) : F :=
  (n * (np_log (n + tiny) - np_log (mu + tiny)))%np.

Definition z_squared_term (y ye ym : F) : F :=
  let z := ((y - ym) / ye)%np in (z * z)%np.

End Kernels.

(** ** Cost terms

    For every class its [_call] is embedded; [Cost.__call__] (lines
    235-253) returns what [_call] returns and, with [verbose >= 1], prints
    the arguments and the result. *)

Section Costs.

Context {F : Type} {NP : NumPy F}.

Local Open Scope result_scope.

Local Abbreviation ndarray := (ndarray F).
Local Abbreviation array_like := (array_like F).

(** A setter runs on an object and may raise after it has already written
    to it: it yields the object it leaves behind and the exception, if
    any. *)
Definition outcome (S : Type) : Type := (S * option exn)%type.

Definition returned {S} (o : outcome S) : Prop := snd o = None.

(** What a model callable returns: a numpy array, or something else that
    [np.array] then converts. *)
Inductive model_output : Type :=
| Array (a : ndarray)
| NotArray (a : ndarray).

(** A model callable: the parameter names [describe] finds for it (the
    first is the data argument) and the function itself. *)
Record model_t : Type := mk_model {
  describe : list string;
  apply : ndarray -> list F -> model_output
}.

(** [_norm] (lines 913-918) *)
Definition _norm (value : array_like) : ndarray :=
  atleast_1d (asfloat value).

(** [_normalize_model_output] (lines 925-932); the warning it issues for a
    value that is not an array does not change the result. *)
Definition _normalize_model_output (x : model_output) : ndarray :=
  match x with
  | Array a => a
  | NotArray a => a
  end.

(** *** MaskedCost (lines 355-398) *)

Record MaskedCost : Type := mk_masked {
  _func_code : list string;
  _verbose : Z;
  _data : ndarray;
  _mask : option mask_t;
  _masked : ndarray
}.

Definition with_data (self : MaskedCost) (d : ndarray) : MaskedCost :=
  mk_masked (_func_code self) (_verbose self) d (_mask self) (_masked self).

Definition with_mask (self : MaskedCost) (m : option mask_t) : MaskedCost :=
  mk_masked (_func_code self) (_verbose self) (_data self) m (_masked self).

Definition with_masked (self : MaskedCost) (a : ndarray) : MaskedCost :=
  mk_masked (_func_code self) (_verbose self) (_data self) (_mask self) a.

Definition _update_masked (self : MaskedCost) : outcome MaskedCost :=
  match _mask self with
  | None => (with_masked self (_data self), None)
  | Some m =>
      match getitem (_data self) m with
      | Ok a => (with_masked self a, None)
      | Raise e => (self, Some e)
      end
  end.

(** [mask.setter]: the attribute is written first, then the view is
    recomputed. *)
Definition set_mask (self : MaskedCost) (mask : option mask_t)
  : outcome MaskedCost :=
  _update_masked (with_mask self mask).

(** [data.setter]: [self._data[:] = value] keeps the array and its shape. *)
Definition set_data (self : MaskedCost) (value : ndarray)
  : outcome MaskedCost :=
  match assign_all (_data self) value with
  | Raise e => (self, Some e)
  | Ok d => _update_masked (with_data self d)
  end.

(** [__init__]: the transposed array of line 364 is overwritten by line
    365; [self.mask = None] then builds the view. *)
Definition MaskedCost_init (args : list string) (data : ndarray) (verbose : Z)
  : MaskedCost :=
  let self := mk_masked args verbose data None data in
  let self := if 1 <? ndim data then with_data self (T data) else self in
  let self := with_data self data in
  fst (set_mask self None).

Definition MaskedCost_ndata (self : MaskedCost) : result nat :=
  len_ (_masked self).

(** The view is current when it is what [_update_masked] computes from the
    stored data and mask. *)
Definition current (self : MaskedCost) : Prop :=
  match _mask self with
  | None => _masked self = _data self
  | Some m => getitem (_data self) m = Ok (_masked self)
  end.

(** *** UnbinnedCost, UnbinnedNLL, ExtendedUnbinnedNLL (lines 401-511) *)

Record UnbinnedCost : Type := mk_unbinned {
  u_base : MaskedCost;
  u_model : model_t;
  _log : bool
}.

Definition UnbinnedCost_init (data : array_like) (model : model_t)
    (verbose : Z) (log : bool) : UnbinnedCost :=
  mk_unbinned (MaskedCost_init (tl (describe model)) (_norm data) verbose)
    model log.

Definition UnbinnedNLL_call (self : UnbinnedCost) (args : list F) : F :=
  let data := _masked (u_base self) in
  let x := apply (u_model self) data args in
  let x := _normalize_model_output x in
  if _log self then (- f2 * sum_nd x)%np
  else (- f2 * _sum_log_x x)%np.

(** *** BinnedCost (lines 514-578) *)

Record BinnedCost : Type := mk_binned {
  b_base : MaskedCost;
  _xe : ndarray;
  b_model : model_t
}.

Definition _weighted (self : BinnedCost) : bool :=
  ndim (_xe self) <? ndim (_data (b_base self)).

(** [np.any(np.array(s) + 1 != xe.shape)] for two shapes of equal length *)
Fixpoint any_plus1_differs (s xs : list nat) : bool :=
  match s, xs with
  | d :: s', x :: xs' => negb (d + 1 =? x) || any_plus1_differs s' xs'
  | _, _ => false
  end.

Definition _prepare_data (xe : ndarray) (value : array_like) : result ndarray :=
  let n := _norm value in
  let is_weighted := negb (ndim n =? ndim xe) in
  if is_weighted && ((ndim xe + 1 <? ndim n) || (ndim n <? ndim xe))
  then Raise (ValueError "n must either have same dimension as xe or one extra")
  else
    if any_plus1_differs
         (if is_weighted then removelast (shape n) else shape n) (shape xe)
    then Raise (ValueError "n and xe have incompatible shapes")
    else
      if is_weighted
      then
        if negb (last (shape n) 0 =? 2)
        then Raise (ValueError "n must have shape (..., 2)")
        else
          v <- last_axis n 0 ;;
          var <- last_axis n 1 ;;
          s <- lift2 fdiv v (map_nd add_tiny var) ;;
          vs <- lift2 fmul v s ;;
          column_stack [v; var; vs; s]
      else Ok n.

(** [data] getter and setter, [__init__] *)
Definition BinnedCost_data (self : BinnedCost) : result ndarray :=
  if _weighted self then cols_to_2 (_data (b_base self))
  else Ok (_data (b_base self)).

Definition BinnedCost_set_data (self : BinnedCost) (value : array_like)
  : outcome BinnedCost :=
  match _prepare_data (_xe self) value with
  | Raise e => (self, Some e)
  | Ok d =>
      let (base, e) := set_data (b_base self) d in
      (mk_binned base (_xe self) (b_model self), e)
  end.

Definition BinnedCost_set_mask (self : BinnedCost) (mask : option mask_t)
  : outcome BinnedCost :=
  let (base, e) := set_mask (b_base self) mask in
  (mk_binned base (_xe self) (b_model self), e).

Definition BinnedCost_init (n xe : array_like) (model : model_t) (verbose : Z)
  : result BinnedCost :=
  let xe := _norm xe in
  d <- _prepare_data xe n ;;
  Ok (mk_binned (MaskedCost_init (tl (describe model)) d verbose) xe model).

(** *** BinnedNLL._call (lines 616-633), in two steps: the counts and the
    expected counts it forms (lines 617-631), then the cost (line 633) *)

Definition BinnedNLL_expected (self : BinnedCost) (args : list F)
  : result (ndarray * ndarray) :=
  let cdf := apply (b_model self) (_xe self) args in
  let cdf := _normalize_model_output cdf in
  prob <- np_diff cdf ;;
  let n := _masked (b_base self) in
  let ma := _mask (b_base self) in
  prob <- match ma with
          | None => Ok prob
          | Some m =>
              prob <- getitem prob m ;;
              Ok (map_nd (fun p => p / sum_nd prob)%np prob)
          end ;;
  if _weighted self
  then
    n0 <- col n 0 ;;
    let mu := map_nd (fun p => sum_nd n0 * p)%np prob in
    n3 <- col n 3 ;;
    mu <- lift2_inplace fmul mu n3 ;;
    n <- col n 2 ;;
    Ok (n, mu)
  else
    let mu := map_nd (fun p => sum_nd n * p)%np prob in
    Ok (n, mu).

Definition BinnedNLL_call (self : BinnedCost) (args : list F) : result F :=
  '(n, mu) <- BinnedNLL_expected self args ;;
  s <- _sum_log_poisson_part n mu ;;
  Ok (f2 * s)%np.

(** *** ExtendedBinnedNLL._call (lines 671-683), in the same two steps *)

Definition ExtendedBinnedNLL_expected (self : BinnedCost) (args : list F)
  : result (ndarray * ndarray) :=
  let scdf := apply (b_model self) (_xe self) args in
  let scdf := _normalize_model_output scdf in
  mu <- np_diff scdf ;;
  let ma := _mask (b_base self) in
  let n := _masked (b_base self) in
  mu <- match ma with
        | None => Ok mu
        | Some m => getitem mu m
        end ;;
  if _weighted self
  then
    n3 <- col n 3 ;;
    mu <- lift2_inplace fmul mu n3 ;;
    n <- col n 2 ;;
    Ok (n, mu)
  else Ok (n, mu).

Definition ExtendedBinnedNLL_call (self : BinnedCost) (args : list F)
  : result F :=
  '(n, mu) <- ExtendedBinnedNLL_expected self args ;;
  s <- _sum_log_poisson n mu ;;
  Ok (f2 * s)%np.

(** *** LeastSquares (lines 686-825) *)

(** The [loss] argument: a name or a callable on the squared residuals. *)
Inductive loss_t : Type :=
| LossName (s : string)
| LossCallable (f : ndarray -> ndarray).

Definition cost_fn : Type := ndarray -> ndarray -> ndarray -> result F.

Record LeastSquares : Type := mk_ls {
  ls_base : MaskedCost;
  _loss : loss_t;
  _cost : cost_fn;
  ls_model : model_t;
  _ndim : nat
}.

(** The branch of [loss.setter] that chooses [_cost] (lines 749-756) *)
Definition loss_cost (loss : loss_t) : result cost_fn :=
  match loss with
  | LossCallable f =>
      Ok (fun y ye ym => z <- _z_squared y ye ym ;; Ok (sum_nd (f z)))
  | LossName s =>
      if String.eqb s "linear" then Ok _sum_z_squared
      else if String.eqb s "soft_l1" then Ok _sum_z_squared_soft_l1
      else Raise (ValueError ("unknown loss type: " ++ s))
  end.

(** [loss.setter]: [_loss] is written before the name is looked at. *)
Definition set_loss (self : LeastSquares) (loss : loss_t)
  : outcome LeastSquares :=
  let self := mk_ls (ls_base self) loss (_cost self) (ls_model self)
                (_ndim self) in
  match loss_cost loss with
  | Ok c => (mk_ls (ls_base self) loss c (ls_model self) (_ndim self), None)
  | Raise e => (self, Some e)
  end.

Definition LeastSquares_init (x y yerror : array_like) (model : model_t)
    (loss : loss_t) (verbose : Z) : result LeastSquares :=
  let x := _norm x in
  let y := _norm y in
  let nd := ndim x in
  cost <- loss_cost loss ;;
  let x := atleast_2d x in
  xs <- iter x ;;
  arrs <- broadcast_arrays (xs ++ [y; asfloat yerror]) ;;
  data <- column_stack arrs ;;
  Ok (mk_ls (MaskedCost_init (tl (describe model)) data verbose)
        loss cost model nd).

Definition LeastSquares_call (self : LeastSquares) (args : list F)
  : result F :=
  let masked := _masked (ls_base self) in
  x <- (if _ndim self =? 1 then item (T masked) 0
        else upto (T masked) (_ndim self)) ;;
  rest <- from (T masked) (_ndim self) ;;
  parts <- iter rest ;;
  match parts with
  | [y; yerror] =>
      let ym := apply (ls_model self) x args in
      let ym := _normalize_model_output ym in
      _cost self y yerror ym
  | [] => Raise (ValueError "not enough values to unpack (expected 2, got 0)")
  | [_] => Raise (ValueError "not enough values to unpack (expected 2, got 1)")
  | _ => Raise (ValueError "too many values to unpack (expected 2)")
  end.

(** The [x], [y] and [yerror] properties (lines 696-732).  A setter writes
    into the array that [data] returns, which is [_data] itself, and then
    assigns it through [data.setter]. *)
Fixpoint splice (rows vs : list (list F)) (off len : nat) : list (list F) :=
  match rows, vs with
  | r :: rows', v :: vs' =>
      (firstn off r ++ v ++ skipn (off + len) r) :: splice rows' vs' off len
  | _, _ => []
  end.

(** [a[:, off:off+width] = v] (with [squeeze], [a[:, off] = v]) *)
Definition assign_cols (a : ndarray) (off width : nat) (squeeze : bool)
    (v : ndarray) : result ndarray :=
  match shape a with
  | d1 :: d2 :: ds =>
      if squeeze && negb (off <? d2) then Raise IndexError
      else
        let w := Nat.min width (d2 - off) in
        let c := size_of ds in
        let target := if squeeze then d1 :: ds else d1 :: w :: ds in
        r <- assign_all (mk_nd target []) v ;;
        Ok (mk_nd (shape a)
              (concat (splice (chunks d1 (d2 * c) (flat a))
                         (chunks d1 (w * c) (flat r)) (off * c) (w * c))))
  | _ => Raise IndexError
  end.

Definition LeastSquares_x (self : LeastSquares) : result ndarray :=
  let data := _data (ls_base self) in
  if _ndim self =? 1 then col data 0 else upto (T data) (_ndim self).

Definition LeastSquares_y (self : LeastSquares) : result ndarray :=
  col (_data (ls_base self)) (_ndim self).

Definition LeastSquares_yerror (self : LeastSquares) : result ndarray :=
  col (_data (ls_base self)) (_ndim self + 1).

Definition ls_with_base (self : LeastSquares) (b : MaskedCost) : LeastSquares :=
  mk_ls b (_loss self) (_cost self) (ls_model self) (_ndim self).

Definition ls_store (self : LeastSquares) (d : result ndarray)
  : outcome LeastSquares :=
  match d with
  | Raise e => (self, Some e)
  | Ok d =>
      let (base, e) := set_data (with_data (ls_base self) d) d in
      (ls_with_base self base, e)
  end.

Definition LeastSquares_set_x (self : LeastSquares) (value : array_like)
  : outcome LeastSquares :=
  let d := _data (ls_base self) in
  ls_store self
    (if _ndim self =? 1 then assign_cols d 0 1 true (_norm value)
     else assign_cols d 0 (_ndim self) false (T (_norm value))).

Definition LeastSquares_set_y (self : LeastSquares) (value : array_like)
  : outcome LeastSquares :=
  ls_store self (assign_cols (_data (ls_base self)) (_ndim self) 1 true
                   (_norm value)).

Definition LeastSquares_set_yerror (self : LeastSquares) (value : array_like)
  : outcome LeastSquares :=
  ls_store self (assign_cols (_data (ls_base self)) (_ndim self + 1) 1 true
                   (_norm value)).

Definition LeastSquares_set_mask (self : LeastSquares) (mask : option mask_t)
  : outcome LeastSquares :=
  let (base, e) := set_mask (ls_base self) mask in
  (ls_with_base self base, e).

Definition LeastSquares_set_data (self : LeastSquares) (value : ndarray)
  : outcome LeastSquares :=
  let (base, e) := set_data (ls_base self) value in
  (ls_with_base self base, e).

(** *** ExtendedUnbinnedNLL (lines 465-511) and NormalConstraint
    (lines 828-910), as far as a sum of costs looks at them *)

Record ExtendedUnbinnedCost : Type := mk_eunbinned {
  e_base : MaskedCost;
  e_model : ndarray -> list F -> F * model_output;
  e_log : bool
}.

Definition ExtendedUnbinnedNLL_call (self : ExtendedUnbinnedCost)
    (args : list F) : F :=
  let data := _masked (e_base self) in
  let (ns, x) := e_model self data args in
  let x := _normalize_model_output x in
  if e_log self then (f2 * (ns - sum_nd x))%np
  else (f2 * (ns - _sum_log_x x))%np.

Record NormalConstraint : Type := mk_constraint {
  nc_func_code : list string;
  _value : ndarray;
  _cov : ndarray;
  _covinv : ndarray
}.

(** *** Cost, Constant and CostSum (lines 171-352) *)

(** A Python number: [int] or [float] (a double, whatever the dtype of the
    arrays). *)
Inductive number : Type :=
| Int (z : Z)
| Float (x : float).

(** [item != 0] *)
Definition nonzero (v : number) : bool :=
  match v with
  | Int z => negb (z =? 0)%Z
  | Float x => negb (x =? 0)%float
  end.

#[warnings="-register-all"]
Inductive Cost : Type :=
| Constant (value : number)
| UnbinnedNLL (self : UnbinnedCost)
| ExtendedUnbinnedNLL (self : ExtendedUnbinnedCost)
| BinnedNLL (self : BinnedCost)
| ExtendedBinnedNLL (self : BinnedCost)
| LeastSquaresCost (self : LeastSquares)
| NormalConstraintCost (self : NormalConstraint)
| CostSum (func_code : list string) (verbose : Z)
          (_items : list Cost) (_maps : list (list nat)).

(** [func_code.co_varnames] and [verbose] of a term.  [Constant] and
    [NormalConstraint] pass [False] as their verbosity, which is 0. *)
Definition func_code (c : Cost) : list string :=
  match c with
  | Constant _ => []
  | UnbinnedNLL s => _func_code (u_base s)
  | ExtendedUnbinnedNLL s => _func_code (e_base s)
  | BinnedNLL s | ExtendedBinnedNLL s => _func_code (b_base s)
  | LeastSquaresCost s => _func_code (ls_base s)
  | NormalConstraintCost s => nc_func_code s
  | CostSum a _ _ _ => a
  end.

Definition verbose (c : Cost) : Z :=
  match c with
  | Constant _ => 0
  | UnbinnedNLL s => _verbose (u_base s)
  | ExtendedUnbinnedNLL s => _verbose (e_base s)
  | BinnedNLL s | ExtendedBinnedNLL s => _verbose (b_base s)
  | LeastSquaresCost s => _verbose (ls_base s)
  | NormalConstraintCost _ => 0
  | CostSum _ v _ _ => v
  end.





(** Modelled from the spec: [merge_signatures] of [iminuit.util], which
    [cost.py] imports and [util.py] under [src/] does not define.  The
    combined list is the union of the terms' parameter names in order of
    first occurrence; the map of a term sends each of its parameter
    positions to the position of that name in the combined list. *)
Fixpoint index_of (k : string) (l : list string) : option nat :=
  match l with
  | [] => None
  | x :: l' =>
      if String.eqb x k then Some 0
      else option_map S (index_of k l')
  end.

Definition merge_one (acc : list string * list nat) (k : string)
  : list string * list nat :=
  let (args, m) := acc in
  match index_of k args with
  | Some i => (args, m ++ [i])
  | None => (args ++ [k], m ++ [length args])
  end.

Definition merge_signatures (callables : list Cost)
  : list string * list (list nat) :=
  fold_left
    (fun (acc : list string * list (list nat)) f =>
       let (args, maps) := acc in
       let (args', m) := fold_left merge_one (func_code f) (args, []) in
       (args', maps ++ [m]))
    callables ([], []).

(** [max] of a generator *)
Definition py_max (l : list Z) : result Z :=
  match l with
  | [] => Raise (ValueError "max() arg is an empty sequence")
  | x :: l' => Ok (fold_left Z.max l' x)
  end.

(** What can stand next to [+]: a cost term or a plain number. *)
Inductive operand : Type :=
| Term (c : Cost)
| Number (v : number).

(** The loop of [CostSum.__init__] (lines 322-330) *)
Definition collect (acc : list Cost) (item : operand) : list Cost :=
  match item with
  | Term (CostSum _ _ its _) => acc ++ its
  | Number v => if nonzero v then acc ++ [Constant v] else acc
  | Term c => acc ++ [c]
  end.

Definition CostSum_init (items : list operand) : result Cost :=
  let its := fold_left collect items [] in
  let (args, maps) := merge_signatures its in
  v <- py_max (map verbose its) ;;
  Ok (CostSum args v its maps).

(** [Cost.__add__] and [Cost.__radd__] *)
Definition __add__ (self : Cost) (rhs : operand) : result Cost :=
  CostSum_init [Term self; rhs].

Definition __radd__ (self : Cost) (lhs : operand) : result Cost :=
  CostSum_init [lhs; Term self].

(** [CostSum.__len__]; other terms have no length. *)
Definition __len__ (c : Cost) : result nat :=
  match c with
  | CostSum _ _ its _ => Ok (length its)
  | _ => Raise TypeError
  end.

End Costs.

Arguments model_output F : clear implicits.
Arguments model_t F : clear implicits.
Arguments MaskedCost F : clear implicits.
Arguments UnbinnedCost F : clear implicits.
Arguments ExtendedUnbinnedCost F : clear implicits.
Arguments BinnedCost F : clear implicits.
Arguments loss_t F : clear implicits.
Arguments LeastSquares F : clear implicits.
Arguments NormalConstraint F : clear implicits.
Arguments Cost F : clear implicits.
Arguments operand F : clear implicits.

(** * The vocabulary of the statements *)

Section Vocabulary.

Context {F : Type} {NP : NumPy F}.

(** [l[mask]] on the entries of a one-dimensional array, [l] itself when
    the mask is [None] *)
Definition select {A} (mask : option mask_t) (l : list A) : option (list A) :=
  match mask with
  | None => Some l
  | Some m => select_rows m (length l) l
  end.

(** The probabilities of the active bins: divided by their sum whenever a
    mask is set *)
Definition renormalized (mask : option mask_t) (prob : list F) : list F :=
  match mask with
  | None => prob
  | Some _ => map (fun p => p / np_sum prob)%np prob
  end.

(** Column [k] of a table given by its rows *)
Definition column (k : nat) (rows : list (list F)) : list F :=
  flat_map (fun r => firstn 1 (skipn k r)) rows.

(** The pairs (sum of weights, sum of squared weights) of a weighted
    histogram, read off the elements of an array of shape (N, 2) *)
Fixpoint pair_up (l : list F) : list (F * F) :=
  match l with
  | v :: var :: l' => (v, var) :: pair_up l'
  | _ => []
  end.

Definition pair_row (p : F * F) : list F := [fst p; snd p].

(** The four columns [_prepare_data] stores for one bin *)
Definition bohm_zech_scale (p : F * F) : F :=
  (fst p / (snd p + tiny))%np.

Definition stored_row (p : F * F) : list F :=
  [fst p; snd p; (fst p * bohm_zech_scale p)%np; bohm_zech_scale p].

(** A value absorbs the guard when adding [1e-323] leaves it unchanged, as
    every double of ordinary magnitude does. *)
Definition absorbs (x : F) : Prop := (x + tiny)%np = x.

(** The summands as the specification writes them, without the additive
    guard *)
Definition unguarded_poisson_term (n mu : F) : F :=
  (n * (np_log n - np_log mu))%np.

Definition unguarded_extended_term (n mu : F) : F :=
  (mu - n + unguarded_poisson_term n mu)%np.

Definition extended_term (n mu : F) : F :=
  (mu - n + log_poisson_term n mu)%np.

(** The squared residuals of the points [(y, yerror)] against the model
    values [ym] *)
Fixpoint z_squared_all (y ye ym : list F) : list F :=
  match y, ye, ym with
  | a :: y', e :: ye', m :: ym' =>
      z_squared_term a e m :: z_squared_all y' ye' ym'
  | _, _, _ => []
  end.

(** The explanatory variables a least-squares model receives: the first
    column for [_ndim = 1], else the first [_ndim] columns as rows *)
Definition explanatory (d : nat) (rows : list (list F)) : ndarray F :=
  if d =? 1 then mk_nd [length rows] (column 0 rows)
  else mk_nd [d; length rows] (flat_map (fun j => column j rows) (seq 0 d)).

(** The terms with a mask, and what can be assigned on them *)
Inductive masked_term : Type :=
| Binned (c : BinnedCost F)
| Fitted (c : LeastSquares F).

Definition base (t : masked_term) : MaskedCost F :=
  match t with
  | Binned c => b_base c
  | Fitted c => ls_base c
  end.

Inductive mutation : Type :=
| SetMask (mask : option mask_t)
| SetData (value : array_like F)
| SetX (value : array_like F)
| SetY (value : array_like F)
| SetYerror (value : array_like F).

Definition lift_outcome {A B} (f : A -> B) (o : outcome A) : outcome B :=
  (f (fst o), snd o).

(** A binned term has no [x], [y] or [yerror]: the classes declare
    [__slots__], so the assignment is refused. *)
Definition run (t : masked_term) (m : mutation) : outcome masked_term :=
  match t, m with
  | Binned c, SetMask mask => lift_outcome Binned (BinnedCost_set_mask c mask)
  | Binned c, SetData v => lift_outcome Binned (BinnedCost_set_data c v)
  | Binned c, _ => (t, Some TypeError)
  | Fitted c, SetMask mask =>
      lift_outcome Fitted (LeastSquares_set_mask c mask)
  | Fitted c, SetData v =>
      lift_outcome Fitted (LeastSquares_set_data c (asfloat v))
  | Fitted c, SetX v => lift_outcome Fitted (LeastSquares_set_x c v)
  | Fitted c, SetY v => lift_outcome Fitted (LeastSquares_set_y c v)
  | Fitted c, SetYerror v => lift_outcome Fitted (LeastSquares_set_yerror c v)
  end.


(** The constituents of a sum *)
Definition items (c : Cost F) : list (Cost F) :=
  match c with
  | CostSum _ _ its _ => its
  | _ => []
  end.

(** What a term contributes to a sum it is added to: its constituents when
    it is a sum itself, otherwise the term *)
Definition flattened (c : Cost F) : list (Cost F) := collect [] (Term c).


(** The outcome of a construction is a sum with the constituents [its]. *)
Definition is_sum_of (r : result (Cost F)) (its : list (Cost F)) : Prop :=
  exists args v maps, r = Ok (CostSum args v its maps).






End Vocabulary.

Arguments masked_term F : clear implicits.
Arguments mutation F : clear implicits.

(** * Concrete terms, at binary64 *)

Definition ints (s : list nat) (l : list Z) : array_like float :=
  mk_al s (map (@PyInt float) l).

(** A uniform density on [0, 2]: the CDF is [x / 2]. *)
Definition uniform_cdf : model_t float :=
  mk_model ["x"; "a"]%string
    (fun xe _ => Array (@map_nd float (fun x => x / 2)%float xe)).

(** A uniform density scaled to two events: the scaled CDF is [x]. *)
Definition uniform_scaled_cdf : model_t float :=
  mk_model ["x"; "a"]%string (fun xe _ => Array xe).

Definition edges_0_1_2 : array_like float := ints [3] [0; 1; 2]%Z.

(** Two bins, the first of them empty *)
Definition counts_0_2 : array_like float := ints [2] [0; 2]%Z.

(** The weighted histogram of the specification *)
Definition weighted_10_4_20_9 : array_like float :=
  ints [2; 2] [10; 4; 20; 9]%Z.

(** A weighted histogram with an empty first bin *)
Definition weighted_empty_bin : array_like float :=
  ints [2; 2] [0; 0; 20; 9]%Z.

Definition term_of (r : result (BinnedCost float)) : BinnedCost float :=
  match r with
  | Ok c => c
  | Raise _ =>
      mk_binned (mk_masked [] 0 (mk_nd [] []) None (mk_nd [] []))
        (mk_nd [] []) uniform_cdf
  end.

Definition empty_bin_term : BinnedCost float :=
  term_of (@BinnedCost_init float np64 counts_0_2 edges_0_1_2 uniform_cdf 0).

Definition empty_bin_extended : BinnedCost float :=
  term_of (@BinnedCost_init float np64 counts_0_2 edges_0_1_2
             uniform_scaled_cdf 0).

Definition weighted_term : BinnedCost float :=
  term_of (@BinnedCost_init float np64 weighted_10_4_20_9 edges_0_1_2
             uniform_cdf 0).

(** Three bins of which the mask keeps the first and the last; the CDF of
    a uniform density on [0, 4] *)
Definition quarter_cdf : model_t float :=
  mk_model ["x"; "a"]%string
    (fun xe _ => Array (@map_nd float (fun x => x / 4)%float xe)).

Definition three_counts_term : BinnedCost float :=
  term_of (@BinnedCost_init float np64 (ints [3] [3; 2; 5]%Z)
             (ints [4] [0; 1; 2; 4]%Z) quarter_cdf 0).

Definition masked_counts_term : BinnedCost float :=
  fst (BinnedCost_set_mask three_counts_term
         (Some (BoolMask [true; false; true]))).

Definition empty_bin_weighted : BinnedCost float :=
  term_of (@BinnedCost_init float np64 weighted_empty_bin edges_0_1_2
             uniform_cdf 0).

(** A straight line [a + b x] through three points *)
Definition line : model_t float :=
  mk_model ["x"; "a"; "b"]%string
    (fun x args =>
       Array (@map_nd float
                (fun v => nth 0 args 0 + nth 1 args 0 * v)%float x)).

Definition fit_of (loss : string) : result (LeastSquares float) :=
  @LeastSquares_init float np64 (ints [3] [1; 2; 3]%Z) (ints [3] [3; 4; 6]%Z)
    (ints [] [1]%Z) line (LossName loss) 0.

Definition fit_term (r : result (LeastSquares float)) : LeastSquares float :=
  match r with
  | Ok c => c
  | Raise _ =>
      mk_ls (mk_masked [] 0 (mk_nd [] []) None (mk_nd [] []))
        (LossName "linear") (@_sum_z_squared float np64) line 0
  end.

(** A model of three explanatory variables, [x] of shape (3, 2) *)
Definition plane : model_t float :=
  mk_model ["x"; "a"]%string
    (fun x _ => Array (@mk_nd float [2] [0; 0]%float)).

Definition fit_three_variables : result (LeastSquares float) :=
  @LeastSquares_init float np64 (ints [3; 2] [1; 2; 3; 4; 5; 6]%Z)
    (ints [2] [1; 2]%Z) (ints [] [1]%Z) plane (LossName "linear") 0.

(** One explanatory variable given as an array of shape (1, 2) *)
Definition fit_one_row : result (LeastSquares float) :=
  @LeastSquares_init float np64 (ints [1; 2] [1; 2]%Z)
    (ints [2] [1; 2]%Z) (ints [] [1]%Z) plane (LossName "linear") 0.

(** A Gaussian constraint on one parameter, as a constituent of sums *)
Definition penalty : Cost float :=
  NormalConstraintCost
    (mk_constraint ["a"]%string (mk_nd [1] [1]%float) (mk_nd [1] [4]%float)
       (mk_nd [1] [0.25]%float)).

(** An unbinned term on two observations with a constant density *)
Definition flat_density : model_t float :=
  mk_model ["x"; "a"]%string
    (fun x _ => Array (@map_nd float (fun _ => 0.5%float) x)).

Definition unbinned_term : Cost float :=
  UnbinnedNLL
    (@UnbinnedCost_init float np64 (ints [2] [0; 1]%Z) flat_density 0 false).

(** * The rest of [cost.py] *)

Section Remaining.

Context {F : Type} {NP : NumPy F}.

Local Open Scope result_scope.

Local Abbreviation ndarray := (ndarray F).
Local Abbreviation array_like := (array_like F).

(** [BinnedCost.xe] setter (lines 570-572): [self.xe[:] = value] writes
    into the array of the edges, which keeps its shape. *)
Definition BinnedCost_set_xe (self : BinnedCost F) (value : array_like)
  : outcome (BinnedCost F) :=
  match assign_all (_xe self) (asfloat value) with
  | Raise e => (self, Some e)
  | Ok xe => (mk_binned (b_base self) xe (b_model self), None)
  end.

(** A term is a sum, and a sum is flat when none of its constituents is a
    sum. *)
Definition is_sum (c : Cost F) : bool :=
  match c with
  | CostSum _ _ _ _ => true
  | _ => false
  end.

Definition flat_sum (c : Cost F) : Prop :=
  Forall (fun i => is_sum i = false) (items c).

Definition flat_operand (x : operand F) : Prop :=
  match x with
  | Term c => flat_sum c
  | Number _ => True
  end.

(** The entries of an argument that is a number or one value per point,
    one per point *)
Definition spread (N : nat) (v : array_like) : list F :=
  match al_shape v with
  | [] => repeat (hd f0 (map to_float (al_items v))) N
  | _ => map to_float (al_items v)
  end.

(** The rows [(x, y, yerror)] of a least-squares term with one
    explanatory variable *)
Fixpoint rows3 (a b c : list F) : list (list F) :=
  match a, b, c with
  | x :: a', y :: b', z :: c' => [x; y; z] :: rows3 a' b' c'
  | _, _, _ => []
  end.

(** Column [k] of a table replaced by the values [vs], row by row *)
Fixpoint replace_column (k : nat) (rows : list (list F)) (vs : list F)
  : list (list F) :=
  match rows, vs with
  | r :: rows', v :: vs' =>
      (firstn k r ++ [v] ++ skipn (k + 1) r) :: replace_column k rows' vs'
  | _, _ => []
  end.

End Remaining.
(** ** Exceptions beyond those of the array operations *)

Inductive exception : Type :=
| Builtin (e : exn)             (* ValueError, IndexError, TypeError *)
| OverflowError
| LinAlgError
| KeyError (key : string)
| AttributeError
| UnboundLocalError.

Inductive py (A : Type) : Type :=
| Return (a : A)
| Throw (e : exception).

Arguments Return {A} a.
Arguments Throw {A} e.

Definition py_bind {A B} (r : py A) (k : A -> py B) : py B :=
  match r with
  | Return a => k a
  | Throw e => Throw e
  end.

Declare Scope py_scope.
Delimit Scope py_scope with py.
Notation "x <- r ;; k" := (py_bind r (fun x => k))
  (at level 61, r at next level, right associativity) : py_scope.

Definition lift {A} (r : result A) : py A :=
  match r with
  | Ok a => Return a
  | Raise e => Throw (Builtin e)
  end.


(** ** NormalConstraint (lines 828-910)

    [np.linalg.inv] and [np.einsum] are numpy's and LAPACK's: how a matrix
    is inverted and in which order the double sum associates is theirs to
    decide, so both are operations of an interface. *)

Class LinAlg (F : Type) : Type := {
  linalg_inv : ndarray F -> py (ndarray F);
  einsum_i_ij_j : ndarray F -> ndarray F -> ndarray F -> py F
}.

Section Constraint.

Context {F : Type} {NP : NumPy F} {LA : LinAlg F}.

Local Open Scope py_scope.

Local Abbreviation ndarray := (ndarray F).
Local Abbreviation array_like := (array_like F).


(** [a ** 2], which numpy evaluates as the square [a * a] *)
Definition square (a : ndarray) : ndarray := map_nd (fun x => x * x)%np a.



(** [_call]: the parameters arrive as a tuple, which numpy reads as a
    one-dimensional array. *)
Definition NormalConstraint_call (self : NormalConstraint F) (args : list F)
  : py F :=
  delta <- lift (lift2 fsub (_value self) (mk_nd [length args] args)) ;;
  if ndim (_covinv self) <? 2
  then
    p <- lift (lift2 fmul (square delta) (_covinv self)) ;;
    Return (sum_nd p)
  else einsum_i_ij_j delta (_covinv self) delta.






End Constraint.

(** ** [_call] of every term (lines 276-277, 334-339 and the classes
    above)

    [CostSum._call] accumulates in a Python float, from the literal [0.0]:
    the embedding is at float64, the type of every array that [_norm]
    converts. *)

Section Calls.

Variables (log : float -> float) (sum : list float -> float).
Context {LA : LinAlg float}.

Local Open Scope py_scope.

Local Abbreviation NP := (binary64 log sum).

(** [r += v] for a float [r]: an [int] is converted first, and one too
    large for a double is an [OverflowError]. *)
Definition py_add (r : float) (v : number) : py float :=
  match v with
  | Float x => Return (r + x)%float
  | Int z =>
      let x := float_of_Z z in
      if is_infinity x then Throw OverflowError else Return (r + x)%float
  end.

(** [tuple(args[i] for i in map)] *)
Fixpoint pick (args : list float) (m : list nat) : py (list float) :=
  match m with
  | [] => Return []
  | i :: m' =>
      match nth_error args i with
      | None => Throw (Builtin IndexError)
      | Some a => rest <- pick args m' ;; Return (a :: rest)
      end
  end.

Section Loop.

Variable call : Cost float -> list float -> py number.
Variable args : list float.

(** The loop of [CostSum._call] over [zip(self._items, self._maps)] *)
Fixpoint add_calls (its : list (Cost float)) (maps : list (list nat))
    (r : float) : py number :=
  match its, maps with
  | c :: its', m :: maps' =>
      c_args <- pick args m ;;
      v <- call c c_args ;;
      r <- py_add r v ;;
      add_calls its' maps' r
  | _, _ => Return (Float r)
  end.

End Loop.

Definition as_number (r : py float) : py number :=
  x <- r ;; Return (Float x).

Fixpoint _call (c : Cost float) (args : list float) : py number :=
  match c with
  | Constant v => Return v
  | UnbinnedNLL s => Return (Float (@UnbinnedNLL_call float NP s args))
  | ExtendedUnbinnedNLL s =>
      Return (Float (@ExtendedUnbinnedNLL_call float NP s args))
  | BinnedNLL s => as_number (lift (@BinnedNLL_call float NP s args))
  | ExtendedBinnedNLL s =>
      as_number (lift (@ExtendedBinnedNLL_call float NP s args))
  | LeastSquaresCost s => as_number (lift (LeastSquares_call s args))
  | NormalConstraintCost s =>
      as_number (@NormalConstraint_call float NP LA s args)
  | CostSum _ _ its maps => add_calls _call args its maps 0%float
  end.

End Calls.
(** * iminuit.util: the signature of a callable, and the containers *)

Module util.

Import Ascii.

Local Open Scope py_scope.

(** ** [make_func_code] and [describe] (lines 594-750) *)

(** The namespace [make_func_code] returns *)
Record func_code_t : Type := Namespace {
  co_varnames : list string;
  co_argcount : Z
}.

Definition make_func_code (params : list string) : func_code_t :=
  Namespace params (Z.of_nat (length params)).

(** [l[:k]]: a negative [k] counts from the end. *)
Definition slice_to {A} (l : list A) (k : Z) : list A :=
  if (0 <=? k)%Z then firstn (Z.to_nat k) l
  else firstn (length l - Z.to_nat (- k)) l.

(** The kinds of [inspect.Parameter] *)
Inductive kind : Type :=
| POSITIONAL_ONLY
| POSITIONAL_OR_KEYWORD
| VAR_POSITIONAL
| KEYWORD_ONLY
| VAR_KEYWORD.

Definition variadic (k : kind) : bool :=
  match k with
  | VAR_POSITIONAL | VAR_KEYWORD => true
  | _ => false
  end.

(** What [describe] looks at in an object: its [func_code] attribute if it
    has one, what [inspect.signature] and [inspect.getdoc] return for it,
    and its [__name__] if it has one.  Docstrings are ASCII. *)
Record callable_t : Type := Callable {
  func_code : option func_code_t;
  signature : py (list (string * kind));
  getdoc : option string;
  __name__ : option string
}.

Definition _arguments_from_func_code (obj : callable_t) : list string :=
  match func_code obj with
  | Some fc => slice_to (co_varnames fc) (co_argcount fc)
  | None => []
  end.

(** The loop of [_arguments_from_inspect]: it stops at the first variable
    number of positional or keyword arguments. *)
Fixpoint collect_names (ps : list (string * kind)) : list string :=
  match ps with
  | [] => []
  | (name, VAR_POSITIONAL) :: _ => []
  | (name, VAR_KEYWORD) :: _ => []
  | (name, _) :: ps' => name :: collect_names ps'
  end.

Definition _arguments_from_inspect (obj : callable_t) : py (list string) :=
  match signature obj with
  | Return ps => Return (collect_names ps)
  | Throw (Builtin (ValueError _)) => Return []
  | Throw e => Throw e
  end.

(** *** Strings *)

(** [str.isspace] of an ASCII character *)
Definition is_space (c : ascii) : bool :=
  let n := nat_of_ascii c in
  ((9 <=? n) && (n <=? 13)) || ((28 <=? n) && (n <=? 32)).

(** Membership in the characters of [" []"] *)
Definition is_pad (c : ascii) : bool :=
  Ascii.eqb c " " || Ascii.eqb c "[" || Ascii.eqb c "]".

Fixpoint lstrip (p : ascii -> bool) (s : string) : string :=
  match s with
  | EmptyString => EmptyString
  | String c s' => if p c then lstrip p s' else s
  end.

Fixpoint rstrip (p : ascii -> bool) (s : string) : string :=
  match s with
  | EmptyString => EmptyString
  | String c s' =>
      match rstrip p s' with
      | EmptyString => if p c then EmptyString else String c EmptyString
      | r => String c r
      end
  end.

(** [s.strip(chars)] and [s.strip()] *)
Definition strip (p : ascii -> bool) (s : string) : string :=
  rstrip p (lstrip p s).

(** [s.split(sep)] for a separator of one character *)
Fixpoint split (sep : ascii) (s : string) : list string :=
  match s with
  | EmptyString => [EmptyString]
  | String c s' =>
      if Ascii.eqb c sep then EmptyString :: split sep s'
      else match split sep s' with
           | [] => [String c EmptyString]
           | x :: xs => String c x :: xs
           end
  end.

(** [s.find(t)] is [index 0 t s]; [s[a:b]] for [0 <= a], [b <= len(s)] *)
Definition slice (s : string) (a b : nat) : string := substring a (b - a) s.

(** [l.index(x)] *)
Fixpoint list_index (x : string) (l : list string) : option nat :=
  match l with
  | [] => None
  | y :: l' => if String.eqb y x then Some 0
               else option_map S (list_index x l')
  end.

(** The loop that looks for the closing parenthesis: the value of [ich]
    when it ends, at the break or after the last character; nothing when
    there was no character to look at. *)
Fixpoint closing (s : string) (nbrace : Z) (ich : nat) : option nat :=
  match s with
  | EmptyString => None
  | String ch s' =>
      let nbrace := if Ascii.eqb ch "(" then (nbrace + 1)%Z
                    else if Ascii.eqb ch ")" then (nbrace - 1)%Z
                    else nbrace in
      if (nbrace =? 0)%Z then Some ich
      else match closing s' nbrace (S ich) with
           | Some i => Some i
           | None => Some ich
           end
  end.

Definition extract (s : string) : string :=
  let a := match index 0 " " s with
           | Some a => a
           | None => 0
           end in
  let b := match index 0 "=" s with
           | Some b => b
           | None => String.length s
           end in
  strip is_space (slice s a b).

Definition _arguments_from_docstring (obj : callable_t) : py (list string) :=
  match getdoc obj with
  | None => Return []
  | Some doc =>
      match __name__ obj with
      | None => Throw AttributeError
      | Some name =>
          let token := (name ++ "(")%string in
          match index 0 token doc with
          | None => Return []
          | Some start =>
              let start := start + String.length token in
              match closing (slice doc start (String.length doc)) 1 0 with
              | None => Throw UnboundLocalError
              | Some ich =>
                  let items := map (strip is_pad)
                                 (split "," (slice doc start (start + ich))) in
                  match items with
                  | [] => Throw (Builtin IndexError)
                  | first :: others =>
                      let items := if String.eqb first "self" then others
                                   else items in
                      let items := match list_index "*args" items with
                                   | Some i => firstn i items
                                   | None => items
                                   end in
                      Return
                        (map extract
                           (filter (fun x => negb (String.eqb x "*")) items))
                  end
              end
          end
      end
  end.

(** [a or b or c] on tuples: the first that is not empty, else the last. *)
Definition describe (callable : callable_t) : py (list string) :=
  match _arguments_from_func_code callable with
  | (_ :: _) as a => Return a
  | [] =>
      b <- _arguments_from_inspect callable ;;
      match b with
      | _ :: _ => Return b
      | [] => _arguments_from_docstring callable
      end
  end.






(** ** [_normalize_limit] (lines 155-165)

    A limit is [None] or a sequence whose entries are [None] or numbers;
    [str] is the text Python prints for the list in the error message. *)

Section Limits.

Variable str : list (option float) -> string.

Definition _normalize_limit (lim : option (list (option float)))
  : py (list (option float)) :=
  match lim with
  | None => Return [Some neg_infinity; Some infinity]
  | Some [] => Throw (Builtin IndexError)
  | Some (l0 :: rest) =>
      let l0 := match l0 with
                | None => neg_infinity
                | Some x => x
                end in
      match rest with
      | [] => Throw (Builtin IndexError)
      | l1 :: rest' =>
          let l1 := match l1 with
                    | None => infinity
                    | Some x => x
                    end in
          let lim := Some l0 :: Some l1 :: rest' in
          if (l1 <? l0)%float
          then Throw (Builtin (ValueError
                                 ("limit " ++ str lim ++ " is invalid")))
          else Return lim
      end
  end.

End Limits.

(** ** Containers (lines 459-591) *)

(** A key: an [int] or a [str] *)
Inductive key_t : Type :=
| IntKey (i : Z)
| StrKey (s : string).

Section Containers.

Variable V : Type.

(** An [OrderedDict] with string keys: its items in insertion order, the
    keys distinct *)
Definition ordered_dict : Type := list (string * V).

Fixpoint dict_getitem (d : ordered_dict) (k : string) : py V :=
  match d with
  | [] => Throw (KeyError k)
  | (k', v) :: d' => if String.eqb k' k then Return v else dict_getitem d' k
  end.

(** The loop [for i, k in enumerate(self): if i == key: break]: the value
    of [k] when it ends *)
Fixpoint key_at (keys : list string) (i key : Z) (k : option string)
  : option string :=
  match keys with
  | [] => k
  | k' :: keys' =>
      if (i =? key)%Z then Some k' else key_at keys' (i + 1)%Z key (Some k')
  end.

(** [MErrors.__getitem__] (lines 581-591) *)
Definition MErrors_getitem (self : ordered_dict) (key : key_t) : py V :=
  match key with
  | IntKey key =>
      let n := Z.of_nat (length self) in
      let key := if (key <? 0)%Z then (key + n)%Z else key in
      if ((key <? 0) || (n <=? key))%Z then Throw (Builtin IndexError)
      else
        match key_at (map fst self) 0 key None with
        | None => Throw UnboundLocalError
        | Some k => dict_getitem self k
        end
  | StrKey k => dict_getitem self k
  end.

End Containers.

(** [Param] (lines 419-456) *)
Record Param : Type := mk_param {
  number : Z;
  name : string;
  value : float;
  error : float;
  merror : option (float * float);
  is_const : bool;
  is_fixed : bool;
  has_limits : bool;
  has_lower_limit : bool;
  has_upper_limit : bool;
  lower_limit : option float;
  upper_limit : option float
}.

(** The loop of [Params.__getitem__] for a name: the value of [i] when it
    ends *)
Fixpoint position (ps : list Param) (i : nat) (key : string) (last : option nat)
  : option nat :=
  match ps with
  | [] => last
  | p :: ps' =>
      if String.eqb (name p) key then Some i
      else position ps' (S i) key (Some i)
  end.

(** [Params.__getitem__] (lines 502-508), for a name or an index *)
Definition Params_getitem (self : list Param) (key : key_t) : py Param :=
  key <- match key with
         | StrKey s =>
             match position self 0 s None with
             | Some i => Return (Z.of_nat i)
             | None => Throw UnboundLocalError
             end
         | IntKey i => Return i
         end ;;
  match norm_index (length self) key with
  | None => Throw (Builtin IndexError)
  | Some k =>
      match nth_error self k with
      | Some p => Return p
      | None => Throw (Builtin IndexError)
      end
  end.

End util.
(** * Concrete terms for the rest of the module *)

(** A numpy whose linear-algebra routines reject every matrix: enough for
    constraints with one-dimensional errors, which never call them. *)
Definition no_linalg {F : Type} : LinAlg F :=
  {| linalg_inv := fun _ => Throw LinAlgError;
     einsum_i_ij_j := fun _ _ _ => Throw LinAlgError |}.

(** The three points of [fit_of] *)
Definition three_points : list (list float) :=
  [[1; 3; 1]; [2; 4; 1]; [3; 6; 1]]%float.

(** Array-likes of real numbers *)
Definition reals (s : list nat) (l : list R) : array_like R :=
  mk_al s (map (@PyFloat R) l).

(** Three bins with the counts 3, 2 and 5 over the edges 0, 1, 2, 4, in
    exact arithmetic; the model is the CDF of a uniform density on [0, 4],
    times its first parameter. *)
Definition scaled_quarter_cdf : model_t R :=
  mk_model ["x"; "a"]%string
    (fun xe args =>
       Array (@map_nd R (fun x => nth 0 args 1 * (x / 4))%R xe)).

Definition real_term_of (r : result (BinnedCost R)) : BinnedCost R :=
  match r with
  | Ok c => c
  | Raise _ =>
      mk_binned (mk_masked [] 0 (mk_nd [] []) None (mk_nd [] []))
        (mk_nd [] []) scaled_quarter_cdf
  end.

Definition real_counts_term : BinnedCost R :=
  real_term_of (@BinnedCost_init R exact (reals [3] [3; 2; 5]%R)
                  (reals [4] [0; 1; 2; 4]%R) scaled_quarter_cdf 0).

Definition real_masked_term : BinnedCost R :=
  fst (BinnedCost_set_mask real_counts_term
         (Some (BoolMask [true; false; true]))).

(** Two observations with a density [a] and its integral [2 a] *)
Definition real_density : model_t R :=
  mk_model ["x"; "a"]%string
    (fun x args => Array (@map_nd R (fun _ => nth 0 args 1%R) x)).

Definition real_unbinned : UnbinnedCost R :=
  @UnbinnedCost_init R exact (reals [2] [0; 1]%R) real_density 0 false.

Definition real_extended : ExtendedUnbinnedCost R :=
  mk_eunbinned (u_base real_unbinned)
    (fun x args => ((2 * nth 0 args 1)%R, apply real_density x args))
    false.

(** Objects for [describe] *)
Definition with_func_code : util.callable_t :=
  util.Callable (Some (util.make_func_code ["a"; "b"]%string))
    (Return [("x", util.POSITIONAL_OR_KEYWORD)]%string)
    (Some "f(u, v)"%string) (Some "f"%string).

Definition with_signature : util.callable_t :=
  util.Callable None
    (Return [("a", util.POSITIONAL_OR_KEYWORD);
             ("b", util.POSITIONAL_OR_KEYWORD);
             ("args", util.VAR_POSITIONAL);
             ("key", util.KEYWORD_ONLY)]%string)
    None (Some "f"%string).

(** * Facts about arrays *)

Section ArrayFacts.

Context {F : Type} {NP : NumPy F}.

Lemma chunks_length (d c : nat) (l : list F) : length (chunks d c l) = d.
Proof.
  revert l; induction d as [|d IH]; intro l; simpl; [reflexivity|].
  now rewrite IH.
Qed.

Lemma concat_chunks (d c : nat) (l : list F) :
  length l = d * c -> concat (chunks d c l) = l.
Proof.
  revert l; induction d as [|d IH]; intros l H; simpl in *.
  - now destruct l.
  - rewrite IH.
    + apply firstn_skipn.
    + rewrite length_skipn. lia.
Qed.

Lemma chunks_Forall (d c : nat) (l : list F) :
  length l = d * c -> Forall (fun r => length r = c) (chunks d c l).
Proof.
  revert l; induction d as [|d IH]; intros l H; simpl in *; constructor.
  - rewrite length_firstn. lia.
  - apply IH. rewrite length_skipn. lia.
Qed.

Lemma chunks_concat (c : nat) (rows : list (list F)) :
  Forall (fun r => length r = c) rows ->
  chunks (length rows) c (concat rows) = rows.
Proof.
  induction 1 as [|r rows Hr _ IH]; simpl; [reflexivity|].
  subst c.
  rewrite firstn_app, firstn_all, Nat.sub_diag, firstn_O, app_nil_r.
  rewrite skipn_app, skipn_all, Nat.sub_diag, skipn_O. simpl.
  now rewrite IH.
Qed.

Lemma chunks_singletons (l : list F) :
  chunks (length l) 1 l = map (fun x => [x]) l.
Proof.
  induction l as [|x l IH]; simpl; [reflexivity|].
  now rewrite IH.
Qed.

Lemma concat_singletons (l : list F) : concat (map (fun x => [x]) l) = l.
Proof. induction l as [|x l IH]; simpl; congruence. Qed.

End ArrayFacts.

Section BroadcastFacts.

Context {F : Type} {NP : NumPy F}.

Lemma all_some_map_Some (A : Type) (l : list A) :
  all_some (map (@Some A) l) = Some l.
Proof. induction l as [|x l IH]; simpl; [reflexivity|]. now rewrite IH. Qed.

Lemma stretch_same (s : list nat) (v : list F) :
  length v = size_of s -> stretch s s v = Some v.
Proof.
  revert v; induction s as [|d s IH]; intros v H; simpl; [reflexivity|].
  rewrite Nat.eqb_refl.
  assert (E : map (stretch s s) (chunks d (size_of s) v)
              = map (@Some _) (chunks d (size_of s) v)).
  { apply map_ext_in. intros r Hr. apply IH.
    pose proof (chunks_Forall d (size_of s) v H) as HF.
    rewrite Forall_forall in HF. now apply HF. }
  rewrite E, all_some_map_Some. simpl.
  now rewrite concat_chunks.
Qed.

Lemma pad_same (s : list nat) : pad (length s) s = s.
Proof. unfold pad. now rewrite Nat.sub_diag. Qed.

Lemma common_same (s : list nat) : common s s = Some s.
Proof.
  induction s as [|d s IH]; simpl; [reflexivity|].
  now rewrite IH, Nat.eqb_refl.
Qed.

Lemma broadcast_shape_same (s : list nat) : broadcast_shape s s = Some s.
Proof.
  unfold broadcast_shape. rewrite Nat.max_id, pad_same. apply common_same.
Qed.

Lemma broadcast_to_same (a : ndarray F) :
  wf a -> broadcast_to a (shape a) = Some a.
Proof.
  intro H. unfold broadcast_to. rewrite Nat.leb_refl, pad_same.
  rewrite stretch_same by exact H. now destruct a.
Qed.

(** Two arrays of one shape combine element by element. *)
Lemma lift2_same_shape (f : F -> F -> F) (a b : ndarray F) :
  wf a -> wf b -> shape b = shape a ->
  lift2 f a b = Ok (mk_nd (shape a) (map2 f (flat a) (flat b))).
Proof.
  intros Ha Hb E. unfold lift2. rewrite E, broadcast_shape_same.
  rewrite (broadcast_to_same Ha). rewrite <- E, (broadcast_to_same Hb).
  now rewrite E.
Qed.

Lemma shape_eqb_refl (s : list nat) : shape_eqb s s = true.
Proof.
  induction s as [|d s IH]; simpl; [reflexivity|].
  now rewrite Nat.eqb_refl.
Qed.

Lemma shape_eqb_eq (s1 s2 : list nat) : shape_eqb s1 s2 = true <-> s1 = s2.
Proof.
  split; [|intros ->; apply shape_eqb_refl].
  revert s2; induction s1 as [|d s1 IH]; intros [|e s2]; simpl; try easy.
  rewrite andb_true_iff, Nat.eqb_eq. intros [-> H]. f_equal. now apply IH.
Qed.

Lemma lift2_inplace_same_shape (f : F -> F -> F) (a b : ndarray F) :
  wf a -> wf b -> shape b = shape a ->
  lift2_inplace f a b = Ok (mk_nd (shape a) (map2 f (flat a) (flat b))).
Proof.
  intros Ha Hb E. unfold lift2_inplace.
  rewrite (lift2_same_shape f Ha Hb E). simpl.
  now rewrite shape_eqb_refl.
Qed.

Lemma map2_length (f : F -> F -> F) (l1 l2 : list F) :
  length l2 = length l1 -> length (map2 f l1 l2) = length l1.
Proof.
  revert l2; induction l1 as [|x l1 IH]; intros [|y l2] H; simpl in *;
    try easy.
  f_equal. apply IH. lia.
Qed.

Lemma map2_map (f : F -> F -> F) (g h : F -> F) (l1 l2 : list F) :
  map2 f (map g l1) (map h l2) = map2 (fun x y => f (g x) (h y)) l1 l2.
Proof.
  revert l2; induction l1 as [|x l1 IH]; intros [|y l2]; simpl; try easy.
  now rewrite IH.
Qed.

Lemma map2_map2_l (f g : F -> F -> F) (l1 l2 : list F) :
  map2 f l1 (map2 g l1 l2) = map2 (fun x y => f x (g x y)) l1 l2.
Proof.
  revert l2; induction l1 as [|x l1 IH]; intros [|y l2]; simpl; try easy.
  now rewrite IH.
Qed.


End BroadcastFacts.

Section SelectionFacts.

Context {F : Type} {NP : NumPy F}.

Lemma select_bool_map (A B : Type) (f : A -> B) (m : list bool) (l : list A) :
  select_bool m (map f l) = map f (select_bool m l).
Proof.
  revert l; induction m as [|b m IH]; intros [|x l]; simpl; try easy.
  destruct b; simpl; now rewrite IH.
Qed.

Lemma select_index_map (A B : Type) (f : A -> B) (l : list A) (d : nat)
    (idx : list Z) :
  select_index (map f l) d idx = option_map (map f) (select_index l d idx).
Proof.
  induction idx as [|i idx IH]; simpl; [reflexivity|].
  destruct (norm_index d i) as [k|]; [|reflexivity].
  rewrite nth_error_map, IH.
  destruct (nth_error l k); simpl; [|reflexivity].
  now destruct (select_index l d idx).
Qed.

Lemma select_rows_map (A B : Type) (f : A -> B) (m : mask_t) (d : nat)
    (l : list A) :
  select_rows m d (map f l) = option_map (map f) (select_rows m d l).
Proof.
  destruct m as [m|idx]; simpl.
  - destruct (length m =? d); simpl; [|reflexivity].
    now rewrite select_bool_map.
  - apply select_index_map.
Qed.

Lemma select_bool_Forall (A : Type) (P : A -> Prop) (m : list bool)
    (l : list A) :
  Forall P l -> Forall P (select_bool m l).
Proof.
  intro H; revert m; induction H as [|x l Hx _ IH]; intros [|b m]; simpl;
    try constructor.
  destruct b; [constructor; [exact Hx|]|]; apply IH.
Qed.

Lemma select_index_Forall (A : Type) (P : A -> Prop) (l sel : list A)
    (d : nat) (idx : list Z) :
  Forall P l -> select_index l d idx = Some sel -> Forall P sel.
Proof.
  intro H; revert sel; induction idx as [|i idx IH]; simpl; intros sel E.
  - injection E as <-. constructor.
  - destruct (norm_index d i) as [k|]; [|discriminate].
    destruct (nth_error l k) as [r|] eqn:Er; [|discriminate].
    destruct (select_index l d idx) as [rs|]; [|discriminate].
    injection E as <-. constructor; [|now apply IH].
    rewrite Forall_forall in H. apply H. eapply nth_error_In; eassumption.
Qed.

Lemma select_rows_Forall (A : Type) (P : A -> Prop) (m : mask_t) (d : nat)
    (l sel : list A) :
  Forall P l -> select_rows m d l = Some sel -> Forall P sel.
Proof.
  intros H; destruct m as [m|idx]; simpl.
  - destruct (length m =? d); [|discriminate].
    intro E; injection E as <-. now apply select_bool_Forall.
  - now apply select_index_Forall.
Qed.

(** A mask selects as many entries from one list as from another of the
    same length, and fails on both or on neither. *)
Lemma select_bool_length (A B : Type) (m : list bool) (l1 : list A)
    (l2 : list B) :
  length l2 = length l1 ->
  length (select_bool m l2) = length (select_bool m l1).
Proof.
  revert l1 l2; induction m as [|b m IH]; intros [|x l1] [|y l2] H; simpl in *;
    try easy.
  destruct b; simpl; [f_equal|]; apply IH; lia.
Qed.

Lemma select_index_length (A : Type) (l sel : list A) (d : nat)
    (idx : list Z) :
  select_index l d idx = Some sel -> length sel = length idx.
Proof.
  revert sel; induction idx as [|i idx IH]; simpl; intros sel E.
  - now injection E as <-.
  - destruct (norm_index d i) as [k|]; [|discriminate].
    destruct (nth_error l k); [|discriminate].
    destruct (select_index l d idx) as [rs|]; [|discriminate].
    injection E as <-. simpl. f_equal. now apply IH.
Qed.

Lemma select_index_transfer (A B : Type) (l1 sel : list A) (l2 : list B)
    (d : nat) (idx : list Z) :
  length l2 = length l1 ->
  select_index l1 d idx = Some sel ->
  exists sel', select_index l2 d idx = Some sel'.
Proof.
  intro H; revert sel; induction idx as [|i idx IH]; simpl; intros sel E.
  - now exists [].
  - destruct (norm_index d i) as [k|]; [|discriminate].
    destruct (nth_error l1 k) eqn:E1; [|discriminate].
    destruct (select_index l1 d idx) as [rs|]; [|discriminate].
    destruct (IH rs eq_refl) as [rs' ->].
    assert (Hk : k < length l2).
    { rewrite H. apply nth_error_Some. congruence. }
    apply nth_error_Some in Hk.
    destruct (nth_error l2 k); [|congruence]. eauto.
Qed.

Lemma select_rows_transfer (A B : Type) (m : mask_t) (d : nat)
    (l1 sel : list A) (l2 : list B) :
  length l2 = length l1 ->
  select_rows m d l1 = Some sel ->
  exists sel', select_rows m d l2 = Some sel' /\ length sel' = length sel.
Proof.
  intros H; destruct m as [m|idx]; simpl.
  - destruct (length m =? d); [|discriminate].
    intro E; injection E as <-. eexists; split; [reflexivity|].
    now apply select_bool_length.
  - intro E. destruct (@select_index_transfer A B l1 sel l2 d idx H E) as [sel' E'].
    exists sel'; split; [exact E'|].
    rewrite (@select_index_length _ _ _ _ _ E), (@select_index_length _ _ _ _ _ E').
    reflexivity.
Qed.


(** [a[mask]] on a well-formed one-dimensional array *)
Lemma getitem_1d (l : list F) (m : mask_t) :
  getitem (mk_nd [length l] l) m
  = match select_rows m (length l) l with
    | Some sel => Ok (mk_nd [length sel] sel)
    | None => Raise IndexError
    end.
Proof.
  unfold getitem; simpl.
  rewrite chunks_singletons, select_rows_map.
  destruct (select_rows m (length l) l) as [sel|]; simpl; [|reflexivity].
  now rewrite length_map, concat_singletons.
Qed.

(** [a[mask]] on a well-formed array of [d] rows of [c] entries *)
Lemma getitem_2d (c : nat) (rows : list (list F)) (m : mask_t) :
  Forall (fun r => length r = c) rows ->
  getitem (mk_nd [length rows; c] (concat rows)) m
  = match select_rows m (length rows) rows with
    | Some sel => Ok (mk_nd [length sel; c] (concat sel))
    | None => Raise IndexError
    end.
Proof.
  intro H. unfold getitem; simpl.
  rewrite Nat.mul_1_r, chunks_concat by exact H. reflexivity.
Qed.

End SelectionFacts.

(** * Facts about the kernels and the binned terms *)

Section BinnedFacts.

Context {F : Type} {NP : NumPy F}.

Lemma wf_1d (l : list F) : wf (mk_nd [length l] l).
Proof. unfold wf; simpl. lia. Qed.

Lemma wf_1d_eq (k : nat) (l : list F) : length l = k -> wf (mk_nd [k] l).
Proof. intros <-. apply wf_1d. Qed.

Lemma diff1_length (l : list F) : length (diff1 l) = length l - 1.
Proof.
  induction l as [|x [|y l] IH]; simpl in *; try reflexivity.
  rewrite IH. lia.
Qed.

Lemma np_diff_1d (l : list F) :
  np_diff (mk_nd [length l] l) = Ok (mk_nd [length (diff1 l)] (diff1 l)).
Proof.
  unfold np_diff; simpl.
  now rewrite firstn_all, app_nil_r, diff1_length.
Qed.

(** The kernels on two one-dimensional arrays of one length *)
Lemma log_poisson_part_1d (n mu : list F) :
  length mu = length n ->
  _log_poisson_part (mk_nd [length n] n) (mk_nd [length n] mu)
  = Ok (mk_nd [length n] (map2 log_poisson_term n mu)).
Proof.
  intro H. unfold _log_poisson_part, map_nd; simpl.
  rewrite lift2_same_shape; simpl;
    try (apply wf_1d_eq; now rewrite ?length_map); try reflexivity.
  rewrite lift2_same_shape; simpl; try reflexivity;
    try (apply wf_1d_eq; rewrite ?map2_length, ?length_map;
         rewrite ?length_map; congruence).
  now rewrite !map_map, map2_map, map2_map2_l.
Qed.

Lemma sum_log_poisson_part_1d (n mu : list F) :
  length mu = length n ->
  _sum_log_poisson_part (mk_nd [length n] n) (mk_nd [length n] mu)
  = Ok (np_sum (map2 log_poisson_term n mu)).
Proof.
  intro H. unfold _sum_log_poisson_part.
  now rewrite log_poisson_part_1d.
Qed.

Lemma map2_swap (f : F -> F -> F) (l1 l2 : list F) :
  map2 f l1 l2 = map2 (fun y x => f x y) l2 l1.
Proof.
  revert l2; induction l1 as [|x l1 IH]; intros [|y l2]; simpl; try easy.
  now rewrite IH.
Qed.

Lemma map2_map2_both (f g h : F -> F -> F) (l1 l2 : list F) :
  map2 f (map2 g l1 l2) (map2 h l1 l2)
  = map2 (fun x y => f (g x y) (h x y)) l1 l2.
Proof.
  revert l2; induction l1 as [|x l1 IH]; intros [|y l2]; simpl; try easy.
  now rewrite IH.
Qed.

Lemma sum_log_poisson_1d (n mu : list F) :
  length mu = length n ->
  _sum_log_poisson (mk_nd [length n] n) (mk_nd [length n] mu)
  = Ok (np_sum (map2 extended_term n mu)).
Proof.
  intro H. unfold _sum_log_poisson.
  rewrite lift2_same_shape; simpl; try reflexivity;
    try (apply wf_1d_eq; congruence).
  rewrite log_poisson_part_1d by exact H. simpl.
  rewrite lift2_same_shape; simpl; try reflexivity;
    try (apply wf_1d_eq; rewrite map2_length; congruence).
  unfold sum_nd; simpl. do 2 f_equal.
  rewrite (map2_swap fsub mu n), map2_map2_both. reflexivity.
Qed.

(** Columns of a table of rows of equal length *)
Lemma column_length (c k : nat) (rows : list (list F)) :
  Forall (fun r => length r = c) rows -> k < c ->
  length (column k rows) = length rows.
Proof.
  intros H Hk. unfold column.
  induction H as [|r rows Hr _ IH]; cbn [flat_map length]; [reflexivity|].
  rewrite length_app, IH, length_firstn, length_skipn. lia.
Qed.

Lemma col_2d (c k : nat) (rows : list (list F)) :
  Forall (fun r => length r = c) rows -> k < c ->
  col (mk_nd [length rows; c] (concat rows)) k
  = Ok (mk_nd [length rows] (column k rows)).
Proof.
  intros H Hk. unfold col; simpl.
  apply Nat.ltb_lt in Hk. rewrite Hk.
  rewrite !Nat.mul_1_r, chunks_concat by exact H. reflexivity.
Qed.

End BinnedFacts.

Unset Implicit Arguments.

Section BinnedCalls.

Context {F : Type} {NP : NumPy F}.

Lemma active_1d (b : MaskedCost F) (dv : list F) :
  _data b = mk_nd [length dv] dv -> current b ->
  exists n, select (_mask b) dv = Some n /\ _masked b = mk_nd [length n] n.
Proof.
  unfold current, select. intros Hd Hc.
  destruct (_mask b) as [m|].
  - rewrite Hd, getitem_1d in Hc.
    destruct (select_rows m (length dv) dv) as [sel|]; [|discriminate].
    injection Hc as <-. now exists sel.
  - exists dv. now rewrite Hc.
Qed.

Lemma active_2d (b : MaskedCost F) (c : nat) (rows : list (list F)) :
  _data b = mk_nd [length rows; c] (concat rows) ->
  Forall (fun r => length r = c) rows ->
  current b ->
  exists sel,
    select (_mask b) rows = Some sel /\
    _masked b = mk_nd [length sel; c] (concat sel) /\
    Forall (fun r => length r = c) sel.
Proof.
  unfold current, select. intros Hd Hr Hc.
  destruct (_mask b) as [m|].
  - rewrite Hd, getitem_2d in Hc by exact Hr.
    destruct (select_rows m (length rows) rows) as [sel|] eqn:E;
      [|discriminate].
    injection Hc as <-. exists sel. repeat split.
    eapply select_rows_Forall; eassumption.
  - exists rows. now rewrite Hc.
Qed.

(** The mask that selects the active bins selects as many probabilities. *)
Lemma select_prob (A : Type) (mask : option mask_t) (dv n : list A)
    (p : list F) :
  select mask dv = Some n -> length p = length dv ->
  exists prob,
    select mask p = Some prob /\ length prob = length n /\
    match mask with
    | None => Ok (mk_nd [length p] p)
    | Some m => getitem (mk_nd [length p] p) m
    end = Ok (mk_nd [length prob] prob).
Proof.
  unfold select. intros Hn Hp. destruct mask as [m|].
  - rewrite <- Hp in Hn.
    destruct (@select_rows_transfer A F m (length p) dv n p Hp Hn)
      as (prob & E & L).
    exists prob. rewrite getitem_1d, E. now repeat split.
  - injection Hn as <-. exists p. now repeat split.
Qed.

Lemma weighted_false (self : BinnedCost F) (k : nat) (dv : list F) :
  _data (b_base self) = mk_nd [k] dv -> shape (_xe self) = [S k] ->
  _weighted self = false.
Proof. unfold _weighted, ndim. now intros -> ->. Qed.

Lemma weighted_true (self : BinnedCost F) (k c : nat) (dv : list F) :
  _data (b_base self) = mk_nd [k; c] dv -> shape (_xe self) = [S k] ->
  _weighted self = true.
Proof. unfold _weighted, ndim. now intros -> ->. Qed.

Lemma BinnedNLL_expected_unweighted (self : BinnedCost F) (args dv cv : list F) :
  _data (b_base self) = mk_nd [length dv] dv ->
  shape (_xe self) = [S (length dv)] ->
  current (b_base self) ->
  _normalize_model_output (apply (b_model self) (_xe self) args)
  = mk_nd [length cv] cv ->
  length cv = S (length dv) ->
  exists n prob,
    select (_mask (b_base self)) dv = Some n /\
    select (_mask (b_base self)) (diff1 cv) = Some prob /\
    length prob = length n /\
    BinnedNLL_expected self args
    = Ok (mk_nd [length n] n,
          mk_nd [length n]
            (map (fun p => np_sum n * p)%np
               (renormalized (_mask (b_base self)) prob))).
Proof.
  intros Hd Hx Hc Hm Hl.
  destruct (active_1d _ _ Hd Hc) as (n & Hn & Hmasked).
  assert (Hp : length (diff1 cv) = length dv) by (rewrite diff1_length; lia).
  destruct (select_prob _ _ _ _ _ Hn Hp) as (prob & Hsel & Hlen & Hget).
  exists n, prob. repeat split; try assumption.
  unfold BinnedNLL_expected.
  rewrite Hm, np_diff_1d, (weighted_false _ _ _ Hd Hx), Hmasked.
  cbn [bind]. unfold renormalized.
  destruct (_mask (b_base self)) as [m|].
  - rewrite Hget. cbn [bind]. unfold map_nd, sum_nd; cbn [shape flat].
    now rewrite Hlen.
  - injection Hget as E1 E2. unfold map_nd, sum_nd; cbn [bind shape flat].
    now rewrite E2, Hlen.
Qed.

Lemma ExtendedBinnedNLL_expected_unweighted (self : BinnedCost F)
    (args dv cv : list F) :
  _data (b_base self) = mk_nd [length dv] dv ->
  shape (_xe self) = [S (length dv)] ->
  current (b_base self) ->
  _normalize_model_output (apply (b_model self) (_xe self) args)
  = mk_nd [length cv] cv ->
  length cv = S (length dv) ->
  exists n mu,
    select (_mask (b_base self)) dv = Some n /\
    select (_mask (b_base self)) (diff1 cv) = Some mu /\
    length mu = length n /\
    ExtendedBinnedNLL_expected self args
    = Ok (mk_nd [length n] n, mk_nd [length n] mu).
Proof.
  intros Hd Hx Hc Hm Hl.
  destruct (active_1d _ _ Hd Hc) as (n & Hn & Hmasked).
  assert (Hp : length (diff1 cv) = length dv) by (rewrite diff1_length; lia).
  destruct (select_prob _ _ _ _ _ Hn Hp) as (mu & Hsel & Hlen & Hget).
  exists n, mu. repeat split; try assumption.
  unfold ExtendedBinnedNLL_expected.
  rewrite Hm, np_diff_1d, (weighted_false _ _ _ Hd Hx), Hmasked.
  cbn [bind].
  destruct (_mask (b_base self)) as [m|]; rewrite Hget; cbn [bind];
    now rewrite Hlen.
Qed.

Lemma BinnedNLL_expected_weighted (self : BinnedCost F) (args cv : list F)
    (rows : list (list F)) :
  _data (b_base self) = mk_nd [length rows; 4] (concat rows) ->
  Forall (fun r => length r = 4) rows ->
  shape (_xe self) = [S (length rows)] ->
  current (b_base self) ->
  _normalize_model_output (apply (b_model self) (_xe self) args)
  = mk_nd [length cv] cv ->
  length cv = S (length rows) ->
  exists active prob,
    select (_mask (b_base self)) rows = Some active /\
    select (_mask (b_base self)) (diff1 cv) = Some prob /\
    length prob = length active /\
    BinnedNLL_expected self args
    = Ok (mk_nd [length active] (column 2 active),
          mk_nd [length active]
            (map2 fmul
               (map (fun p => np_sum (column 0 active) * p)%np
                  (renormalized (_mask (b_base self)) prob))
               (column 3 active))).
Proof.
  intros Hd Hr Hx Hc Hm Hl.
  destruct (active_2d _ _ _ Hd Hr Hc) as (act & Hn & Hmasked & Hact).
  assert (Hp : length (diff1 cv) = length rows)
    by (rewrite diff1_length; lia).
  destruct (select_prob _ _ _ _ _ Hn Hp) as (prob & Hsel & Hlen & Hget).
  exists act, prob. repeat split; try assumption.
  unfold BinnedNLL_expected.
  rewrite Hm, np_diff_1d, (weighted_true _ _ _ _ Hd Hx), Hmasked.
  cbn [bind].
  assert (Hmu : forall q, length q = length act ->
    (n0 <- col (mk_nd [length act; 4] (concat act)) 0 ;;
     n3 <- col (mk_nd [length act; 4] (concat act)) 3 ;;
     mu <- lift2_inplace fmul
             (map_nd (fun p => sum_nd n0 * p)%np (mk_nd [length q] q)) n3 ;;
     n <- col (mk_nd [length act; 4] (concat act)) 2 ;;
     Ok (n, mu))%result
    = Ok (mk_nd [length act] (column 2 act),
          mk_nd [length act]
            (map2 fmul (map (fun p => np_sum (column 0 act) * p)%np q)
               (column 3 act)))).
  { intros q Hq. rewrite !col_2d by (assumption || lia). cbn [bind].
    unfold map_nd, sum_nd; cbn [shape flat]. rewrite Hq.
    rewrite lift2_inplace_same_shape; cbn [shape flat bind]; try reflexivity.
    - apply wf_1d_eq. now rewrite length_map.
    - apply wf_1d_eq. apply column_length with (c := 4); [assumption|lia]. }
  unfold renormalized.
  destruct (_mask (b_base self)) as [m|].
  - rewrite Hget. cbn [bind]. unfold map_nd at 1; cbn [shape flat].
    unfold sum_nd at 1; cbn [flat].
    rewrite <- (length_map (fun p => (p / np_sum prob)%np) prob).
    apply Hmu. now rewrite length_map.
  - injection Hget as E1 E2. subst prob. now apply Hmu.
Qed.

Lemma ExtendedBinnedNLL_expected_weighted (self : BinnedCost F)
    (args cv : list F) (rows : list (list F)) :
  _data (b_base self) = mk_nd [length rows; 4] (concat rows) ->
  Forall (fun r => length r = 4) rows ->
  shape (_xe self) = [S (length rows)] ->
  current (b_base self) ->
  _normalize_model_output (apply (b_model self) (_xe self) args)
  = mk_nd [length cv] cv ->
  length cv = S (length rows) ->
  exists active mu,
    select (_mask (b_base self)) rows = Some active /\
    select (_mask (b_base self)) (diff1 cv) = Some mu /\
    length mu = length active /\
    ExtendedBinnedNLL_expected self args
    = Ok (mk_nd [length active] (column 2 active),
          mk_nd [length active] (map2 fmul mu (column 3 active))).
Proof.
  intros Hd Hr Hx Hc Hm Hl.
  destruct (active_2d _ _ _ Hd Hr Hc) as (act & Hn & Hmasked & Hact).
  assert (Hp : length (diff1 cv) = length rows)
    by (rewrite diff1_length; lia).
  destruct (select_prob _ _ _ _ _ Hn Hp) as (mu & Hsel & Hlen & Hget).
  exists act, mu. repeat split; try assumption.
  unfold ExtendedBinnedNLL_expected.
  rewrite Hm, np_diff_1d, (weighted_true _ _ _ _ Hd Hx), Hmasked.
  cbn [bind].
  assert (Hmu :
    (n3 <- col (mk_nd [length act; 4] (concat act)) 3 ;;
     mu' <- lift2_inplace fmul (mk_nd [length mu] mu) n3 ;;
     n <- col (mk_nd [length act; 4] (concat act)) 2 ;;
     Ok (n, mu'))%result
    = Ok (mk_nd [length act] (column 2 act),
          mk_nd [length act] (map2 fmul mu (column 3 act)))).
  { rewrite !col_2d by (assumption || lia). cbn [bind]. rewrite Hlen.
    rewrite lift2_inplace_same_shape; cbn [shape flat bind]; try reflexivity.
    - now apply wf_1d_eq.
    - apply wf_1d_eq. apply column_length with (c := 4); [assumption|lia]. }
  destruct (_mask (b_base self)) as [m|]; rewrite Hget; cbn [bind];
    exact Hmu.
Qed.

End BinnedCalls.

Section WeightedFacts.

Context {F : Type} {NP : NumPy F}.

Lemma pair_up_spec (N : nat) (l : list F) :
  length l = N * 2 ->
  concat (map pair_row (pair_up l)) = l /\ length (pair_up l) = N.
Proof.
  revert l; induction N as [|N IH]; intros l H.
  - destruct l; [now split|discriminate].
  - destruct l as [|v [|var l]]; try discriminate.
    simpl in H. destruct (IH l) as [E L]; [lia|].
    cbn [pair_up map concat pair_row fst snd length app].
    now rewrite E, L.
Qed.

Lemma pair_rows_length (ps : list (F * F)) :
  Forall (fun r => length r = 2) (map pair_row ps).
Proof. induction ps; simpl; constructor; auto. Qed.

Lemma stored_rows_length (ps : list (F * F)) :
  Forall (fun r => length r = 4) (map stored_row ps).
Proof. induction ps; simpl; constructor; auto. Qed.

Lemma column_pairs (k : nat) (f : F * F -> list F) (ps : list (F * F)) :
  column k (map f ps) = flat_map (fun p => firstn 1 (skipn k (f p))) ps.
Proof.
  unfold column. induction ps as [|p ps IH]; cbn [map flat_map];
    [reflexivity|].
  now rewrite IH.
Qed.

Lemma flat_map_singleton (A : Type) (f : A -> F) (l : list A) :
  flat_map (fun x => [f x]) l = map f l.
Proof. induction l as [|x l IH]; simpl; congruence. Qed.

Lemma chunks_concat_map (A : Type) (f : A -> list F) (c : nat) (l : list A) :
  (forall x, length (f x) = c) ->
  chunks (length l) c (concat (map f l)) = map f l.
Proof.
  intro H. rewrite <- (length_map f l). apply chunks_concat.
  apply Forall_forall. intros r Hr. apply in_map_iff in Hr.
  destruct Hr as (x & <- & _). apply H.
Qed.

Lemma last_axis_pairs (k : nat) (ps : list (F * F)) :
  k < 2 ->
  last_axis (mk_nd [length ps; 2] (concat (map pair_row ps))) k
  = Ok (mk_nd [length ps] (column k (map pair_row ps))).
Proof.
  intro Hk. unfold last_axis. cbn [shape rev app removelast size_of fold_right].
  apply Nat.ltb_lt in Hk. rewrite Hk, Nat.mul_1_r. cbn [flat].
  now rewrite chunks_concat_map.
Qed.

Lemma map2_same_source (A : Type) (f : F -> F -> F) (g h : A -> F)
    (l : list A) :
  map2 f (map g l) (map h l) = map (fun x => f (g x) (h x)) l.
Proof. induction l as [|x l IH]; simpl; congruence. Qed.

Lemma zip_rows_4 (A : Type) (f1 f2 f3 f4 : A -> F) (l : list A) :
  zip_rows (length l)
    [map (fun x => [f1 x]) l; map (fun x => [f2 x]) l;
     map (fun x => [f3 x]) l; map (fun x => [f4 x]) l]
  = flat_map (fun x => [f1 x; f2 x; f3 x; f4 x]) l.
Proof.
  induction l as [|x l IH]; [reflexivity|].
  cbn [length zip_rows map flat_map hd tl app]. now rewrite IH.
Qed.

Lemma rows_column (A : Type) (f : A -> F) (l : list A) :
  rows (mk_nd [length l; 1] (map f l)) = map (fun x => [f x]) l.
Proof.
  unfold rows. cbn [shape flat size_of fold_right].
  rewrite <- (length_map f l), chunks_singletons. apply map_map.
Qed.

Lemma column_stack_4 (A : Type) (f1 f2 f3 f4 : A -> F) (l : list A) :
  column_stack
    [mk_nd [length l] (map f1 l); mk_nd [length l] (map f2 l);
     mk_nd [length l] (map f3 l); mk_nd [length l] (map f4 l)]
  = Ok (mk_nd [length l; 4] (flat_map (fun x => [f1 x; f2 x; f3 x; f4 x]) l)).
Proof.
  unfold column_stack.
  cbn [map as_column shape flat forallb stackable shape_eqb nth fold_right
       Nat.add andb].
  rewrite Nat.eqb_refl. cbn [andb].
  rewrite !rows_column, zip_rows_4. reflexivity.
Qed.

(** What [_prepare_data] stores for pairs of weight sums: the pair, the
    effective count and the scale of each bin. *)
Lemma prepare_data_pairs (xe : ndarray F) (w : array_like F) (N : nat) :
  al_shape w = [N; 2] -> al_wf w -> shape xe = [S N] ->
  let ps := pair_up (map to_float (al_items w)) in
  length ps = N /\
  asfloat w = mk_nd [N; 2] (concat (map pair_row ps)) /\
  _prepare_data xe w = Ok (mk_nd [N; 4] (concat (map stored_row ps))).
Proof.
  intros Hs Hw Hx ps.
  assert (Hl : length (map to_float (al_items w)) = N * 2).
  { rewrite length_map. unfold al_wf in Hw. rewrite Hw, Hs.
    cbn [size_of fold_right]. lia. }
  destruct (pair_up_spec N _ Hl) as [E L]. fold ps in E, L.
  assert (Ha : asfloat w = mk_nd [N; 2] (concat (map pair_row ps))).
  { unfold asfloat. now rewrite Hs, E. }
  split; [exact L|]. split; [exact Ha|].
  unfold _prepare_data, _norm, atleast_1d. rewrite Ha.
  unfold ndim. cbn [shape length]. rewrite Hx.
  cbn [length Nat.eqb negb Nat.ltb Nat.leb Nat.add andb orb removelast
       any_plus1_differs last].
  rewrite Nat.add_1_r, Nat.eqb_refl. cbn [negb orb].
  rewrite <- L, !last_axis_pairs by lia. cbn [bind].
  rewrite !column_pairs. unfold pair_row. cbn [skipn firstn fst snd].
  rewrite !flat_map_singleton. unfold map_nd. cbn [shape flat].
  rewrite lift2_same_shape; cbn [shape flat];
    try reflexivity; try (apply wf_1d_eq; now rewrite ?length_map).
  rewrite map_map, map2_same_source. cbn [bind].
  rewrite lift2_same_shape; cbn [shape flat];
    try reflexivity; try (apply wf_1d_eq; now rewrite ?length_map).
  rewrite map2_same_source. cbn [bind].
  rewrite (column_stack_4 _ fst snd
             (fun p => (fst p * (fst p / add_tiny (snd p)))%np)
             (fun p => (fst p / add_tiny (snd p))%np) ps).
  now rewrite flat_map_concat_map.
Qed.

End WeightedFacts.

Section BinnedTheorems.

Context {F : Type} {NP : NumPy F}.

Lemma MaskedCost_init_eq (args : list string) (data : ndarray F) (verbose : Z) :
  MaskedCost_init args data verbose = mk_masked args verbose data None data.
Proof.
  unfold MaskedCost_init. now destruct (1 <? ndim data).
Qed.

Lemma MaskedCost_init_current (args : list string) (data : ndarray F)
    (verbose : Z) :
  current (MaskedCost_init args data verbose).
Proof. now rewrite MaskedCost_init_eq. Qed.

(** Where the guard is absorbed, the guarded terms are the plain ones. *)
Lemma log_poisson_term_unguarded (n mu : F) :
  absorbs n -> absorbs mu ->
  log_poisson_term n mu = unguarded_poisson_term n mu.
Proof.
  unfold absorbs, log_poisson_term, unguarded_poisson_term. now intros -> ->.
Qed.

Lemma bohm_zech_scale_unguarded (v var : F) :
  absorbs var -> bohm_zech_scale (v, var) = (v / var)%np.
Proof. unfold absorbs, bohm_zech_scale; cbn [fst snd]. now intros ->. Qed.

Lemma log_poisson_terms_unguarded (n mu : list F) :
  Forall absorbs n -> Forall absorbs mu ->
  map2 log_poisson_term n mu = map2 unguarded_poisson_term n mu.
Proof.
  intro Hn; revert mu; induction Hn as [|x n Hx _ IH]; intros mu Hmu;
    [reflexivity|].
  destruct Hmu as [|y mu Hy Hmu]; [reflexivity|].
  cbn [map2]. now rewrite IH, log_poisson_term_unguarded.
Qed.

Lemma extended_terms_unguarded (n mu : list F) :
  Forall absorbs n -> Forall absorbs mu ->
  map2 extended_term n mu = map2 unguarded_extended_term n mu.
Proof.
  intro Hn; revert mu; induction Hn as [|x n Hx _ IH]; intros mu Hmu;
    [reflexivity|].
  destruct Hmu as [|y mu Hy Hmu]; [reflexivity|].
  cbn [map2]. rewrite IH by assumption.
  unfold extended_term, unguarded_extended_term.
  now rewrite log_poisson_term_unguarded.
Qed.

(** C1 (as amended).  A call of BinnedNLL on plain counts [dv] with
    one-dimensional edges, whose model returns one CDF value per edge
    ([cv]): the bin probabilities are the first differences of the CDF;
    with a mask set, the active ones are selected and divided by their sum;
    the expected counts are the sum of the active counts times these
    probabilities; and the cost is twice the sum of
    [n * (log(n + 1e-323) - log(mu + 1e-323))] over the active bins, the
    [n log n] term included and both logarithms guarded. *)
Theorem BinnedNLL_cost (self : BinnedCost F) (args dv cv : list F) :
  _data (b_base self) = mk_nd [length dv] dv ->
  shape (_xe self) = [S (length dv)] ->
  current (b_base self) ->
  _normalize_model_output (apply (b_model self) (_xe self) args)
  = mk_nd [length cv] cv ->
  length cv = S (length dv) ->
  exists n prob,
    select (_mask (b_base self)) dv = Some n /\
    select (_mask (b_base self)) (diff1 cv) = Some prob /\
    let mu := map (fun p => np_sum n * p)%np
                (renormalized (_mask (b_base self)) prob) in
    BinnedNLL_expected self args
    = Ok (mk_nd [length n] n, mk_nd [length n] mu) /\
    BinnedNLL_call self args
    = Ok (f2 * np_sum (map2 log_poisson_term n mu))%np.
Proof.
  intros Hd Hx Hc Hm Hl.
  destruct (BinnedNLL_expected_unweighted self args dv cv Hd Hx Hc Hm Hl)
    as (n & prob & Hn & Hp & Hlen & He).
  exists n, prob. repeat split; try assumption.
  unfold BinnedNLL_call. rewrite He. cbn [bind].
  rewrite sum_log_poisson_part_1d; [reflexivity|].
  rewrite length_map. unfold renormalized.
  destruct (_mask (b_base self)); now rewrite ?length_map.
Qed.

(** C6 (as amended).  A call of ExtendedBinnedNLL on plain counts with
    one-dimensional edges: the expected counts are the first differences
    of the scaled CDF, selected by the mask and not rescaled, and the cost
    is twice the sum of
    [mu - n + n * (log(n + 1e-323) - log(mu + 1e-323))] over the active
    bins. *)
Theorem ExtendedBinnedNLL_cost (self : BinnedCost F) (args dv cv : list F) :
  _data (b_base self) = mk_nd [length dv] dv ->
  shape (_xe self) = [S (length dv)] ->
  current (b_base self) ->
  _normalize_model_output (apply (b_model self) (_xe self) args)
  = mk_nd [length cv] cv ->
  length cv = S (length dv) ->
  exists n mu,
    select (_mask (b_base self)) dv = Some n /\
    select (_mask (b_base self)) (diff1 cv) = Some mu /\
    ExtendedBinnedNLL_expected self args
    = Ok (mk_nd [length n] n, mk_nd [length n] mu) /\
    ExtendedBinnedNLL_call self args
    = Ok (f2 * np_sum (map2 extended_term n mu))%np.
Proof.
  intros Hd Hx Hc Hm Hl.
  destruct (ExtendedBinnedNLL_expected_unweighted self args dv cv
              Hd Hx Hc Hm Hl) as (n & mu & Hn & Hp & Hlen & He).
  exists n, mu. repeat split; try assumption.
  unfold ExtendedBinnedNLL_call. rewrite He. cbn [bind].
  now rewrite sum_log_poisson_1d.
Qed.

(** C9 (as amended).  A binned term whose data were stored from pairs of
    weight sum and squared-weight sum [w]: each bin holds the pair, the
    effective count [v * s] and the scale [s = v / (var + 1e-323)]; in a
    call of either likelihood the expected counts of the active bins are
    multiplied by their scales, and the effective counts stand for the
    counts in the summands. *)
Theorem bohm_zech_scaling (self : BinnedCost F) (w : array_like F) (N : nat)
    (args cv : list F) :
  al_shape w = [N; 2] -> al_wf w ->
  shape (_xe self) = [S N] ->
  _prepare_data (_xe self) w = Ok (_data (b_base self)) ->
  current (b_base self) ->
  _normalize_model_output (apply (b_model self) (_xe self) args)
  = mk_nd [length cv] cv ->
  length cv = S N ->
  let stored := map stored_row (pair_up (map to_float (al_items w))) in
  _data (b_base self) = mk_nd [N; 4] (concat stored) /\
  exists active diffs,
    select (_mask (b_base self)) stored = Some active /\
    select (_mask (b_base self)) (diff1 cv) = Some diffs /\
    let n := column 2 active in
    let scale := column 3 active in
    let mu := map2 fmul
                (map (fun p => np_sum (column 0 active) * p)%np
                   (renormalized (_mask (b_base self)) diffs)) scale in
    let mu_ext := map2 fmul diffs scale in
    BinnedNLL_expected self args
    = Ok (mk_nd [length active] n, mk_nd [length active] mu) /\
    BinnedNLL_call self args
    = Ok (f2 * np_sum (map2 log_poisson_term n mu))%np /\
    ExtendedBinnedNLL_expected self args
    = Ok (mk_nd [length active] n, mk_nd [length active] mu_ext) /\
    ExtendedBinnedNLL_call self args
    = Ok (f2 * np_sum (map2 extended_term n mu_ext))%np.
Proof.
  intros Hs Hw Hx Hp Hc Hm Hl stored.
  destruct (prepare_data_pairs (_xe self) w N Hs Hw Hx) as (L & _ & E).
  rewrite Hp in E. injection E as E.
  split; [exact E|].
  assert (Hlen : length stored = N) by (unfold stored; now rewrite length_map).
  assert (HF : Forall (fun r => length r = 4) stored)
    by apply stored_rows_length.
  rewrite <- Hlen in E, Hx, Hl.
  destruct (BinnedNLL_expected_weighted self args cv stored E HF Hx Hc Hm Hl)
    as (act & prob & Ha & Hpr & Hlp & He).
  destruct (ExtendedBinnedNLL_expected_weighted self args cv stored
              E HF Hx Hc Hm Hl) as (act' & mu' & Ha' & Hmu' & Hlm & He').
  rewrite Ha in Ha'. injection Ha' as <-.
  rewrite Hpr in Hmu'. injection Hmu' as <-.
  assert (Hact : Forall (fun r => length r = 4) act).
  { unfold select in Ha. destruct (_mask (b_base self)) as [m|].
    - eapply select_rows_Forall; eassumption.
    - now injection Ha as <-. }
  assert (L2 : length (column 2 act) = length act)
    by (apply column_length with (c := 4); [assumption|lia]).
  assert (L3 : length (column 3 act) = length act)
    by (apply column_length with (c := 4); [assumption|lia]).
  exists act, prob. repeat split; try assumption.
  - unfold BinnedNLL_call. rewrite He. cbn [bind].
    rewrite <- L2 at 1 2. rewrite sum_log_poisson_part_1d; [reflexivity|].
    rewrite map2_length; rewrite ?length_map; unfold renormalized;
      destruct (_mask (b_base self)); rewrite ?length_map; congruence.
  - unfold ExtendedBinnedNLL_call. rewrite He'. cbn [bind].
    rewrite <- L2 at 1 2. rewrite sum_log_poisson_1d; [reflexivity|].
    rewrite map2_length; congruence.
Qed.

Lemma stored_rows_front (ps : list (F * F)) :
  flat_map (firstn 2) (map stored_row ps) = concat (map pair_row ps).
Proof.
  induction ps as [|p ps IH]; [reflexivity|].
  cbn [map flat_map concat]. now rewrite IH.
Qed.

(** C10.  A binned term built from a weighted content array [w] of shape
    (N, 2): its [data] property returns [w] as floats, the two stored
    columns that were derived from it left out. *)
Theorem weighted_data_round_trip (w xe : array_like F) (model : model_t F)
    (verbose : Z) (N : nat) :
  al_shape w = [N; 2] -> al_wf w ->
  shape (_norm xe) = [S N] ->
  exists self,
    BinnedCost_init w xe model verbose = Ok self /\
    shape (_data (b_base self)) = [N; 4] /\
    BinnedCost_data self = Ok (asfloat w).
Proof.
  intros Hs Hw Hx.
  destruct (prepare_data_pairs (_norm xe) w N Hs Hw Hx) as (L & Ha & E).
  unfold BinnedCost_init. rewrite E. cbn [bind].
  eexists; split; [reflexivity|].
  rewrite MaskedCost_init_eq. cbn [b_base _data shape]. split; [reflexivity|].
  unfold BinnedCost_data, _weighted.
  cbn [b_base _xe _data].
  unfold ndim. rewrite Hx. cbn [shape length Nat.ltb Nat.leb].
  unfold cols_to_2. cbn [shape flat size_of fold_right Nat.min].
  rewrite Ha, <- L, !Nat.mul_1_r.
  rewrite chunks_concat_map by reflexivity.
  do 2 f_equal. apply stored_rows_front.
Qed.

End BinnedTheorems.

Section SumFacts.

Context {F : Type} {NP : NumPy F}.







Lemma collect_app (acc : list (Cost F)) (x : operand F) :
  collect acc x = acc ++ collect [] x.
Proof.
  destruct x as [c|v]; cbn [collect].
  - now destruct c.
  - destruct (nonzero v); [reflexivity|now rewrite app_nil_r].
Qed.






Lemma py_max_nonempty (l : list Z) : l <> [] -> exists v, py_max l = Ok v.
Proof. destruct l; [congruence|]. intros _. simpl. eauto. Qed.

Lemma CostSum_init_items (xs : list (operand F)) :
  fold_left collect xs [] <> [] ->
  is_sum_of (CostSum_init xs) (fold_left collect xs []).
Proof.
  intro H. unfold CostSum_init, is_sum_of.
  destruct (merge_signatures (fold_left collect xs [])) as [args maps].
  destruct (py_max_nonempty (map verbose (fold_left collect xs []))) as [v E].
  - intro E. apply map_eq_nil in E. contradiction.
  - rewrite E. cbn [bind]. eauto.
Qed.

Lemma CostSum_init_inv (xs : list (operand F)) (s : Cost F) :
  CostSum_init xs = Ok s ->
  items s = fold_left collect xs [] /\ items s <> [].
Proof.
  unfold CostSum_init.
  destruct (merge_signatures (fold_left collect xs [])) as [args maps].
  destruct (fold_left collect xs []) as [|c its] eqn:E; [discriminate|].
  cbn [map py_max bind]. intro H. injection H as <-. cbn [items].
  split; congruence.
Qed.

(** C3 (as amended).  For a cost term [c] with at least one constituent
    (as every constructed term has): adding a [Constant] object appends it
    to the constituents whatever its value, zero included; adding a plain
    number [v], on either side, adds a [Constant] for it when [v != 0] and
    nothing when [v == 0]; the constituents "adding nothing" gives are
    those of [c]. *)
Theorem CostSum_add_constituents (c : Cost F) (v : number) :
  flattened c <> [] ->
  is_sum_of (CostSum_init [Term c]) (flattened c) /\
  is_sum_of (__add__ c (Term (Constant v))) (flattened c ++ [Constant v]) /\
  is_sum_of (__add__ c (Number v))
    (if nonzero v then flattened c ++ [Constant v] else flattened c) /\
  is_sum_of (__radd__ c (Number v))
    (if nonzero v then Constant v :: flattened c else flattened c).
Proof.
  intro H. unfold __add__, __radd__. repeat split.
  - apply (CostSum_init_items [Term c]). exact H.
  - apply (CostSum_init_items [Term c; Term (Constant v)]).
    cbn [fold_left]. fold (flattened c). cbn [collect].
    now destruct (flattened c).
  - replace (if nonzero v then flattened c ++ [Constant v] else flattened c)
      with (fold_left collect [Term c; Number v] [])
      by (cbn [fold_left]; fold (flattened c); reflexivity).
    apply CostSum_init_items. cbn [fold_left]. fold (flattened c).
    cbn [collect]. destruct (nonzero v); [now destruct (flattened c)|exact H].
  - replace (if nonzero v then Constant v :: flattened c else flattened c)
      with (fold_left collect [Number v; Term c] []).
    + apply CostSum_init_items. cbn [fold_left].
      rewrite (collect_app (collect [] (Number v)) (Term c)).
      fold (flattened c). cbn [collect].
      destruct (nonzero v); cbn [app]; [discriminate|exact H].
    + cbn [fold_left].
      rewrite (collect_app (collect [] (Number v)) (Term c)).
      fold (flattened c). cbn [collect].
      destruct (nonzero v); reflexivity.
Qed.

Lemma is_sum_of_len (r : result (Cost F)) (its : list (Cost F)) :
  is_sum_of r its -> (s <- r ;; __len__ s)%result = Ok (length its).
Proof. intros (a & v & m & ->). reflexivity. Qed.


End SumFacts.

Section MaskFacts.

Context {F : Type} {NP : NumPy F}.








(** A mask that numpy rejects has already been stored when the exception
    is raised: [mask] then returns it, while the active view is still the
    one of the mask before. *)
Lemma set_mask_rejected (self : MaskedCost F) (mask : mask_t) (e : exn) :
  getitem (_data self) mask = Raise e ->
  set_mask self (Some mask) = (with_mask self (Some mask), Some e) /\
  _masked (fst (set_mask self (Some mask))) = _masked self.
Proof.
  intro H. unfold set_mask, _update_masked.
  cbn [with_mask _mask _data]. rewrite H. now split.
Qed.


End MaskFacts.

Section ValidationFacts.

Context {F : Type} {NP : NumPy F}.









End ValidationFacts.

Section ValidationTheorems.

Context {F : Type} {NP : NumPy F}.




End ValidationTheorems.

Section TransposeFacts.

Context {F : Type} {NP : NumPy F}.

Lemma flat_map_flat_map (A B C : Type) (f : B -> list C) (g : A -> list B)
    (l : list A) :
  flat_map f (flat_map g l) = flat_map (fun x => flat_map f (g x)) l.
Proof.
  induction l as [|x l IH]; simpl; [reflexivity|].
  now rewrite flat_map_app, IH.
Qed.

Lemma flat_map_map (A B C : Type) (f : B -> list C) (g : A -> B)
    (l : list A) :
  flat_map f (map g l) = flat_map (fun x => f (g x)) l.
Proof. induction l as [|x l IH]; simpl; congruence. Qed.

Lemma flat_map_ext_in (A B : Type) (f g : A -> list B) (l : list A) :
  (forall x, In x l -> f x = g x) -> flat_map f l = flat_map g l.
Proof.
  induction l as [|x l IH]; intro H; simpl; [reflexivity|].
  rewrite (H x), IH; auto with datatypes.
Qed.

Lemma seq_from (a k : nat) : seq a k = map (fun i => a + i) (seq 0 k).
Proof.
  revert a; induction k as [|k IH]; intro a; [reflexivity|].
  cbn [seq map]. rewrite Nat.add_0_r. f_equal.
  rewrite <- (seq_shift k 0), map_map, IH. apply map_ext. intro i. lia.
Qed.

Lemma seq_blocks (c k : nat) :
  seq 0 (c * k)
  = flat_map (fun j => map (fun i => j * k + i) (seq 0 k)) (seq 0 c).
Proof.
  induction c as [|c IH]; [reflexivity|].
  rewrite seq_S, flat_map_app. cbn [flat_map Nat.add]. rewrite app_nil_r, <- IH.
  replace (S c * k) with (c * k + k) by lia.
  rewrite seq_app. f_equal. apply seq_from.
Qed.

(** Entry [i * c + j] of a table of rows of length [c] is entry [j] of row
    [i]. *)
Lemma column_by_index (c j : nat) (rows : list (list F)) :
  Forall (fun r => length r = c) rows -> j < c ->
  flat_map (fun i => firstn 1 (skipn (i * c + j) (concat rows)))
    (seq 0 (length rows))
  = column j rows.
Proof.
  intros H Hj. unfold column.
  induction H as [|r rows Hr _ IH]; [reflexivity|].
  cbn [length seq flat_map concat]. f_equal.
  - cbn [Nat.mul Nat.add]. rewrite skipn_app.
    replace (j - length r) with 0 by lia. cbn [skipn].
    rewrite firstn_app, length_skipn.
    replace (1 - (length r - j)) with 0 by lia.
    now rewrite firstn_O, app_nil_r.
  - rewrite <- seq_shift, flat_map_map, <- IH.
    apply flat_map_ext. intro i.
    rewrite skipn_app. replace (S i * c + j - length r) with (i * c + j) by lia.
    rewrite skipn_all2 by lia. reflexivity.
Qed.

Lemma T_2d (c : nat) (rows : list (list F)) :
  Forall (fun r => length r = c) rows ->
  T (mk_nd [length rows; c] (concat rows))
  = mk_nd [c; length rows] (flat_map (fun j => column j rows) (seq 0 c)).
Proof.
  intro H. unfold T. cbn [shape flat rev app size_of fold_right]. f_equal.
  replace (length rows * (c * 1)) with (c * length rows) by lia.
  rewrite seq_blocks, flat_map_flat_map.
  apply flat_map_ext_in. intros j Hj. apply in_seq in Hj.
  rewrite flat_map_map, <- (column_by_index c j rows H) by lia.
  apply flat_map_ext_in. intros i Hi. apply in_seq in Hi.
  cbn [unravel ravel rev app size_of fold_right].
  rewrite !Nat.mul_1_r, !Nat.div_1_r, Nat.add_0_r.
  replace ((j * length rows + i) mod length rows) with i.
  - replace ((j * length rows + i) / length rows) with j; [reflexivity|].
    apply Nat.div_unique with (r := i); lia.
  - apply Nat.mod_unique with (q := j); lia.
Qed.

(** Leading groups of a concatenation of lists of one length *)
Lemma firstn_concat (k j : nat) (cols : list (list F)) :
  Forall (fun r => length r = k) cols ->
  firstn (j * k) (concat cols) = concat (firstn j cols).
Proof.
  intro H; revert j; induction H as [|r cols Hr _ IH]; intro j.
  - now rewrite firstn_nil, firstn_nil.
  - destruct j as [|j]; [reflexivity|].
    cbn [concat firstn]. replace (S j * k) with (length r + j * k) by lia.
    now rewrite firstn_app_2, IH.
Qed.

Lemma skipn_concat (k j : nat) (cols : list (list F)) :
  Forall (fun r => length r = k) cols ->
  skipn (j * k) (concat cols) = concat (skipn j cols).
Proof.
  intro H; revert j; induction H as [|r cols Hr _ IH]; intro j.
  - now rewrite !skipn_nil.
  - destruct j as [|j]; [reflexivity|].
    cbn [concat skipn]. replace (S j * k) with (length r + j * k) by lia.
    rewrite skipn_app, skipn_all2 by lia.
    replace (length r + j * k - length r) with (j * k) by lia.
    now rewrite IH.
Qed.

Lemma columns_length (c d : nat) (rows : list (list F)) (js : list nat) :
  Forall (fun r => length r = c) rows ->
  (forall j, In j js -> j < c) ->
  Forall (fun col => length col = length rows)
    (map (fun j => column j rows) js).
Proof.
  intros H Hjs. apply Forall_forall. intros col Hc.
  apply in_map_iff in Hc. destruct Hc as (j & <- & Hj).
  apply column_length with (c := c); auto.
Qed.

End TransposeFacts.

Section LeastSquaresFacts.

Context {F : Type} {NP : NumPy F}.

Lemma z_squared_all_eq (y ye ym : list F) :
  map2 fmul (map2 fdiv (map2 fsub y ym) ye) (map2 fdiv (map2 fsub y ym) ye)
  = z_squared_all y ye ym.
Proof.
  revert ye ym; induction y as [|a y IH]; intros [|e ye] [|m ym];
    cbn [map2 z_squared_all]; try reflexivity.
  now rewrite IH.
Qed.

Lemma z_squared_all_length (y ye ym : list F) :
  length ye = length y -> length ym = length y ->
  length (z_squared_all y ye ym) = length y.
Proof.
  revert ye ym; induction y as [|a y IH]; intros [|e ye] [|m ym] H1 H2;
    simpl in *; try discriminate; [reflexivity|].
  f_equal. apply IH; lia.
Qed.

Lemma z_squared_1d (y ye ym : list F) :
  length ye = length y -> length ym = length y ->
  _z_squared (mk_nd [length y] y) (mk_nd [length y] ye) (mk_nd [length y] ym)
  = Ok (mk_nd [length y] (z_squared_all y ye ym)).
Proof.
  intros H1 H2. unfold _z_squared.
  rewrite lift2_same_shape; cbn [shape flat bind]; try reflexivity;
    try (apply wf_1d_eq; congruence).
  rewrite lift2_same_shape; cbn [shape flat bind]; try reflexivity;
    try (apply wf_1d_eq; rewrite ?map2_length; congruence).
  rewrite lift2_same_shape; cbn [shape flat bind]; try reflexivity;
    try (apply wf_1d_eq; rewrite !map2_length; rewrite ?map2_length;
         congruence).
  now rewrite z_squared_all_eq.
Qed.

Lemma firstn_app_exact (A : Type) (n : nat) (l1 l2 : list A) :
  length l1 = n -> firstn n (l1 ++ l2) = l1.
Proof.
  intros <-. now rewrite firstn_app, Nat.sub_diag, firstn_O, firstn_all,
    app_nil_r.
Qed.

(** What [LeastSquares._call] hands to the model and to the cost function,
    for a view of [_ndim + 2] columns *)
Lemma LeastSquares_parts (d : nat) (rows : list (list F)) :
  Forall (fun r => length r = d + 2) rows ->
  let masked := mk_nd [length rows; d + 2] (concat rows) in
  (if d =? 1 then item (T masked) 0 else upto (T masked) d)
  = Ok (explanatory d rows) /\
  (rest <- from (T masked) d ;; iter rest)%result
  = Ok [mk_nd [length rows] (column d rows);
        mk_nd [length rows] (column (d + 1) rows)].
Proof.
  intros H masked. unfold masked. rewrite (T_2d (d + 2) rows H).
  set (col := fun j => column j rows).
  assert (Hc : forall js, (forall j, In j js -> j < d + 2) ->
            Forall (fun c => length c = length rows) (map col js)).
  { intros js Hjs. now apply columns_length with (c := d + 2) (d := d). }
  assert (Hall : Forall (fun c => length c = length rows)
                   (map col (seq 0 (d + 2)))).
  { apply Hc. intros j Hj. apply in_seq in Hj. lia. }
  rewrite flat_map_concat_map. split.
  - unfold explanatory. destruct (d =? 1) eqn:Ed.
    + apply Nat.eqb_eq in Ed. subst d.
      unfold item. cbn [shape flat Nat.ltb Nat.leb Nat.add size_of fold_right
                        Nat.mul skipn seq map concat].
      rewrite Nat.mul_1_r, firstn_app_exact; [reflexivity|].
      unfold col. apply column_length with (c := 3); [assumption|lia].
    + unfold upto. cbn [shape flat size_of fold_right].
      replace (Nat.min d (d + 2)) with d by lia.
      rewrite Nat.mul_1_r, (firstn_concat (length rows) d _ Hall).
      rewrite firstn_map, seq_app, firstn_app_exact by apply length_seq.
      now rewrite flat_map_concat_map.
  - unfold from. cbn [shape flat size_of fold_right bind].
    replace (Nat.min d (d + 2)) with d by lia.
    rewrite Nat.mul_1_r, (skipn_concat (length rows) d _ Hall).
    rewrite skipn_map, skipn_seq.
    replace (d + 2 - d) with 2 by lia.
    unfold iter. cbn [shape flat size_of fold_right Nat.add seq map].
    rewrite Nat.mul_1_r.
    change 2 with (length [col d; col (S d)]) at 1.
    rewrite chunks_concat.
    + cbn [map]. unfold col. now rewrite Nat.add_1_r.
    + repeat constructor; unfold col;
        apply column_length with (c := d + 2); auto; lia.
Qed.

(** X1 (the part of C7 that holds).  The cost of a least-squares term
    whose view holds [_ndim + 2] columns:
    the explanatory variables, the observations and their errors.  With
    the loss "linear" it is the sum of the squared residuals
    [((y - ym) / yerror)^2], with "soft_l1" the sum of
    [2 * (sqrt(1 + z) - 1)] over these squares [z]. *)
Theorem LeastSquares_cost (self : LeastSquares F) (args ym : list F)
    (rows : list (list F)) :
  _masked (ls_base self)
  = mk_nd [length rows; _ndim self + 2] (concat rows) ->
  Forall (fun r => length r = _ndim self + 2) rows ->
  _normalize_model_output
    (apply (ls_model self) (explanatory (_ndim self) rows) args)
  = mk_nd [length rows] ym ->
  length ym = length rows ->
  loss_cost (_loss self) = Ok (_cost self) ->
  let z := z_squared_all (column (_ndim self) rows)
             (column (_ndim self + 1) rows) ym in
  (_loss self = LossName "linear" ->
   LeastSquares_call self args = Ok (np_sum z)) /\
  (_loss self = LossName "soft_l1" ->
   LeastSquares_call self args = Ok (np_sum (map soft_l1 z))).
Proof.
  intros Hm Hr Hy Hl Hc z.
  destruct (LeastSquares_parts (_ndim self) rows Hr) as [Hx Hrest].
  assert (L1 : length (column (_ndim self) rows) = length rows)
    by (apply column_length with (c := _ndim self + 2); auto; lia).
  assert (L2 : length (column (_ndim self + 1) rows) = length rows)
    by (apply column_length with (c := _ndim self + 2); auto; lia).
  assert (Hz : _z_squared (mk_nd [length rows] (column (_ndim self) rows))
                 (mk_nd [length rows] (column (_ndim self + 1) rows))
                 (mk_nd [length rows] ym)
               = Ok (mk_nd [length rows] z)).
  { rewrite <- L1 at 1 2 3 4. apply z_squared_1d; congruence. }
  assert (Hcall : LeastSquares_call self args
                  = _cost self (mk_nd [length rows] (column (_ndim self) rows))
                      (mk_nd [length rows] (column (_ndim self + 1) rows))
                      (mk_nd [length rows] ym)).
  { unfold LeastSquares_call. rewrite Hm, Hx. cbn [bind].
    pose proof Hrest as Hrest'.
    destruct (from (T (mk_nd [length rows; _ndim self + 2] (concat rows)))
                (_ndim self)) as [rest|e]; [|discriminate].
    cbn [bind] in Hrest' |- *. rewrite Hrest'. now rewrite Hy. }
  split; intro El; rewrite El in Hc; cbn in Hc; injection Hc as Hc;
    rewrite Hcall, <- Hc.
  - unfold _sum_z_squared. now rewrite Hz.
  - unfold _sum_z_squared_soft_l1. now rewrite Hz.
Qed.

End LeastSquaresFacts.

(** * The statements on concrete terms, at binary64 *)

Local Open Scope float_scope.

(** C1, on three bins of which a boolean mask keeps two: the kept
    probabilities 0.25 and 0.5 are divided by their sum, and the eight
    active events are spread over them. *)
Lemma BinnedNLL_cost_masked :
  @BinnedNLL_expected float np64 masked_counts_term [1]
  = Ok (mk_nd [2%nat] [3; 5],
        mk_nd [2%nat] [8 * (0.25 / 0.75); 8 * (0.5 / 0.75)]) /\
  @BinnedNLL_call float np64 masked_counts_term [1]
  = Ok (2 * ((0 + 3 * (log_ref 3 - log_ref (8 * (0.25 / 0.75))))
             + 5 * (log_ref 5 - log_ref (8 * (0.5 / 0.75))))).
Proof.
  destruct (@BinnedNLL_cost float np64 masked_counts_term [1] [3; 2; 5]
              [0; 0.25; 0.5; 1] eq_refl eq_refl eq_refl eq_refl eq_refl)
    as (n & prob & Hn & Hp & He & Hc).
  injection Hn as <-. injection Hp as <-.
  split; [exact He|exact Hc].
Defined.

(** C1 as stated fails on an empty bin.  Counts [0, 2] on the edges
    [0, 1, 2] with a uniform model: the expected counts are [1, 1]; the
    code returns a finite cost, the guarded logarithm making the empty bin
    contribute [0 * (log(1e-323) - log(1))]; the formula without the guard
    is [0 * (log(0) - log(1)) + ...], which is not a number. *)
Lemma BinnedNLL_unguarded_counterexample :
  @BinnedNLL_expected float np64 empty_bin_term [1]
  = Ok (mk_nd [2%nat] [0; 2], mk_nd [2%nat] [1; 1]) /\
  (exists cost,
     @BinnedNLL_call float np64 empty_bin_term [1] = Ok cost /\
     is_finite cost = true) /\
  (2 * seq_sum (map2 (@unguarded_poisson_term float np64) [0; 2] [1; 1]))
  = nan /\
  @BinnedNLL_call float np64 empty_bin_term [1]
  <> Ok (2 * seq_sum (map2 (@unguarded_poisson_term float np64) [0; 2] [1; 1])).
Proof.
  split; [vm_compute; reflexivity|]. split.
  - eexists. split; vm_compute; reflexivity.
  - split; [vm_compute; reflexivity|]. vm_compute. discriminate.
Qed.

(** C6, on the same three bins under the mask: the differences of the
    scaled CDF at the kept bins are the expected counts as they are. *)
Lemma ExtendedBinnedNLL_cost_masked :
  @ExtendedBinnedNLL_expected float np64 masked_counts_term [1]
  = Ok (mk_nd [2%nat] [3; 5], mk_nd [2%nat] [0.25; 0.5]) /\
  @ExtendedBinnedNLL_call float np64 masked_counts_term [1]
  = Ok (2 * ((0 + (0.25 - 3 + 3 * (log_ref 3 - log_ref 0.25)))
             + (0.5 - 5 + 5 * (log_ref 5 - log_ref 0.5)))).
Proof.
  destruct (@ExtendedBinnedNLL_cost float np64 masked_counts_term [1]
              [3; 2; 5] [0; 0.25; 0.5; 1]
              eq_refl eq_refl eq_refl eq_refl eq_refl)
    as (n & mu & Hn & Hp & He & Hc).
  injection Hn as <-. injection Hp as <-.
  split; [exact He|exact Hc].
Defined.

(** C6 as stated fails on an empty bin, for the same reason as C1. *)
Lemma ExtendedBinnedNLL_unguarded_counterexample :
  @ExtendedBinnedNLL_expected float np64 empty_bin_extended [1]
  = Ok (mk_nd [2%nat] [0; 2], mk_nd [2%nat] [1; 1]) /\
  (exists cost,
     @ExtendedBinnedNLL_call float np64 empty_bin_extended [1] = Ok cost /\
     is_finite cost = true) /\
  (2 * seq_sum (map2 (@unguarded_extended_term float np64) [0; 2] [1; 1]))
  = nan /\
  @ExtendedBinnedNLL_call float np64 empty_bin_extended [1]
  <> Ok (2 * seq_sum (map2 (@unguarded_extended_term float np64)
                        [0; 2] [1; 1])).
Proof.
  split; [vm_compute; reflexivity|]. split.
  - eexists. split; vm_compute; reflexivity.
  - split; [vm_compute; reflexivity|]. vm_compute. discriminate.
Qed.

(** C9, on the weighted histogram of the specification: the scales are
    [10/4 = 2.5] and [20/9], the effective counts [10 * 2.5] and
    [20 * (20/9)], and the expected counts [30 * 0.5] are multiplied by
    the scales. *)
Lemma bohm_zech_scaling_example :
  _data (b_base weighted_term)
  = mk_nd [2%nat; 4%nat] [10; 4; 10 * 2.5; 2.5; 20; 9; 20 * (20 / 9); 20 / 9]
  /\ 10 / 4 = 2.5 /\
  @BinnedNLL_expected float np64 weighted_term [1]
  = Ok (mk_nd [2%nat] [10 * 2.5; 20 * (20 / 9)],
        mk_nd [2%nat] [30 * 0.5 * 2.5; 30 * 0.5 * (20 / 9)]) /\
  @ExtendedBinnedNLL_expected float np64 weighted_term [1]
  = Ok (mk_nd [2%nat] [10 * 2.5; 20 * (20 / 9)],
        mk_nd [2%nat] [0.5 * 2.5; 0.5 * (20 / 9)]).
Proof.
  destruct (@bohm_zech_scaling float np64 weighted_term weighted_10_4_20_9 2
              [1] [0; 0.5; 1]
              eq_refl eq_refl eq_refl eq_refl eq_refl eq_refl eq_refl)
    as (Hd & act & diffs & Ha & Hp & He & _ & He' & _).
  injection Ha as <-. injection Hp as <-.
  split; [exact Hd|]. split; [reflexivity|].
  split; [exact He|exact He'].
Defined.

(** C9 as stated fails on an empty bin: for the pair (0, 0) the stored
    scale is [0 / (0 + 1e-323) = 0], while [0 / 0] is not a number. *)
Lemma empty_bin_scale_counterexample :
  _data (b_base empty_bin_weighted)
  = mk_nd [2%nat; 4%nat] [0; 0; 0; 0; 20; 9; 20 * (20 / 9); 20 / 9] /\
  col (_data (b_base empty_bin_weighted)) 3 = Ok (mk_nd [2%nat] [0; 20 / 9]) /\
  map (fun p => fst p / snd p) [(0, 0); (20, 9)] = [nan; 20 / 9] /\
  col (_data (b_base empty_bin_weighted)) 3
  <> Ok (mk_nd [2%nat] (map (fun p => fst p / snd p) [(0, 0); (20, 9)])).
Proof.
  repeat split; try (vm_compute; reflexivity).
  vm_compute. discriminate.
Qed.

(** C10, on the weighted histogram of the specification *)
Lemma weighted_data_round_trip_example :
  exists self,
    @BinnedCost_init float np64 weighted_10_4_20_9 edges_0_1_2 uniform_cdf 0
    = Ok self /\
    shape (_data (b_base self)) = [2%nat; 4%nat] /\
    BinnedCost_data self = Ok (mk_nd [2%nat; 2%nat] [10; 4; 20; 9]).
Proof.
  exact (@weighted_data_round_trip float np64 weighted_10_4_20_9 edges_0_1_2
           uniform_cdf 0 2 eq_refl eq_refl eq_refl).
Defined.

(** Ordinary counts and expected counts absorb the guard, so that on them
    the guarded summands are the plain ones; zero does not. *)
Lemma absorbs_examples :
  Forall (@absorbs float np64) [3; 5; 2.5; 8 * (0.25 / 0.75); 0x1p-1020] /\
  ~ @absorbs float np64 0.
Proof.
  split; [repeat constructor|]. unfold absorbs. vm_compute. discriminate.
Qed.

(** C3, on a Gaussian constraint: a [Constant] object is appended even
    when its value is zero, a plain zero is dropped on either side, and a
    plain 1.5 becomes a [Constant]. *)
Lemma CostSum_add_constituents_example :
  is_sum_of (@CostSum_init float [Term penalty]) [penalty] /\
  is_sum_of (__add__ penalty (Term (Constant (Int 0))))
    [penalty; Constant (Int 0)] /\
  is_sum_of (__add__ penalty (Number (Int 0))) [penalty] /\
  is_sum_of (__radd__ penalty (Number (Int 0))) [penalty].
Proof.
  exact (@CostSum_add_constituents float penalty (Int 0)
           (fun H => @eq_ind (list (Cost float)) [penalty]
                       (fun l => match l with [] => False | _ => True end)
                       I [] H)).
Defined.

(** C3 as stated fails: adding the object [Constant(0)] to a term gives a
    sum of two constituents, adding nothing a sum of one. *)
Lemma Constant_zero_object_counterexample :
  (s <- __add__ penalty (Term (Constant (Int 0))) ;; __len__ s)%result
  = Ok 2%nat /\
  (s <- @CostSum_init float [Term penalty] ;; __len__ s)%result = Ok 1%nat /\
  (s <- __add__ penalty (Number (Int 0)) ;; __len__ s)%result = Ok 1%nat.
Proof. repeat split. Qed.



(** A boolean mask of the wrong length is rejected, and is nevertheless
    what [mask] returns afterwards, beside the view of all three bins. *)
Lemma set_mask_rejected_example :
  let after := BinnedCost_set_mask three_counts_term
                 (Some (BoolMask [true; false])) in
  snd after = Some IndexError /\
  _mask (b_base (fst after)) = Some (BoolMask [true; false]) /\
  _masked (b_base (fst after)) = mk_nd [3%nat] [3; 2; 5] /\
  ~ current (b_base (fst after)).
Proof.
  repeat split. vm_compute. discriminate.
Qed.

(** C7 fails on the code for a model of three explanatory variables.
    [x] of shape (3, 2) gives [_ndim = 2], the number of axes of [x], and
    a data table of five columns; the call then unpacks the three columns
    from the third on into [y, yerror] and raises. *)
Lemma LeastSquares_three_variables :
  exists c,
    fit_three_variables = Ok c /\
    _ndim c = 2%nat /\
    _data (ls_base c)
    = mk_nd [2%nat; 5%nat] [1; 3; 5; 1; 1; 2; 4; 6; 2; 1] /\
    @LeastSquares_call float c [1]
    = Raise (ValueError "too many values to unpack (expected 2)").
Proof. eexists. repeat split. Qed.

(** The same slip with one variable given as an array of shape (1, 2):
    [_ndim = 2] again, and only the column of errors is left to unpack. *)
Lemma LeastSquares_one_row :
  exists c,
    fit_one_row = Ok c /\
    _ndim c = 2%nat /\
    _data (ls_base c) = mk_nd [2%nat; 3%nat] [1; 1; 1; 2; 2; 1] /\
    @LeastSquares_call float c [1]
    = Raise (ValueError "not enough values to unpack (expected 2, got 1)").
Proof. eexists. repeat split. Qed.

(** The least-squares cost on three points and the line [2 + x]: the
    residuals are 0, 0 and 1. *)
Lemma LeastSquares_cost_example :
  @LeastSquares_call float (fit_term (fit_of "linear")) [2; 1]
  = Ok (0 + 0 * 0 + 0 * 0 + 1 * 1) /\
  @LeastSquares_call float (fit_term (fit_of "soft_l1")) [2; 1]
  = Ok (0 + 2 * (PrimFloat.sqrt (1 + 0) - 1)
        + 2 * (PrimFloat.sqrt (1 + 0) - 1)
        + 2 * (PrimFloat.sqrt (1 + 1) - 1)).
Proof.
  assert (HF : forall c : LeastSquares float, _ndim c = 1%nat ->
            Forall (fun r : list float => length r = (_ndim c + 2)%nat)
              [[1; 3; 1]; [2; 4; 1]; [3; 6; 1]]).
  { intros c ->. repeat constructor. }
  destruct (@LeastSquares_cost float np64 (fit_term (fit_of "linear"))
              [2; 1] [3; 4; 5] [[1; 3; 1]; [2; 4; 1]; [3; 6; 1]]
              eq_refl (HF (fit_term (fit_of "linear")) eq_refl)
              eq_refl eq_refl eq_refl) as [H1 _].
  destruct (@LeastSquares_cost float np64 (fit_term (fit_of "soft_l1"))
              [2; 1] [3; 4; 5] [[1; 3; 1]; [2; 4; 1]; [3; 6; 1]]
              eq_refl (HF (fit_term (fit_of "soft_l1")) eq_refl)
              eq_refl eq_refl eq_refl) as [_ H2].
  split; [exact (H1 eq_refl)|exact (H2 eq_refl)].
Defined.

(** An unbinned likelihood with a density that vanishes at one point: the
    cost is finite. *)
Lemma UnbinnedNLL_zero_density :
  existsb (fun x => x =? 0)
    (flat (_normalize_model_output
             (apply (mk_model ["x"; "a"]%string
                       (fun x _ => Array (mk_nd [2%nat] [0; 0.5])))
                (mk_nd [2%nat] [0; 1]) [1]))) = true /\
  is_finite
    (@UnbinnedNLL_call float np64
       (@UnbinnedCost_init float np64 (ints [2%nat] [0; 1]%Z)
          (mk_model ["x"; "a"]%string
             (fun x _ => Array (mk_nd [2%nat] [0; 0.5]))) 0 false) [1])
  = true.
Proof. split; vm_compute; reflexivity. Qed.

(** * The kernels over the real numbers *)

Local Close Scope float_scope.

(** X2 (the last part of C7).  For a squared residual [t = z^2] the
    soft-l1 loss agrees with the
    linear loss [t] to first order: it lies between [t - t^2 / 4] and
    [t]. *)
Lemma soft_l1_first_order (z : R) :
  (z * z - (z * z) * (z * z) / 4 <= @soft_l1 R exact (z * z) <= z * z)%R.
Proof.
  unfold soft_l1. cbn [f1 f2 fadd fsub fmul np_sqrt exact].
  set (t := (z * z)%R).
  assert (Ht : (0 <= t)%R) by (unfold t; nra).
  assert (Hu : (sqrt (1 + t) * sqrt (1 + t) = 1 + t)%R)
    by (apply sqrt_sqrt; lra).
  assert (Hp : (0 <= sqrt (1 + t))%R) by apply sqrt_pos.
  set (u := sqrt (1 + t)) in *.
  assert (H1 : (1 <= u)%R) by nra.
  split; nra.
Qed.

Lemma Rsum_scaled (s : R) (l : list R) :
  Rsum (map (fun p => p / s)%R l) = (Rsum l / s)%R.
Proof.
  induction l as [|p l IH]; simpl; [unfold Rdiv; ring|].
  rewrite IH. unfold Rdiv. ring.
Qed.


(** * Sums of cost terms: construction *)

Section SumConstruction.

Context {F : Type}.

Lemma CostSum_init_flattened (xs : list (operand F)) (s : Cost F) :
  CostSum_init xs = Ok s -> flattened s = fold_left collect xs [].
Proof.
  unfold CostSum_init.
  destruct (merge_signatures (fold_left collect xs [])) as [args maps].
  destruct (py_max (map verbose (fold_left collect xs []))) as [v|e];
    cbn [bind]; [|discriminate].
  intro H. injection H as <-. reflexivity.
Qed.

Lemma CostSum_init_same_items (xs ys : list (operand F)) :
  fold_left collect xs [] = fold_left collect ys [] ->
  CostSum_init xs = CostSum_init ys.
Proof. unfold CostSum_init. now intros ->. Qed.

(** X4.  Addition of cost terms is associative: [(a + b) + c] and
    [a + (b + c)] are the same sum, with the same constituents in the same
    order, the same signature and the same verbosity. *)
Theorem CostSum_add_assoc (a b c s1 s2 : Cost F) :
  __add__ a (Term b) = Ok s1 ->
  __add__ b (Term c) = Ok s2 ->
  __add__ s1 (Term c) = __add__ a (Term s2).
Proof.
  intros H1 H2. unfold __add__ in *.
  apply CostSum_init_flattened in H1, H2.
  apply CostSum_init_same_items.
  cbn [fold_left] in *.
  rewrite (collect_app (collect [] (Term a)) (Term b)) in H1.
  rewrite (collect_app (collect [] (Term b)) (Term c)) in H2.
  rewrite (collect_app (collect [] (Term s1)) (Term c)).
  rewrite (collect_app (collect [] (Term a)) (Term s2)).
  fold (flattened s1). fold (flattened s2). fold (flattened a) in *.
  fold (flattened b) in *. fold (flattened c) in *.
  rewrite H1, H2. now rewrite app_assoc.
Qed.

Lemma collect_flat (acc : list (Cost F)) (x : operand F) :
  Forall (fun i => is_sum i = false) acc -> flat_operand x ->
  Forall (fun i => is_sum i = false) (collect acc x).
Proof.
  intros Hacc Hx. destruct x as [c|v]; cbn [collect].
  - destruct c;
      try solve [apply Forall_app; split; [exact Hacc|repeat constructor]].
    apply Forall_app. split; [exact Hacc|exact Hx].
  - destruct (nonzero v); [|exact Hacc].
    apply Forall_app. split; [exact Hacc|repeat constructor].
Qed.

Lemma fold_collect_flat (xs : list (operand F)) (acc : list (Cost F)) :
  Forall (fun i => is_sum i = false) acc -> Forall flat_operand xs ->
  Forall (fun i => is_sum i = false) (fold_left collect xs acc).
Proof.
  revert acc. induction xs as [|x xs IH]; intros acc Hacc Hxs; [exact Hacc|].
  cbn [fold_left]. inversion Hxs; subst.
  apply IH; [now apply collect_flat|assumption].
Qed.

(** X5.  A constructed sum is a [CostSum] with at least one constituent,
    and when the sums among its operands are flat it is flat itself: no
    constituent is a [CostSum]. *)
Theorem CostSum_flat (xs : list (operand F)) (s : Cost F) :
  CostSum_init xs = Ok s ->
  is_sum s = true /\ items s <> [] /\
  (Forall flat_operand xs -> flat_sum s).
Proof.
  intro H. destruct (CostSum_init_inv xs s H) as [Hi Hne].
  split; [|split; [exact Hne|]].
  - unfold CostSum_init in H.
    destruct (merge_signatures (fold_left collect xs [])) as [args maps].
    destruct (py_max (map verbose (fold_left collect xs []))) as [v|e];
      cbn [bind] in H; [|discriminate].
    now injection H as <-.
  - intro Hxs. unfold flat_sum. rewrite Hi.
    now apply fold_collect_flat.
Qed.

End SumConstruction.
(** * What assignments keep *)

Section ShapeInvariants.

Context {F : Type} {NP : NumPy F}.

Lemma broadcast_to_shape (a r : ndarray F) (ts : list nat) :
  broadcast_to a ts = Some r -> shape r = ts.
Proof.
  unfold broadcast_to.
  destruct (length (shape a) <=? length ts); [|discriminate].
  destruct (stretch (pad (length ts) (shape a)) ts (flat a));
    cbn [option_map]; [|discriminate].
  now intros [= <-].
Qed.

Lemma assign_all_shape (a v r : ndarray F) :
  assign_all a v = Ok r -> shape r = shape a.
Proof.
  unfold assign_all.
  destruct (broadcast_to _ (shape a)) as [r'|] eqn:E; [|discriminate].
  intros [= <-]. exact (broadcast_to_shape _ _ _ E).
Qed.

Lemma update_masked_data (self : MaskedCost F) :
  _data (fst (_update_masked self)) = _data self /\
  _mask (fst (_update_masked self)) = _mask self.
Proof.
  unfold _update_masked. destruct (_mask self) as [m|] eqn:Em.
  - destruct (getitem (_data self) m); cbn [fst with_masked _data _mask]; auto.
  - cbn [fst with_masked _data _mask]; auto.
Qed.

Lemma set_mask_data (self : MaskedCost F) (mask : option mask_t) :
  _data (fst (set_mask self mask)) = _data self.
Proof. unfold set_mask. now rewrite (proj1 (update_masked_data _)). Qed.

Lemma set_data_shape (self : MaskedCost F) (value : ndarray F) :
  shape (_data (fst (set_data self value))) = shape (_data self).
Proof.
  unfold set_data.
  destruct (assign_all (_data self) value) as [d|e] eqn:E; [|reflexivity].
  rewrite (proj1 (update_masked_data _)). cbn [with_data _data].
  exact (assign_all_shape _ _ _ E).
Qed.

Lemma assign_cols_shape (a v r : ndarray F) (off width : nat) (sq : bool) :
  assign_cols a off width sq v = Ok r -> shape r = shape a.
Proof.
  unfold assign_cols.
  destruct (shape a) as [|d1 [|d2 ds]]; try discriminate.
  destruct (sq && negb (off <? d2)); [discriminate|].
  destruct (assign_all _ v); cbn [bind]; [|discriminate].
  now intros [= <-].
Qed.

Lemma ls_store_shape (self : LeastSquares F) (d : result (ndarray F)) :
  (forall r, d = Ok r -> shape r = shape (_data (ls_base self))) ->
  shape (_data (ls_base (fst (ls_store self d))))
  = shape (_data (ls_base self)).
Proof.
  intro H. unfold ls_store. destruct d as [r|e]; [|reflexivity].
  pose proof (set_data_shape (with_data (ls_base self) r) r) as Hs.
  destruct (set_data (with_data (ls_base self) r) r) as [b e'].
  cbn [fst ls_with_base ls_base] in *. rewrite Hs. cbn [with_data _data].
  now apply H.
Qed.

(** X6.  No assignment changes the shape of what a term stores: the mask,
    data, x, y and yerror setters leave the shape of the stored data as it
    is, whether they return or raise; on a binned term they leave the
    edges and the weightedness as they are; and the [xe] setter keeps the
    shape of the edges and touches nothing else. *)
Theorem stored_shapes_fixed :
  (forall (t : masked_term F) (m : mutation F),
     shape (_data (base (fst (run t m)))) = shape (_data (base t))) /\
  (forall (c : BinnedCost F) (m : mutation F),
     exists c', fst (run (Binned c) m) = Binned c' /\
                _xe c' = _xe c /\ _weighted c' = _weighted c) /\
  (forall (c : BinnedCost F) (value : array_like F),
     let c' := fst (BinnedCost_set_xe c value) in
     shape (_xe c') = shape (_xe c) /\ b_base c' = b_base c /\
     _weighted c' = _weighted c).
Proof.
  assert (Hb : forall (c : BinnedCost F) (m : mutation F),
             exists c', fst (run (Binned c) m) = Binned c' /\
                        _xe c' = _xe c /\
                        shape (_data (b_base c')) = shape (_data (b_base c))).
  { intros c m. destruct m as [mask|v|v|v|v]; cbn [run lift_outcome fst];
      try (exists c; now auto).
    - unfold BinnedCost_set_mask.
      pose proof (set_mask_data (b_base c) mask) as Hd.
      destruct (set_mask (b_base c) mask) as [b e]. cbn [fst] in *.
      eexists; split; [reflexivity|]. cbn [_xe b_base]. now rewrite Hd.
    - unfold BinnedCost_set_data.
      destruct (_prepare_data (_xe c) v) as [d|e]; [|exists c; now auto].
      pose proof (set_data_shape (b_base c) d) as Hd.
      destruct (set_data (b_base c) d) as [b e]. cbn [fst] in *.
      eexists; split; [reflexivity|]. cbn [_xe b_base]. now rewrite Hd. }
  split; [|split].
  - intros [c|c] m.
    + destruct (Hb c m) as (c' & -> & _ & Hs). exact Hs.
    + destruct m as [mask|v|v|v|v]; cbn [run lift_outcome fst base].
      * unfold LeastSquares_set_mask.
        pose proof (set_mask_data (ls_base c) mask) as Hd.
        destruct (set_mask (ls_base c) mask) as [b e]. cbn [fst] in *.
        cbn [ls_with_base ls_base]. now rewrite Hd.
      * unfold LeastSquares_set_data.
        pose proof (set_data_shape (ls_base c) (asfloat v)) as Hd.
        destruct (set_data (ls_base c) (asfloat v)) as [b e]. cbn [fst] in *.
        cbn [ls_with_base ls_base]. exact Hd.
      * unfold LeastSquares_set_x. apply ls_store_shape.
        intros r. destruct (_ndim c =? 1); apply assign_cols_shape.
      * unfold LeastSquares_set_y. apply ls_store_shape.
        intros r. apply assign_cols_shape.
      * unfold LeastSquares_set_yerror. apply ls_store_shape.
        intros r. apply assign_cols_shape.
  - intros c m. destruct (Hb c m) as (c' & E & Hx & Hs).
    exists c'. split; [exact E|]. split; [exact Hx|].
    unfold _weighted, ndim. now rewrite Hx, Hs.
  - intros c value. unfold BinnedCost_set_xe.
    destruct (assign_all (_xe c) (asfloat value)) as [xe|e] eqn:E;
      cbn [fst]; [|now auto].
    cbn [_xe b_base]. pose proof (assign_all_shape _ _ _ E) as Hs.
    split; [exact Hs|]. split; [reflexivity|].
    unfold _weighted, ndim. cbn [_xe b_base]. now rewrite Hs.
Qed.

Lemma getitem_shape_total (a b r : ndarray F) (m : mask_t) :
  shape b = shape a -> getitem a m = Ok r ->
  exists r', getitem b m = Ok r'.
Proof.
  unfold getitem. intros ->. destruct (shape a) as [|d ds]; [discriminate|].
  destruct (select_rows m d (chunks d (size_of ds) (flat a))) as [sel|] eqn:E;
    [|discriminate].
  intros _.
  assert (Hl : length (chunks d (size_of ds) (flat b))
               = length (chunks d (size_of ds) (flat a)))
    by now rewrite !chunks_length.
  destruct (select_rows_transfer m d _ _ Hl E) as (sel' & -> & _).
  eauto.
Qed.

Lemma update_masked_cases (self : MaskedCost F) :
  (exists a, _update_masked self = (with_masked self a, None) /\
             match _mask self with
             | None => a = _data self
             | Some m => getitem (_data self) m = Ok a
             end) \/
  (exists e, _update_masked self = (self, Some e)).
Proof.
  unfold _update_masked. destruct (_mask self) as [m|].
  - destruct (getitem (_data self) m) as [a|e]; [left|right]; eauto.
  - left; eauto.
Qed.

(** X7.  On a term whose view is current, assigning a mask and assigning
    data commute: if the mask and then the data are accepted, so are the
    data and then the mask, and both orders leave the same term. *)
Theorem mask_data_commute (self : MaskedCost F) (mask : option mask_t)
    (value : ndarray F) :
  current self ->
  returned (set_mask self mask) ->
  returned (set_data (fst (set_mask self mask)) value) ->
  returned (set_data self value) /\
  set_mask (fst (set_data self value)) mask
  = set_data (fst (set_mask self mask)) value.
Proof.
  intros Hc H1 H2. unfold returned in *.
  unfold set_mask in *.
  destruct (update_masked_cases (with_mask self mask))
    as [(a0 & E0 & _)|(e & E0)]; rewrite E0 in *; [|discriminate H1].
  clear H1. cbn [fst] in H2.
  unfold set_data in *. cbn [with_masked with_mask _data] in H2.
  destruct (assign_all (_data self) value) as [d|e] eqn:Ed;
    [|discriminate H2].
  pose proof (assign_all_shape _ _ _ Ed) as Hs.
  destruct (update_masked_cases
              (with_data (with_masked (with_mask self mask) a0) d))
    as [(a & E1 & Ha)|(e & E1)]; rewrite E1 in *; [|discriminate H2].
  clear H2. cbn [with_data with_masked with_mask _mask _data] in Ha.
  destruct (update_masked_cases (with_data self d))
    as [(a' & E2 & Ha')|(e & E2)]; rewrite E2.
  - cbn [fst snd with_masked with_mask with_data _data].
    split; [reflexivity|].
    rewrite Ed, E1. unfold _update_masked.
    cbn [with_data with_masked with_mask _mask _data].
    destruct mask as [m|]; [rewrite Ha|subst a]; reflexivity.
  - exfalso. unfold _update_masked in E2. cbn [with_data _mask _data] in E2.
    unfold current in Hc. destruct (_mask self) as [m0|]; [|discriminate E2].
    destruct (getitem_shape_total (_data self) d _ m0 Hs Hc) as [r' Er].
    rewrite Er in E2. discriminate E2.
Qed.

End ShapeInvariants.
(** * The kernels over the real numbers: bounds and totals *)

Section RealKernels.

Local Open Scope R_scope.




Lemma Rsum_mult_l (s : R) (l : list R) :
  Rsum (map (fun p => s * p) l) = s * Rsum l.
Proof.
  induction l as [|p l IH]; simpl; [ring|]. rewrite IH. ring.
Qed.

(** The first differences telescope. *)
Lemma Rsum_diff1 (x : R) (l : list R) :
  Rsum (@diff1 R exact (x :: l)) = last (x :: l) 0 - x.
Proof.
  revert x. induction l as [|y l IH]; intro x.
  - simpl. ring.
  - change (@diff1 R exact (x :: y :: l))
      with ((y - x) :: @diff1 R exact (y :: l)).
    cbn [Rsum fold_right]. fold (Rsum (@diff1 R exact (y :: l))).
    rewrite IH. change (last (x :: y :: l) 0) with (last (y :: l) 0). ring.
Qed.





Lemma mk_nd_wf_map (f : R -> R) (a : ndarray R) :
  wf a -> wf (mk_nd (shape a) (map f (flat a))).
Proof. unfold wf. cbn [flat shape]. now rewrite length_map. Qed.




End RealKernels.
(** * Totals of the expected counts, over the real numbers *)

Section RealTotals.

Local Open Scope R_scope.

Lemma Rsum_diff1_ends (cv : list R) :
  cv <> [] -> Rsum (@diff1 R exact cv) = last cv 0 - hd 0 cv.
Proof.
  destruct cv as [|x l]; [congruence|]. intros _. apply Rsum_diff1.
Qed.

(** X10.  Over the real numbers the expected counts of a [BinnedNLL] call
    on plain counts add up to the observed total times the range of the
    CDF, [cdf(xe[-1]) - cdf(xe[0])], when no mask is set, and to the total
    of the active counts when a mask is set (and the selected probabilities
    do not sum to zero): with a normalised CDF the sum of [mu] is the
    constant that line 632 leaves out. *)
Theorem BinnedNLL_expected_total (self : BinnedCost R) (args dv cv : list R) :
  _data (b_base self) = mk_nd [length dv] dv ->
  shape (_xe self) = [S (length dv)] ->
  current (b_base self) ->
  _normalize_model_output (apply (b_model self) (_xe self) args)
  = mk_nd [length cv] cv ->
  length cv = S (length dv) ->
  exists n prob mu,
    select (_mask (b_base self)) dv = Some n /\
    select (_mask (b_base self)) (@diff1 R exact cv) = Some prob /\
    @BinnedNLL_expected R exact self args
    = Ok (mk_nd [length n] n, mk_nd [length n] mu) /\
    (_mask (b_base self) = None ->
     Rsum mu = Rsum dv * (last cv 0 - hd 0 cv)) /\
    (_mask (b_base self) <> None -> Rsum prob <> 0 -> Rsum mu = Rsum n).
Proof.
  intros Hd Hx Hc Hm Hl.
  destruct (@BinnedNLL_expected_unweighted R exact self args dv cv
              Hd Hx Hc Hm Hl) as (n & prob & Hn & Hp & Hlen & He).
  exists n, prob. eexists. split; [exact Hn|]. split; [exact Hp|].
  split; [exact He|]. cbn [np_sum fmul exact].
  rewrite Rsum_mult_l. split.
  - intro Hmask. rewrite Hmask in *. cbn [select renormalized] in *.
    injection Hn as <-. injection Hp as <-.
    rewrite Rsum_diff1_ends; [reflexivity|].
    intros ->. discriminate Hl.
  - intros Hmask Hs. destruct (_mask (b_base self)) as [m|]; [|congruence].
    cbn [renormalized np_sum fdiv exact]. rewrite Rsum_scaled. now field.
Qed.

(** X11.  Over the real numbers the extended unbinned cost of a density
    [(ns, f)] is the cost [UnbinnedNLL] gives to [f] on the same data plus
    twice the integral [ns]. *)
Theorem ExtendedUnbinnedNLL_split (e : ExtendedUnbinnedCost R)
    (u : UnbinnedCost R) (args : list R) :
  _masked (e_base e) = _masked (u_base u) ->
  e_log e = _log u ->
  snd (e_model e (_masked (e_base e)) args)
  = apply (u_model u) (_masked (u_base u)) args ->
  @ExtendedUnbinnedNLL_call R exact e args
  = 2 * fst (e_model e (_masked (e_base e)) args)
    + @UnbinnedNLL_call R exact u args.
Proof.
  intros Hd Hlog Hf.
  unfold ExtendedUnbinnedNLL_call, UnbinnedNLL_call.
  rewrite <- Hf, <- Hlog.
  destruct (e_model e (_masked (e_base e)) args) as [ns x]. cbn [fst snd].
  destruct (e_log e); cbn [f2 fsub fmul fneg exact]; ring.
Qed.

End RealTotals.
(** * NormalConstraint *)

Section ConstraintFacts.

Context {F : Type} {NP : NumPy F} {LA : LinAlg F}.









End ConstraintFacts.

Section ConstraintReal.

Context {LA : LinAlg R}.

Local Open Scope R_scope.




End ConstraintReal.
(** * Calling a sum *)

Section CallFacts.

Variables (log : float -> float) (sum : list float -> float).
Context {LA : LinAlg float}.

Local Open Scope py_scope.

Lemma add_calls_float (call : Cost float -> list float -> py number)
    (args : list float) (its : list (Cost float)) (ms : list (list nat))
    (r : float) (n : number) :
  add_calls call args its ms r = Return n -> exists r', n = Float r'.
Proof.
  revert ms r. induction its as [|c its IH]; intros ms r.
  - cbn [add_calls]. intros [= <-]. eauto.
  - destruct ms as [|m ms]; cbn [add_calls]; [intros [= <-]; eauto|].
    destruct (pick args m) as [ca|e]; cbn [py_bind]; [|discriminate].
    destruct (call c ca) as [v|e]; cbn [py_bind]; [|discriminate].
    destruct (py_add r v) as [r'|e]; cbn [py_bind]; [|discriminate].
    apply IH.
Qed.

Lemma add_calls_app (call : Cost float -> list float -> py number)
    (args : list float) (its its2 : list (Cost float))
    (ms ms2 : list (list nat)) (r : float) :
  length ms = length its ->
  add_calls call args (its ++ its2) (ms ++ ms2) r
  = match add_calls call args its ms r with
    | Return (Float r') => add_calls call args its2 ms2 r'
    | Return (Int z) => Return (Int z)
    | Throw e => Throw e
    end.
Proof.
  revert ms r. induction its as [|c its IH]; intros [|m ms] r Hl;
    try discriminate; [reflexivity|].
  cbn [app add_calls].
  destruct (pick args m) as [ca|e]; cbn [py_bind]; [|reflexivity].
  destruct (call c ca) as [v|e]; cbn [py_bind]; [|reflexivity].
  destruct (py_add r v) as [r'|e]; cbn [py_bind]; [|reflexivity].
  apply IH. now injection Hl.
Qed.

(** X15.  A sum without constituents costs [0.0].  Appending a term to a
    sum adds the value of the term, called on the arguments its map
    selects, to the total of the sum; what the sum raises, an index of the
    map outside the arguments, what the term raises and an overflowing
    integer constant are raised in this order. *)
Theorem CostSum_call_append (a : list string) (v : Z)
    (its : list (Cost float)) (ms : list (list nat)) (c : Cost float)
    (m : list nat) (args : list float) :
  length ms = length its ->
  _call log sum (CostSum a v [] []) args = Return (Float 0) /\
  match _call log sum (CostSum a v its ms) args with
  | Throw e =>
      _call log sum (CostSum a v (its ++ [c]) (ms ++ [m])) args = Throw e
  | Return n =>
      exists r,
        n = Float r /\
        _call log sum (CostSum a v (its ++ [c]) (ms ++ [m])) args
        = (c_args <- pick args m ;;
           x <- _call log sum c c_args ;;
           total <- py_add r x ;;
           Return (Float total))
  end.
Proof.
  intro Hl. split; [reflexivity|].
  cbn [_call]. rewrite (add_calls_app _ _ _ _ _ _ _ Hl).
  destruct (add_calls (_call log sum) args its ms 0) as [n|e] eqn:E;
    [|reflexivity].
  destruct (add_calls_float _ _ _ _ _ _ E) as [r ->].
  exists r. split; [reflexivity|].
  cbn [add_calls].
  destruct (pick args m) as [ca|e]; cbn [py_bind]; [|reflexivity].
  destruct (_call log sum c ca) as [x|e]; cbn [py_bind]; [|reflexivity].
  destruct (py_add r x) as [t|e]; cbn [py_bind]; reflexivity.
Qed.

End CallFacts.
(** * LeastSquares: construction and the properties [x], [y], [yerror] *)

Section LeastSquaresConstruction.

Context {F : Type} {NP : NumPy F}.

Lemma stretch_one (N : nat) (c : F) :
  stretch [1] [N] [c] = Some (repeat c N).
Proof.
  cbn [stretch]. destruct (Nat.eq_dec N 1) as [->|E]; [reflexivity|].
  assert (E' : (1 =? N) = false) by (apply Nat.eqb_neq; congruence).
  rewrite E'. cbn [Nat.eqb option_map].
  induction N as [|N IH]; [reflexivity|].
  clear. f_equal. induction (S N) as [|n IH]; simpl; [reflexivity|].
  now rewrite IH.
Qed.

Lemma broadcast_scalar (N : nat) (c : F) :
  broadcast_to (mk_nd [] [c]) [N] = Some (mk_nd [N] (repeat c N)).
Proof.
  unfold broadcast_to. cbn [shape length Nat.leb pad Nat.sub repeat app flat].
  now rewrite stretch_one.
Qed.

Lemma broadcast_shape_1d_scalar (N : nat) :
  broadcast_shape [N] [] = Some [N] /\ broadcast_shape [N] [1] = Some [N].
Proof.
  unfold broadcast_shape.
  cbn [length Nat.max pad Nat.sub repeat app common].
  destruct (N =? 1) eqn:E; [|now cbn].
  apply Nat.eqb_eq in E. subst. now cbn.
Qed.

Lemma broadcast_to_1d (N : nat) (l : list F) :
  length l = N -> broadcast_to (mk_nd [N] l) [N] = Some (mk_nd [N] l).
Proof.
  intro H. exact (@broadcast_to_same _ (mk_nd [N] l) (wf_1d_eq _ H)).
Qed.

Lemma rows3_length (a b c : list F) :
  length b = length a -> length c = length a ->
  length (rows3 a b c) = length a /\
  Forall (fun r => length r = 3) (rows3 a b c).
Proof.
  revert b c. induction a as [|x a IH]; intros [|y b] [|z c] Hb Hc;
    try discriminate; [now split|].
  cbn [rows3 length]. destruct (IH b c) as [Hl Hf];
    [now injection Hb|now injection Hc|].
  split; [now rewrite Hl|]. constructor; [reflexivity|exact Hf].
Qed.

Lemma rows3_columns (a b c : list F) :
  length b = length a -> length c = length a ->
  column 0 (rows3 a b c) = a /\ column 1 (rows3 a b c) = b /\
  column 2 (rows3 a b c) = c.
Proof.
  revert b c. induction a as [|x a IH]; intros [|y b] [|z c] Hb Hc;
    try discriminate; [now repeat split|].
  destruct (IH b c) as (H0 & H1 & H2); [now injection Hb|now injection Hc|].
  cbn [rows3].
  change (column 0 ([x; y; z] :: rows3 a b c))
    with ([x] ++ column 0 (rows3 a b c)).
  change (column 1 ([x; y; z] :: rows3 a b c))
    with ([y] ++ column 1 (rows3 a b c)).
  change (column 2 ([x; y; z] :: rows3 a b c))
    with ([z] ++ column 2 (rows3 a b c)).
  now rewrite H0, H1, H2.
Qed.

Lemma zip_rows_3 (a b c : list F) :
  length b = length a -> length c = length a ->
  zip_rows (length a)
    [map (fun x => [x]) a; map (fun x => [x]) b; map (fun x => [x]) c]
  = concat (rows3 a b c).
Proof.
  revert b c. induction a as [|x a IH]; intros [|y b] [|z c] Hb Hc;
    try discriminate; [reflexivity|].
  cbn [length zip_rows map flat_map hd tl app rows3 concat].
  rewrite IH; [reflexivity|now injection Hb|now injection Hc].
Qed.

Lemma column_stack_3 (a b c : list F) :
  length b = length a -> length c = length a ->
  column_stack [mk_nd [length a] a; mk_nd [length a] b; mk_nd [length a] c]
  = Ok (mk_nd [length a; 3] (concat (rows3 a b c))).
Proof.
  intros Hb Hc. unfold column_stack.
  cbn [map as_column shape forallb stackable shape_eqb andb
       fold_right nth Nat.add flat].
  rewrite Nat.eqb_refl. cbn [andb].
  unfold rows. cbn [shape size_of fold_right Nat.mul flat].
  change (1 + 0) with 1.
  rewrite (chunks_singletons a).
  replace (chunks (length a) 1 b) with (map (fun x => [x]) b)
    by (rewrite <- Hb; symmetry; apply chunks_singletons).
  replace (chunks (length a) 1 c) with (map (fun x => [x]) c)
    by (rewrite <- Hc; symmetry; apply chunks_singletons).
  now rewrite zip_rows_3.
Qed.

Lemma spread_length (N : nat) (v : array_like F) :
  al_shape v = [N] \/ al_shape v = [] -> al_wf v ->
  length (spread N v) = N.
Proof.
  unfold spread, al_wf. intros [E|E] H; rewrite E in *.
  - rewrite length_map, H. simpl. lia.
  - apply repeat_length.
Qed.

Lemma broadcast_spread (N : nat) (v : array_like F) :
  al_shape v = [N] \/ al_shape v = [] -> al_wf v ->
  broadcast_to (asfloat v) [N] = Some (mk_nd [N] (spread N v)).
Proof.
  intros Hs Hw. pose proof (spread_length N v Hs Hw) as Hl.
  unfold al_wf in Hw. destruct Hs as [E|E].
  - assert (Ea : asfloat v = mk_nd [N] (spread N v))
      by (unfold asfloat, spread; now rewrite E).
    rewrite Ea. now apply broadcast_to_1d.
  - unfold asfloat, spread. rewrite E in *.
    destruct (map to_float (al_items v)) as [|c [|c' l]] eqn:Em;
      try (apply (f_equal (@length F)) in Em; rewrite length_map, Hw in Em;
           discriminate).
    cbn [hd]. apply broadcast_scalar.
Qed.

(** What the constructor stores for one explanatory variable *)
Lemma LeastSquares_init_1d (x y yerror : array_like F) (model : model_t F)
    (loss : loss_t F) (cost : cost_fn) (verbose : Z) (N : nat) :
  al_shape x = [N] -> al_wf x ->
  al_shape y = [N] -> al_wf y ->
  al_shape yerror = [N] \/ al_shape yerror = [] -> al_wf yerror ->
  loss_cost loss = Ok cost ->
  let rows := rows3 (map to_float (al_items x)) (map to_float (al_items y))
                (spread N yerror) in
  let data := mk_nd [N; 3] (concat rows) in
  LeastSquares_init x y yerror model loss verbose
  = Ok (mk_ls (mk_masked (tl (describe model)) verbose data None data)
          loss cost model 1).
Proof.
  intros Hx Hwx Hy Hwy He Hwe Hloss rows data.
  set (xs := map to_float (al_items x)) in *.
  set (ys := map to_float (al_items y)) in *.
  assert (Hlx : length xs = N).
  { unfold xs. rewrite length_map. unfold al_wf in Hwx. rewrite Hwx, Hx.
    simpl. lia. }
  assert (Hly : length ys = N).
  { unfold ys. rewrite length_map. unfold al_wf in Hwy. rewrite Hwy, Hy.
    simpl. lia. }
  pose proof (spread_length N yerror He Hwe) as Hle.
  assert (Ex : _norm x = mk_nd [N] xs).
  { unfold _norm, asfloat, atleast_1d. cbn [shape]. now rewrite Hx. }
  assert (Ey : _norm y = mk_nd [N] ys).
  { unfold _norm, asfloat, atleast_1d. cbn [shape]. now rewrite Hy. }
  unfold LeastSquares_init. rewrite Hloss, Ex, Ey. cbn [bind].
  cbn [atleast_2d shape flat iter chunks size_of fold_right map].
  rewrite Nat.mul_1_r.
  rewrite <- Hlx at 2. rewrite firstn_all. cbn [bind app].
  unfold broadcast_arrays.
  assert (Hc : common_all (map shape [mk_nd [N] xs; mk_nd [N] ys;
                                       asfloat yerror]) = Some [N]).
  { cbn [map shape common_all asfloat].
    destruct (broadcast_shape_1d_scalar N) as [H0 H1].
    destruct He as [E|E]; rewrite E.
    - rewrite H0. now rewrite !broadcast_shape_same.
    - change (broadcast_shape [] []) with (Some (@nil nat)).
      cbv beta iota. rewrite H0. now rewrite broadcast_shape_same. }
  rewrite Hc. cbn [map].
  rewrite (broadcast_to_1d N xs Hlx), (broadcast_to_1d N ys Hly).
  rewrite (broadcast_spread N yerror He Hwe).
  cbn [all_some bind].
  rewrite <- Hlx. rewrite column_stack_3 by (now rewrite ?Hly, ?Hle, Hlx).
  cbn [bind]. rewrite MaskedCost_init_eq. cbn [ndim shape length].
  rewrite Hlx. reflexivity.
Qed.

(** X16.  A least-squares term built from [N] points with one explanatory
    variable ([yerror] one number or one value per point) has [_ndim = 1],
    no mask and [ndata = N]; the properties [x], [y] and [yerror] return
    the arguments as floats, a scalar [yerror] repeated for every point. *)
Theorem LeastSquares_arguments_round_trip (x y yerror : array_like F)
    (model : model_t F) (loss : loss_t F) (cost : cost_fn) (verbose : Z)
    (N : nat) :
  al_shape x = [N] -> al_wf x ->
  al_shape y = [N] -> al_wf y ->
  al_shape yerror = [N] \/ al_shape yerror = [] -> al_wf yerror ->
  loss_cost loss = Ok cost ->
  exists self,
    LeastSquares_init x y yerror model loss verbose = Ok self /\
    _ndim self = 1 /\
    _mask (ls_base self) = None /\
    MaskedCost_ndata (ls_base self) = Ok N /\
    LeastSquares_x self = Ok (asfloat x) /\
    LeastSquares_y self = Ok (asfloat y) /\
    LeastSquares_yerror self = Ok (mk_nd [N] (spread N yerror)).
Proof.
  intros Hx Hwx Hy Hwy He Hwe Hloss.
  rewrite (LeastSquares_init_1d x y yerror model loss cost verbose N
             Hx Hwx Hy Hwy He Hwe Hloss).
  eexists. split; [reflexivity|].
  set (xs := map to_float (al_items x)).
  set (ys := map to_float (al_items y)).
  assert (Hlx : length xs = N).
  { unfold xs. rewrite length_map. unfold al_wf in Hwx. rewrite Hwx, Hx.
    simpl. lia. }
  assert (Hly : length ys = N).
  { unfold ys. rewrite length_map. unfold al_wf in Hwy. rewrite Hwy, Hy.
    simpl. lia. }
  pose proof (spread_length N yerror He Hwe) as Hle.
  destruct (rows3_length xs ys (spread N yerror)) as [Hl Hf];
    [now rewrite Hly, Hlx|now rewrite Hle, Hlx|].
  destruct (rows3_columns xs ys (spread N yerror)) as (H0 & H1 & H2);
    [now rewrite Hly, Hlx|now rewrite Hle, Hlx|].
  assert (HN : N = length (rows3 xs ys (spread N yerror)))
    by now rewrite Hl.
  cbn [_ndim ls_base _mask]. split; [reflexivity|]. split; [reflexivity|].
  split; [reflexivity|].
  unfold LeastSquares_x, LeastSquares_y, LeastSquares_yerror.
  cbn [_ndim ls_base _data Nat.eqb Nat.add].
  rewrite HN at 1 3 5.
  rewrite !(col_2d Hf) by lia.
  rewrite H0, H1, H2, <- HN.
  unfold asfloat. now rewrite Hx, Hy.
Qed.

(** X17.  Such a term, constructed with the linear loss and called with a
    model that returns one value per point, costs
    [sum(((y - ym) / yerror)^2)] over the points. *)
Theorem LeastSquares_fit_1d (x y yerror : array_like F) (model : model_t F)
    (verbose : Z) (N : nat) (args ym : list F) :
  al_shape x = [N] -> al_wf x ->
  al_shape y = [N] -> al_wf y ->
  al_shape yerror = [N] \/ al_shape yerror = [] -> al_wf yerror ->
  _normalize_model_output (apply model (asfloat x) args) = mk_nd [N] ym ->
  length ym = N ->
  exists self,
    LeastSquares_init x y yerror model (LossName "linear") verbose = Ok self /\
    LeastSquares_call self args
    = Ok (np_sum (z_squared_all (map to_float (al_items y))
                    (spread N yerror) ym)).
Proof.
  intros Hx Hwx Hy Hwy He Hwe Hm Hlm.
  rewrite (LeastSquares_init_1d x y yerror model (LossName "linear")
             _sum_z_squared verbose N Hx Hwx Hy Hwy He Hwe eq_refl).
  eexists. split; [reflexivity|].
  set (xs := map to_float (al_items x)) in *.
  set (ys := map to_float (al_items y)) in *.
  assert (Hlx : length xs = N).
  { unfold xs. rewrite length_map. unfold al_wf in Hwx. rewrite Hwx, Hx.
    simpl. lia. }
  assert (Hly : length ys = N).
  { unfold ys. rewrite length_map. unfold al_wf in Hwy. rewrite Hwy, Hy.
    simpl. lia. }
  pose proof (spread_length N yerror He Hwe) as Hle.
  destruct (rows3_length xs ys (spread N yerror)) as [Hl Hf];
    [now rewrite Hly, Hlx|now rewrite Hle, Hlx|].
  destruct (rows3_columns xs ys (spread N yerror)) as (H0 & H1 & H2);
    [now rewrite Hly, Hlx|now rewrite Hle, Hlx|].
  assert (HN : N = length (rows3 xs ys (spread N yerror)))
    by now rewrite Hl.
  set (rows := rows3 xs ys (spread N yerror)) in *.
  replace (mk_nd [N; 3] (concat rows))
    with (mk_nd [length rows; 3] (concat rows)) by now rewrite <- HN.
  unfold LeastSquares_call. cbn [_ndim ls_base _masked _cost ls_model].
  destruct (LeastSquares_parts 1 rows Hf) as [Hxp Hrest].
  cbn [Nat.add Nat.eqb] in Hxp, Hrest. cbn [Nat.eqb].
  rewrite Hxp. cbn [bind].
  destruct (from (T (mk_nd [length rows; 3] (concat rows))) 1)
    as [rest|e]; cbn [bind] in Hrest |- *; [|discriminate].
  rewrite Hrest.
  unfold explanatory. cbn [Nat.eqb]. rewrite H0, H1, H2, <- HN.
  assert (Eax : asfloat x = mk_nd [N] xs)
    by (unfold asfloat; now rewrite Hx).
  rewrite <- Eax, Hm.
  cbn [bind]. unfold _sum_z_squared. subst N. rewrite <- Hly in *.
  rewrite (z_squared_1d ys (spread (length ys) yerror) ym)
    by (assumption || now symmetry).
  reflexivity.
Qed.

End LeastSquaresConstruction.
(** * LeastSquares: assigning [x], [y] and [yerror] *)

Section LeastSquaresSetters.

Context {F : Type} {NP : NumPy F}.

Lemma replace_column_length (k : nat) (rows : list (list F)) (vs : list F) :
  length vs = length rows ->
  length (replace_column k rows vs) = length rows.
Proof.
  revert vs. induction rows as [|r rows IH]; intros [|v vs] H;
    try discriminate; [reflexivity|].
  cbn [replace_column length]. f_equal. apply IH. now injection H.
Qed.

Lemma replace_column_Forall (c k : nat) (rows : list (list F)) (vs : list F) :
  k < c -> Forall (fun r => length r = c) rows ->
  Forall (fun r => length r = c) (replace_column k rows vs).
Proof.
  intros Hk Hf. revert vs. induction Hf as [|r rows Hr _ IH]; intros vs.
  - destruct vs; constructor.
  - destruct vs as [|v vs]; [constructor|].
    cbn [replace_column]. constructor; [|apply IH].
    rewrite !length_app, length_firstn, length_skipn. cbn [length]. lia.
Qed.

Lemma replace_column_same (c k : nat) (rows : list (list F)) (vs : list F) :
  k < c -> Forall (fun r => length r = c) rows ->
  length vs = length rows ->
  column k (replace_column k rows vs) = vs.
Proof.
  intros Hk Hf. revert vs. induction Hf as [|r rows Hr _ IH]; intros [|v vs] H;
    try discriminate; [reflexivity|].
  cbn [replace_column].
  change (column k ((firstn k r ++ [v] ++ skipn (k + 1) r)
                    :: replace_column k rows vs))
    with (firstn 1 (skipn k (firstn k r ++ [v] ++ skipn (k + 1) r))
          ++ column k (replace_column k rows vs)).
  rewrite IH by now injection H.
  rewrite skipn_app, length_firstn.
  replace (Nat.min k (length r)) with k by lia.
  rewrite skipn_firstn_comm, Nat.sub_diag. reflexivity.
Qed.

Lemma replace_column_other (c k j : nat) (rows : list (list F))
    (vs : list F) :
  k < c -> j <> k -> Forall (fun r => length r = c) rows ->
  length vs = length rows ->
  column j (replace_column k rows vs) = column j rows.
Proof.
  intros Hk Hj Hf. revert vs.
  induction Hf as [|r rows Hr _ IH]; intros [|v vs] H;
    try discriminate; [reflexivity|].
  cbn [replace_column].
  change (column j ((firstn k r ++ [v] ++ skipn (k + 1) r)
                    :: replace_column k rows vs))
    with (firstn 1 (skipn j (firstn k r ++ [v] ++ skipn (k + 1) r))
          ++ column j (replace_column k rows vs)).
  change (column j (r :: rows))
    with (firstn 1 (skipn j r) ++ column j rows).
  rewrite IH by now injection H. f_equal.
  destruct (Nat.lt_ge_cases j k) as [Hlt|Hge].
  - rewrite skipn_app, length_firstn.
    replace (j - Nat.min k (length r)) with 0 by lia. cbn [skipn].
    rewrite firstn_app.
    rewrite skipn_firstn_comm. rewrite firstn_firstn.
    replace (Nat.min 1 (k - j)) with 1 by lia.
    rewrite length_firstn, length_skipn.
    replace (1 - Nat.min (k - j) (length r - j)) with 0 by lia.
    cbn [firstn]. now rewrite app_nil_r.
  - rewrite skipn_app, length_firstn.
    replace (Nat.min k (length r)) with k by lia.
    rewrite (skipn_all2 (firstn k r)) by (rewrite length_firstn; lia).
    cbn [app].
    replace (j - k) with (S (j - k - 1)) by lia. cbn [app skipn].
    rewrite skipn_skipn. f_equal. f_equal. lia.
Qed.

Lemma splice_single (k : nat) (rows : list (list F)) (vs : list F) :
  splice rows (map (fun x => [x]) vs) k 1 = replace_column k rows vs.
Proof.
  revert vs. induction rows as [|r rows IH]; intros [|v vs];
    try reflexivity.
  cbn [map splice replace_column]. now rewrite IH.
Qed.

(** [a[:, k] = v] on a table of [c] columns *)
Lemma assign_column (c k : nat) (rows : list (list F)) (vs : list F) :
  k < c -> Forall (fun r => length r = c) rows ->
  length vs = length rows ->
  assign_cols (mk_nd [length rows; c] (concat rows)) k 1 true
    (mk_nd [length rows] vs)
  = Ok (mk_nd [length rows; c] (concat (replace_column k rows vs))).
Proof.
  intros Hk Hf Hl. unfold assign_cols. cbn [shape andb size_of fold_right].
  assert (Hkc : (k <? c) = true) by now apply Nat.ltb_lt.
  rewrite Hkc. cbn [negb].
  unfold assign_all. cbn [shape length Nat.sub drop_ones flat].
  rewrite (broadcast_to_1d (length rows) vs Hl).
  cbn [bind flat]. rewrite !Nat.mul_1_r.
  replace (Nat.min 1 (c - k)) with 1 by lia.
  rewrite (chunks_concat Hf).
  replace (chunks (length rows) 1 vs) with (map (fun x => [x]) vs)
    by (rewrite <- Hl; symmetry; apply chunks_singletons).
  now rewrite splice_single.
Qed.

Lemma table_wf (c : nat) (rows : list (list F)) :
  Forall (fun r => length r = c) rows ->
  wf (mk_nd [length rows; c] (concat rows)).
Proof.
  intro Hf. unfold wf. cbn [flat shape size_of fold_right].
  rewrite Nat.mul_1_r.
  induction Hf as [|r rows Hr _ IH]; [reflexivity|].
  cbn [concat length]. rewrite length_app, IH, Hr. lia.
Qed.

Lemma assign_all_self (d : ndarray F) : wf d -> assign_all d d = Ok d.
Proof.
  intro Hw. unfold assign_all. rewrite Nat.sub_diag. cbn [drop_ones].
  replace (mk_nd (shape d) (flat d)) with d by now destruct d.
  now rewrite (broadcast_to_same Hw).
Qed.

(** Storing a table of the shape of the stored data on a current term *)
Lemma ls_store_table (self : LeastSquares F) (c : nat)
    (rows rows' : list (list F)) :
  _data (ls_base self) = mk_nd [length rows; c] (concat rows) ->
  current (ls_base self) ->
  Forall (fun r => length r = c) rows' -> length rows' = length rows ->
  let o := ls_store self (Ok (mk_nd [length rows; c] (concat rows'))) in
  returned o /\ current (ls_base (fst o)) /\
  _data (ls_base (fst o)) = mk_nd [length rows'; c] (concat rows') /\
  _ndim (fst o) = _ndim self.
Proof.
  intros Hd Hc Hf Hl o. subst o. unfold ls_store.
  rewrite <- Hl.
  set (d := mk_nd [length rows'; c] (concat rows')).
  assert (Hw : wf d) by now apply table_wf.
  unfold set_data. cbn [with_data _data].
  rewrite (assign_all_self d Hw).
  destruct (update_masked_cases (with_data (with_data (ls_base self) d) d))
    as [(a & E & Ha)|(e & E)]; rewrite E.
  - cbn [fst snd ls_with_base ls_base _ndim].
    split; [reflexivity|]. split; [|split; reflexivity].
    unfold current. cbn [with_masked with_data _mask _data _masked] in *.
    destruct (_mask (ls_base self)); [exact Ha|now symmetry].
  - exfalso. unfold _update_masked in E. cbn [with_data _mask _data] in E.
    unfold current in Hc. destruct (_mask (ls_base self)) as [m|];
      [|discriminate E].
    assert (Hs : shape d = shape (_data (ls_base self)))
      by (rewrite Hd; unfold d; cbn [shape]; now rewrite Hl).
    destruct (getitem_shape_total (_data (ls_base self)) d _ m Hs Hc)
      as [r' Er].
    rewrite Er in E. discriminate E.
Qed.

(** What the properties read off a table with [_ndim + 2] columns *)
Lemma LeastSquares_getters (self : LeastSquares F) (rows : list (list F)) :
  _data (ls_base self)
  = mk_nd [length rows; _ndim self + 2] (concat rows) ->
  Forall (fun r => length r = _ndim self + 2) rows ->
  LeastSquares_x self = Ok (explanatory (_ndim self) rows) /\
  LeastSquares_y self = Ok (mk_nd [length rows] (column (_ndim self) rows)) /\
  LeastSquares_yerror self
  = Ok (mk_nd [length rows] (column (_ndim self + 1) rows)).
Proof.
  intros Hd Hf.
  unfold LeastSquares_x, LeastSquares_y, LeastSquares_yerror. rewrite Hd.
  split; [|split; apply (col_2d Hf); lia].
  destruct (LeastSquares_parts (_ndim self) rows Hf) as [Hx _].
  destruct (_ndim self =? 1) eqn:E; [|exact Hx].
  unfold explanatory. rewrite E. apply (col_2d Hf). lia.
Qed.

Lemma explanatory_replace (d k : nat) (rows : list (list F)) (vs : list F) :
  d <= k -> k < d + 2 -> Forall (fun r => length r = d + 2) rows ->
  length vs = length rows ->
  explanatory d (replace_column k rows vs) = explanatory d rows.
Proof.
  intros Hdk Hk Hf Hl. unfold explanatory.
  rewrite (replace_column_length k rows vs Hl).
  destruct (d =? 1) eqn:E.
  - apply Nat.eqb_eq in E.
    rewrite (replace_column_other (d + 2) k 0 rows vs); auto; lia.
  - f_equal. apply flat_map_ext_in. intros j Hj. apply in_seq in Hj.
    apply (replace_column_other (d + 2) k j rows vs); auto; lia.
Qed.

(** One assignment to column [k] of the stored table *)
Lemma set_column (self : LeastSquares F) (k : nat) (rows : list (list F))
    (value : array_like F) :
  _data (ls_base self)
  = mk_nd [length rows; _ndim self + 2] (concat rows) ->
  Forall (fun r => length r = _ndim self + 2) rows ->
  current (ls_base self) ->
  al_shape value = [length rows] -> al_wf value ->
  k < _ndim self + 2 ->
  let o := ls_store self
             (assign_cols (_data (ls_base self)) k 1 true (_norm value)) in
  let rows' := replace_column k rows (map to_float (al_items value)) in
  returned o /\ current (ls_base (fst o)) /\
  _data (ls_base (fst o))
  = mk_nd [length rows'; _ndim (fst o) + 2] (concat rows') /\
  _ndim (fst o) = _ndim self /\
  length rows' = length rows /\
  asfloat value = mk_nd [length rows] (map to_float (al_items value)).
Proof.
  intros Hd Hf Hc Hs Hw Hk o rows'.
  set (vs := map to_float (al_items value)) in *.
  assert (Hl : length vs = length rows).
  { unfold vs. rewrite length_map. unfold al_wf in Hw. rewrite Hw, Hs.
    simpl. lia. }
  assert (En : _norm value = mk_nd [length rows] vs).
  { unfold _norm, asfloat, atleast_1d. cbn [shape]. now rewrite Hs. }
  assert (Ea : asfloat value = mk_nd [length rows] vs)
    by (unfold asfloat; now rewrite Hs).
  pose proof (replace_column_Forall (_ndim self + 2) k rows vs Hk Hf) as Hf'.
  pose proof (replace_column_length k rows vs Hl) as Hl'.
  assert (E : assign_cols (_data (ls_base self)) k 1 true (_norm value)
              = Ok (mk_nd [length rows; _ndim self + 2] (concat rows')))
    by (rewrite Hd, En; now apply assign_column).
  subst o. rewrite E.
  destruct (ls_store_table self (_ndim self + 2) rows rows' Hd Hc Hf' Hl')
    as (Hr & Hcur & Hdata & Hn).
  fold rows'. split; [exact Hr|]. split; [exact Hcur|].
  split; [now rewrite Hn|]. now repeat split.
Qed.

(** X18.  On a current least-squares term whose table has [_ndim + 2]
    columns, assigning one value per point to [y] (or to [yerror]) returns
    normally and leaves the view current; reading the property back gives
    the assigned values as floats, and the other two properties read as
    before. *)
Theorem LeastSquares_assign_read (self : LeastSquares F)
    (rows : list (list F)) (value : array_like F) :
  _data (ls_base self)
  = mk_nd [length rows; _ndim self + 2] (concat rows) ->
  Forall (fun r => length r = _ndim self + 2) rows ->
  current (ls_base self) ->
  al_shape value = [length rows] -> al_wf value ->
  (let o := LeastSquares_set_y self value in
   returned o /\ current (ls_base (fst o)) /\
   LeastSquares_y (fst o) = Ok (asfloat value) /\
   LeastSquares_x (fst o) = LeastSquares_x self /\
   LeastSquares_yerror (fst o) = LeastSquares_yerror self) /\
  (let o := LeastSquares_set_yerror self value in
   returned o /\ current (ls_base (fst o)) /\
   LeastSquares_yerror (fst o) = Ok (asfloat value) /\
   LeastSquares_x (fst o) = LeastSquares_x self /\
   LeastSquares_y (fst o) = LeastSquares_y self).
Proof.
  intros Hd Hf Hc Hs Hw.
  destruct (LeastSquares_getters self rows Hd Hf) as (Gx & Gy & Ge).
  set (vs := map to_float (al_items value)).
  assert (Hl : length vs = length rows).
  { unfold vs. rewrite length_map. unfold al_wf in Hw. rewrite Hw, Hs.
    simpl. lia. }
  split.
  - unfold LeastSquares_set_y.
    destruct (set_column self (_ndim self) rows value Hd Hf Hc Hs Hw
                ltac:(lia)) as (Hr & Hcur & Hdata & Hn & Hl' & Ea).
    fold vs in Hdata, Hl', Ea.
    set (o := ls_store self _) in *. cbv zeta.
    split; [exact Hr|]. split; [exact Hcur|].
    assert (Hf' : Forall (fun r => length r = _ndim (fst o) + 2)
                    (replace_column (_ndim self) rows vs))
      by (rewrite Hn; apply replace_column_Forall; [lia|exact Hf]).
    destruct (LeastSquares_getters (fst o) _ Hdata Hf') as (Gx' & Gy' & Ge').
    rewrite Gx', Gy', Ge', Gx, Ge, Hn, Hl', Ea.
    rewrite (replace_column_same (_ndim self + 2)) by (lia || assumption).
    rewrite (replace_column_other (_ndim self + 2)) by (lia || assumption).
    rewrite explanatory_replace by (lia || assumption).
    auto.
  - unfold LeastSquares_set_yerror.
    destruct (set_column self (_ndim self + 1) rows value Hd Hf Hc Hs Hw
                ltac:(lia)) as (Hr & Hcur & Hdata & Hn & Hl' & Ea).
    fold vs in Hdata, Hl', Ea.
    set (o := ls_store self _) in *. cbv zeta.
    split; [exact Hr|]. split; [exact Hcur|].
    assert (Hf' : Forall (fun r => length r = _ndim (fst o) + 2)
                    (replace_column (_ndim self + 1) rows vs))
      by (rewrite Hn; apply replace_column_Forall; [lia|exact Hf]).
    destruct (LeastSquares_getters (fst o) _ Hdata Hf') as (Gx' & Gy' & Ge').
    rewrite Gx', Gy', Ge', Gx, Gy, Hn, Hl', Ea.
    rewrite (replace_column_same (_ndim self + 2)) by (lia || assumption).
    rewrite (replace_column_other (_ndim self + 2)) by (lia || assumption).
    rewrite explanatory_replace by (lia || assumption).
    auto.
Qed.

End LeastSquaresSetters.
(** * iminuit.util: describe *)

Section DescribeFacts.

Import Ascii.

Lemma slice_to_all (A : Type) (l : list A) :
  util.slice_to l (Z.of_nat (length l)) = l.
Proof.
  unfold util.slice_to.
  destruct (0 <=? Z.of_nat (length l))%Z eqn:E;
    [|apply Z.leb_gt in E; lia].
  rewrite Nat2Z.id. apply firstn_all.
Qed.

(** X19.  The parameter names given to [make_func_code] are what
    [describe] returns for every object that carries the resulting
    [func_code], as the cost functions do, whatever its signature and
    docstring say -- unless there are no names: then the [func_code] is
    passed over and the signature is inspected. *)
Theorem describe_make_func_code (obj : util.callable_t)
    (params : list string) :
  util.func_code obj = Some (util.make_func_code params) ->
  util._arguments_from_func_code obj = params /\
  (params <> [] -> util.describe obj = Return params) /\
  (params = [] ->
   util.describe obj
   = py_bind (util._arguments_from_inspect obj)
       (fun b => match b with
                 | _ :: _ => Return b
                 | [] => util._arguments_from_docstring obj
                 end)).
Proof.
  intro H.
  assert (E : util._arguments_from_func_code obj = params).
  { unfold util._arguments_from_func_code. rewrite H.
    cbn [util.make_func_code util.co_varnames util.co_argcount].
    apply slice_to_all. }
  split; [exact E|]. unfold util.describe. rewrite E.
  split; intro Hp.
  - destruct params; [congruence|reflexivity].
  - now rewrite Hp.
Qed.

Lemma collect_names_split (ps : list (string * util.kind)) :
  exists front back,
    ps = front ++ back /\
    util.collect_names ps = map fst front /\
    Forall (fun p => util.variadic (snd p) = false) front /\
    (back = [] \/ exists p b, back = p :: b /\ util.variadic (snd p) = true).
Proof.
  induction ps as [|[n k] ps IH].
  - exists [], []. repeat split; auto.
  - destruct IH as (front & back & -> & Hc & Hf & Hb).
    destruct (util.variadic k) eqn:Ek.
    + exists [], ((n, k) :: front ++ back).
      split; [reflexivity|]. split; [now destruct k|].
      split; [constructor|]. right. eauto.
    + exists ((n, k) :: front), back.
      split; [reflexivity|].
      split; [destruct k; try discriminate; cbn [util.collect_names map fst];
              now rewrite Hc|].
      split; [now constructor|exact Hb].
Qed.

(** X20.  For an object without [func_code] whose signature can be
    inspected, the names [describe] takes from it are those of the
    parameters before the first [*args] or [**kwargs]: none of a variadic
    kind, none after one. *)
Theorem describe_signature (obj : util.callable_t)
    (ps : list (string * util.kind)) :
  util.func_code obj = None ->
  util.signature obj = Return ps ->
  exists front back,
    ps = front ++ back /\
    util._arguments_from_inspect obj = Return (map fst front) /\
    Forall (fun p => util.variadic (snd p) = false) front /\
    (back = [] \/ exists p b, back = p :: b /\ util.variadic (snd p) = true) /\
    (front <> [] -> util.describe obj = Return (map fst front)).
Proof.
  intros Hf Hs.
  destruct (collect_names_split ps) as (front & back & E & Hc & Hfr & Hb).
  exists front, back. split; [exact E|].
  assert (Hi : util._arguments_from_inspect obj = Return (map fst front))
    by (unfold util._arguments_from_inspect; now rewrite Hs, Hc).
  split; [exact Hi|]. split; [exact Hfr|]. split; [exact Hb|].
  intro Hne. unfold util.describe, util._arguments_from_func_code.
  rewrite Hf, Hi. cbn [py_bind].
  destruct front; [congruence|reflexivity].
Qed.

End DescribeFacts.
(** * iminuit.util: signatures in docstrings *)

Section DocstringFacts.

Import Ascii.

Local Open Scope string_scope.

































End DocstringFacts.
(** * iminuit.util: access by index and by name *)

Section ContainerFacts.

Lemma norm_index_nat (d i : nat) : i < d -> norm_index d (Z.of_nat i) = Some i.
Proof.
  intro H. unfold norm_index.
  assert (E : ((0 <=? Z.of_nat i) && (Z.of_nat i <? Z.of_nat d))%Z = true)
    by (apply andb_true_iff; split; [apply Z.leb_le|apply Z.ltb_lt]; lia).
  rewrite E. now rewrite Nat2Z.id.
Qed.

Lemma key_at_found (keys : list string) (i : Z) (j : nat) (k : string)
    (last : option string) :
  nth_error keys j = Some k ->
  util.key_at keys i (i + Z.of_nat j) last = Some k.
Proof.
  revert i j last. induction keys as [|k' keys IH]; intros i j last H.
  - destruct j; discriminate.
  - destruct j as [|j]; cbn [nth_error] in H.
    + injection H as ->. cbn [util.key_at].
      replace (i + Z.of_nat 0)%Z with i by lia. now rewrite Z.eqb_refl.
    + cbn [util.key_at].
      assert (E : (i =? i + Z.of_nat (S j))%Z = false)
        by (apply Z.eqb_neq; lia).
      rewrite E.
      replace (i + Z.of_nat (S j))%Z with (i + 1 + Z.of_nat j)%Z by lia.
      now apply IH.
Qed.

Lemma dict_getitem_nth (V : Type) (d : util.ordered_dict V) (j : nat)
    (k : string) (v : V) :
  NoDup (map fst d) -> nth_error d j = Some (k, v) ->
  util.dict_getitem d k = Return v.
Proof.
  revert j. induction d as [|[k' v'] d IH]; intros j Hn H.
  - destruct j; discriminate.
  - cbn [map fst] in Hn. inversion Hn as [|? ? Hnotin Hnd]; subst.
    destruct j as [|j]; cbn [nth_error] in H.
    + injection H as -> ->. cbn [util.dict_getitem].
      now rewrite String.eqb_refl.
    + cbn [util.dict_getitem].
      assert (E : String.eqb k' k = false).
      { apply String.eqb_neq. intros ->. apply Hnotin.
        apply nth_error_In in H. apply in_map_iff. now exists (k, v). }
      rewrite E. now apply (IH j).
Qed.

(** X22.  In an [MErrors] the item at position [j] is reached by the index
    [j], by the index [j - len] counted from the end and by its name, and
    all three give the same result; an index outside [-len, len) raises
    [IndexError]. *)
Theorem MErrors_index_and_name (V : Type) (d : util.ordered_dict V)
    (j : nat) (k : string) (v : V) :
  NoDup (map fst d) -> nth_error d j = Some (k, v) ->
  util.MErrors_getitem d (util.IntKey (Z.of_nat j)) = Return v /\
  util.MErrors_getitem d (util.IntKey (Z.of_nat j - Z.of_nat (length d)))
  = Return v /\
  util.MErrors_getitem d (util.StrKey k) = Return v /\
  (forall i : Z,
     (i < - Z.of_nat (length d) \/ Z.of_nat (length d) <= i)%Z ->
     util.MErrors_getitem d (util.IntKey i) = Throw (Builtin IndexError)).
Proof.
  intros Hn H.
  assert (Hj : j < length d) by (apply nth_error_Some; congruence).
  assert (Hk : nth_error (map fst d) j = Some k)
    by (rewrite nth_error_map, H; reflexivity).
  pose proof (dict_getitem_nth V d j k v Hn H) as Hg.
  assert (Hin : forall key : Z,
             key = Z.of_nat j ->
             (if ((key <? 0) || (Z.of_nat (length d) <=? key))%Z
              then Throw (Builtin IndexError)
              else match util.key_at (map fst d) 0 key None with
                   | Some k0 => util.dict_getitem d k0
                   | None => Throw UnboundLocalError
                   end) = Return v).
  { intros key ->.
    assert (E : ((Z.of_nat j <? 0)
                 || (Z.of_nat (length d) <=? Z.of_nat j))%Z = false)
      by (apply orb_false_iff; split;
          [apply Z.ltb_ge|apply Z.leb_gt]; lia).
    rewrite E.
    pose proof (key_at_found (map fst d) 0 j k None Hk) as Hf.
    cbn [Z.add] in Hf. now rewrite Hf. }
  split; [|split; [|split]].
  - unfold util.MErrors_getitem.
    assert (E : (Z.of_nat j <? 0)%Z = false) by (apply Z.ltb_ge; lia).
    rewrite E. now apply Hin.
  - unfold util.MErrors_getitem.
    assert (E : (Z.of_nat j - Z.of_nat (length d) <? 0)%Z = true)
      by (apply Z.ltb_lt; lia).
    rewrite E. apply Hin. lia.
  - exact Hg.
  - intros i Hi. unfold util.MErrors_getitem.
    destruct (i <? 0)%Z eqn:E.
    + apply Z.ltb_lt in E.
      assert (E' : ((i + Z.of_nat (length d) <? 0)
                    || (Z.of_nat (length d) <=? i + Z.of_nat (length d)))%Z
                   = true)
        by (apply orb_true_iff; left; apply Z.ltb_lt; lia).
      now rewrite E'.
    + apply Z.ltb_ge in E.
      assert (E' : ((i <? 0) || (Z.of_nat (length d) <=? i))%Z = true)
        by (apply orb_true_iff; right; apply Z.leb_le; lia).
      now rewrite E'.
Qed.

Lemma position_found (front back : list util.Param) (p : util.Param)
    (key : string) (i : nat) (last : option nat) :
  Forall (fun q => util.name q <> key) front -> util.name p = key ->
  util.position (front ++ p :: back) i key last = Some (i + length front).
Proof.
  intros Hf Hp. revert i last.
  induction Hf as [|q front Hq _ IH]; intros i last.
  - cbn [app util.position length]. rewrite Hp, String.eqb_refl.
    f_equal. lia.
  - cbn [app util.position length].
    apply String.eqb_neq in Hq. rewrite Hq, IH. f_equal. lia.
Qed.

Lemma position_missing (front : list util.Param) (p : util.Param)
    (key : string) (i : nat) (last : option nat) :
  Forall (fun q => util.name q <> key) (front ++ [p]) ->
  util.position (front ++ [p]) i key last = Some (i + length front).
Proof.
  revert i last. induction front as [|q front IH]; intros i last Hf.
  - inversion Hf as [|? ? Hp _]; subst. apply String.eqb_neq in Hp.
    cbn [app util.position length]. rewrite Hp. f_equal. lia.
  - inversion Hf as [|? ? Hq Hr]; subst. apply String.eqb_neq in Hq.
    cbn [app util.position length]. rewrite Hq, (IH _ _ Hr). f_equal. lia.
Qed.

(** X23.  [Params] indexed by a name returns the first parameter of that
    name.  For a name that no parameter has, the loop runs to its end and
    the last parameter is returned; on an empty [Params] the loop variable
    is never bound and the lookup raises [UnboundLocalError]. *)
Theorem Params_getitem_name (key : string) :
  (forall (front back : list util.Param) (p : util.Param),
     Forall (fun q => util.name q <> key) front -> util.name p = key ->
     util.Params_getitem (front ++ p :: back) (util.StrKey key) = Return p) /\
  (forall (front : list util.Param) (p : util.Param),
     Forall (fun q => util.name q <> key) (front ++ [p]) ->
     util.Params_getitem (front ++ [p]) (util.StrKey key) = Return p) /\
  util.Params_getitem [] (util.StrKey key) = Throw UnboundLocalError.
Proof.
  split; [|split; [|reflexivity]].
  - intros front back p Hf Hp. unfold util.Params_getitem.
    rewrite (position_found front back p key 0 None Hf Hp).
    cbn [py_bind Nat.add].
    rewrite norm_index_nat by (rewrite length_app; cbn [length]; lia).
    now rewrite nth_error_app2, Nat.sub_diag by lia.
  - intros front p Hf. unfold util.Params_getitem.
    rewrite (position_missing front p key 0 None Hf).
    cbn [py_bind Nat.add].
    rewrite norm_index_nat by (rewrite length_app; cbn [length]; lia).
    now rewrite nth_error_app2, Nat.sub_diag by lia.
Qed.

End ContainerFacts.
(** * iminuit.util: limits *)

Section LimitFacts.

Variable str : list (option float) -> string.

(** X24.  A limit that [_normalize_limit] returns is normalised: giving it
    back returns it unchanged.  The two bounds it returns are never
    inverted, and a sequence of two [None] is the same as no limit,
    [(-inf, inf)]. *)
Theorem normalize_limit_idempotent :
  (forall (lim : option (list (option float))) (r : list (option float)),
     util._normalize_limit str lim = Return r ->
     util._normalize_limit str (Some r) = Return r) /\
  (forall (lim : option (list (option float))) (lo hi : float),
     util._normalize_limit str lim = Return [Some lo; Some hi] ->
     (hi <? lo)%float = false) /\
  util._normalize_limit str (Some [None; None])
  = util._normalize_limit str None.
Proof.
  assert (H : forall lim r,
             util._normalize_limit str lim = Return r ->
             exists lo hi rest,
               r = Some lo :: Some hi :: rest /\ (hi <? lo)%float = false).
  { intros lim r. unfold util._normalize_limit.
    destruct lim as [[|l0 [|l1 rest]]|]; try discriminate.
    - destruct (_ <? _)%float eqn:E; [discriminate|].
      intros [= <-]. eauto.
    - intros [= <-]. exists neg_infinity, infinity, []. split; reflexivity. }
  split; [|split; [|reflexivity]].
  - intros lim r Hr. destruct (H lim r Hr) as (lo & hi & rest & -> & E).
    unfold util._normalize_limit. now rewrite E.
  - intros lim lo hi Hr. destruct (H lim _ Hr) as (lo' & hi' & rest & E1 & E).
    now injection E1 as <- <- _.
Qed.

End LimitFacts.
(** * BinnedNLL under a mask: the normalisation of the model drops out *)

Section MaskedScale.

Local Open Scope R_scope.

Lemma diff1_scaled (c : R) (l : list R) :
  @diff1 R exact (map (Rmult c) l) = map (Rmult c) (@diff1 R exact l).
Proof.
  induction l as [|x l IH]; [reflexivity|].
  destruct l as [|y l]; [reflexivity|].
  change (@diff1 R exact (map (Rmult c) (x :: y :: l)))
    with ((c * y - c * x) :: @diff1 R exact (map (Rmult c) (y :: l))).
  rewrite IH.
  change (@diff1 R exact (x :: y :: l))
    with ((y - x) :: @diff1 R exact (y :: l)).
  cbn [map]. f_equal. ring.
Qed.

Lemma select_scaled (m : mask_t) (c : R) (l sel : list R) :
  select (Some m) l = Some sel ->
  select (Some m) (map (Rmult c) l) = Some (map (Rmult c) sel).
Proof.
  unfold select. rewrite length_map, select_rows_map. now intros ->.
Qed.

Lemma renormalized_scaled (m : mask_t) (c : R) (prob : list R) :
  c <> 0 -> Rsum prob <> 0 ->
  @renormalized R exact (Some m) (map (Rmult c) prob)
  = @renormalized R exact (Some m) prob.
Proof.
  intros Hc Hs. unfold renormalized. cbn [np_sum fdiv exact].
  rewrite Rsum_mult_l, map_map. apply map_ext. intro p. now field.
Qed.

(** X25.  Over the real numbers a masked [BinnedNLL] does not see the
    normalisation of the model: two parameter vectors whose CDF values
    differ by a constant factor other than zero give the same expected
    counts and the same cost (the probabilities of the active bins must
    not sum to zero). *)
Theorem BinnedNLL_masked_scale_free (self : BinnedCost R)
    (args args' dv cv : list R) (c : R) (m : mask_t) :
  _data (b_base self) = mk_nd [length dv] dv ->
  shape (_xe self) = [S (length dv)] ->
  current (b_base self) ->
  _mask (b_base self) = Some m ->
  _normalize_model_output (apply (b_model self) (_xe self) args)
  = mk_nd [length cv] cv ->
  _normalize_model_output (apply (b_model self) (_xe self) args')
  = mk_nd [length cv] (map (Rmult c) cv) ->
  length cv = S (length dv) ->
  c <> 0 ->
  (forall prob, select (Some m) (@diff1 R exact cv) = Some prob ->
                Rsum prob <> 0) ->
  @BinnedNLL_expected R exact self args'
  = @BinnedNLL_expected R exact self args /\
  @BinnedNLL_call R exact self args' = @BinnedNLL_call R exact self args.
Proof.
  intros Hd Hx Hcur Hm Ho Ho' Hl Hc Hs.
  assert (He : @BinnedNLL_expected R exact self args'
               = @BinnedNLL_expected R exact self args).
  { destruct (@BinnedNLL_expected_unweighted R exact self args dv cv
                Hd Hx Hcur Ho Hl) as (n & prob & Hn & Hp & _ & E).
    assert (Hl' : length (map (Rmult c) cv) = S (length dv))
      by now rewrite length_map.
    assert (Ho2 : _normalize_model_output
                    (apply (b_model self) (_xe self) args')
                  = mk_nd [length (map (Rmult c) cv)] (map (Rmult c) cv))
      by now rewrite length_map.
    destruct (@BinnedNLL_expected_unweighted R exact self args' dv
                (map (Rmult c) cv) Hd Hx Hcur Ho2 Hl')
      as (n' & prob' & Hn' & Hp' & _ & E').
    rewrite E, E'. rewrite Hm in *.
    rewrite Hn in Hn'. injection Hn' as <-.
    rewrite diff1_scaled, (select_scaled m c _ _ Hp) in Hp'.
    injection Hp' as <-.
    now rewrite (renormalized_scaled m c prob Hc (Hs prob Hp)). }
  split; [exact He|]. unfold BinnedNLL_call. now rewrite He.
Qed.

End MaskedScale.

(** * LeastSquares: what stays as constructed *)

Section LeastSquaresInvariants.

Context {F : Type} {NP : NumPy F}.

Lemma ls_store_fields (self : LeastSquares F) (d : result (ndarray F)) :
  let self' := fst (ls_store self d) in
  _loss self' = _loss self /\ _cost self' = _cost self /\
  ls_model self' = ls_model self /\ _ndim self' = _ndim self.
Proof.
  unfold ls_store. destruct d as [r|e]; [|now auto].
  destruct (set_data (with_data (ls_base self) r) r) as [b e]. now cbn.
Qed.

(** X26.  The cost function of a least-squares term is the one that
    belongs to its loss: after construction and after every loss
    assignment that returns [_cost] is what the loss selects, and no
    assignment of mask, data, x, y or yerror changes the loss, the cost
    function, the model or [_ndim]. *)
Theorem LeastSquares_loss_consistent :
  (forall (x y yerror : array_like F) (model : model_t F) (loss : loss_t F)
          (verbose : Z) (self : LeastSquares F),
     LeastSquares_init x y yerror model loss verbose = Ok self ->
     loss_cost (_loss self) = Ok (_cost self) /\
     _loss self = loss /\ ls_model self = model /\
     _ndim self = ndim (_norm x)) /\
  (forall (self : LeastSquares F) (loss : loss_t F),
     let self' := fst (set_loss self loss) in
     returned (set_loss self loss) ->
     loss_cost (_loss self') = Ok (_cost self') /\ _loss self' = loss /\
     ls_base self' = ls_base self /\ _ndim self' = _ndim self) /\
  (forall (self : LeastSquares F) (m : mutation F),
     exists self', fst (run (Fitted self) m) = Fitted self' /\
       _loss self' = _loss self /\ _cost self' = _cost self /\
       ls_model self' = ls_model self /\ _ndim self' = _ndim self).
Proof.
  split; [|split].
  - intros x y yerror model loss verbose self. unfold LeastSquares_init.
    destruct (loss_cost loss) as [cost|e] eqn:E; cbn [bind]; [|discriminate].
    destruct (iter (atleast_2d (_norm x))) as [xs|e]; cbn [bind];
      [|discriminate].
    destruct (broadcast_arrays _) as [arrs|e]; cbn [bind]; [|discriminate].
    destruct (column_stack arrs) as [data|e]; cbn [bind]; [|discriminate].
    intros [= <-]. cbn [_loss _cost ls_model _ndim]. auto.
  - intros self loss self'. subst self'. unfold set_loss, returned.
    cbn [ls_base _cost ls_model _ndim].
    destruct (loss_cost loss) as [cost|e] eqn:E; cbn [fst snd];
      [|discriminate].
    intros _. cbn [_loss _cost ls_base _ndim]. auto.
  - intros self m.
    destruct m as [mask|v|v|v|v]; cbn [run lift_outcome fst];
      eexists; (split; [reflexivity|]).
    + unfold LeastSquares_set_mask.
      destruct (set_mask (ls_base self) mask) as [b e]. now cbn.
    + unfold LeastSquares_set_data.
      destruct (set_data (ls_base self) (asfloat v)) as [b e]. now cbn.
    + apply ls_store_fields.
    + apply ls_store_fields.
    + apply ls_store_fields.
Qed.

End LeastSquaresInvariants.
(** * BinnedCost: assigning and reading the bin contents *)

Section BinnedAssign.

Context {F : Type} {NP : NumPy F}.

(** Assigning an array of the stored shape to a current term *)
Lemma set_data_same_shape (self : MaskedCost F) (d : ndarray F) :
  wf d -> shape d = shape (_data self) -> current self ->
  let o := set_data self d in
  returned o /\ current (fst o) /\ _data (fst o) = d /\
  _mask (fst o) = _mask self.
Proof.
  intros Hw Hs Hc o. subst o. unfold set_data.
  assert (Ea : assign_all (_data self) d = Ok d).
  { unfold assign_all. rewrite Hs, Nat.sub_diag. cbn [drop_ones].
    rewrite <- Hs.
    replace (mk_nd (shape d) (flat d)) with d by now destruct d.
    now rewrite (broadcast_to_same Hw). }
  rewrite Ea.
  destruct (update_masked_cases (with_data self d))
    as [(a & E & Ha)|(e & E)]; rewrite E.
  - cbn [fst snd]. split; [reflexivity|]. split; [|split; reflexivity].
    unfold current. cbn [with_masked with_data _mask _data _masked] in *.
    destruct (_mask self); [exact Ha|now symmetry].
  - exfalso. unfold _update_masked in E. cbn [with_data _mask _data] in E.
    unfold current in Hc. destruct (_mask self) as [m|]; [|discriminate E].
    destruct (getitem_shape_total (_data self) d _ m Hs Hc) as [r' Er].
    rewrite Er in E. discriminate E.
Qed.

Lemma prepare_data_counts (xe : ndarray F) (value : array_like F) (N : nat) :
  al_shape value = [N] -> shape xe = [S N] ->
  _prepare_data xe value = Ok (asfloat value).
Proof.
  intros Hs Hx.
  assert (En : _norm value = asfloat value)
    by (unfold _norm, atleast_1d, asfloat; cbn [shape]; now rewrite Hs).
  unfold _prepare_data. rewrite En. unfold ndim, asfloat. cbn [shape].
  rewrite Hs, Hx.
  cbn [length Nat.eqb negb andb any_plus1_differs orb].
  now rewrite Nat.add_1_r, Nat.eqb_refl.
Qed.

(** Plain counts cannot take a weighted table. *)
Lemma assign_table_to_counts (N : nat) (a v : ndarray F) :
  shape a = [N] -> shape v = [N; 4] ->
  assign_all a v = Raise (ValueError "could not broadcast input array").
Proof.
  intros Ha Hv. unfold assign_all. rewrite Ha, Hv.
  cbn [length Nat.sub].
  destruct (Nat.eq_dec N 1) as [->|E].
  - reflexivity.
  - assert (Hd : drop_ones 1 [N; 4] = [N; 4]).
    { destruct N as [|[|N]]; try reflexivity. congruence. }
    rewrite Hd. reflexivity.
Qed.

(** X27.  On a current binned term with [N] bins: counts of shape (N,)
    assigned to a term of plain counts, and pairs of shape (N, 2) assigned
    to a weighted term, are accepted and read back as floats from [data],
    the mask kept and the view current; pairs assigned to a term of plain
    counts raise [ValueError] and leave the term as it was. *)
Theorem BinnedCost_assign_read (self : BinnedCost F) (value : array_like F)
    (N : nat) :
  shape (_xe self) = [S N] -> al_wf value ->
  current (b_base self) ->
  let o := BinnedCost_set_data self value in
  (shape (_data (b_base self)) = [N] -> al_shape value = [N] ->
   returned o /\ BinnedCost_data (fst o) = Ok (asfloat value) /\
   current (b_base (fst o)) /\
   _mask (b_base (fst o)) = _mask (b_base self)) /\
  (shape (_data (b_base self)) = [N; 4] -> al_shape value = [N; 2] ->
   returned o /\ BinnedCost_data (fst o) = Ok (asfloat value) /\
   current (b_base (fst o)) /\
   _mask (b_base (fst o)) = _mask (b_base self)) /\
  (shape (_data (b_base self)) = [N] -> al_shape value = [N; 2] ->
   o = (self, Some (ValueError "could not broadcast input array"))).
Proof.
  intros Hx Hw Hc o. subst o. unfold BinnedCost_set_data.
  split; [|split].
  - intros Hd Hs. rewrite (prepare_data_counts _ value N Hs Hx).
    assert (Hwf : wf (asfloat value)).
    { unfold wf, asfloat. cbn [flat shape]. rewrite length_map. exact Hw. }
    assert (Hsh : shape (asfloat value) = shape (_data (b_base self)))
      by (unfold asfloat; cbn [shape]; now rewrite Hs, Hd).
    destruct (set_data_same_shape (b_base self) (asfloat value) Hwf Hsh Hc)
      as (Hr & Hcur & Hdata & Hm).
    destruct (set_data (b_base self) (asfloat value)) as [b e].
    cbn [fst snd] in *. unfold returned in *. cbn [snd] in *.
    split; [exact Hr|]. split; [|split; assumption].
    unfold BinnedCost_data, _weighted, ndim. cbn [b_base _xe].
    rewrite Hx, Hdata. unfold asfloat at 1. cbn [shape]. rewrite Hs.
    reflexivity.
  - intros Hd Hs.
    destruct (prepare_data_pairs (_xe self) value N Hs Hw Hx)
      as (L & Ha & E).
    rewrite E.
    set (ps := pair_up (map to_float (al_items value))) in *.
    set (d := mk_nd [N; 4] (concat (map stored_row ps))).
    assert (Hwf : wf d).
    { unfold d. rewrite <- L.
      rewrite <- (length_map stored_row ps).
      apply table_wf. apply stored_rows_length. }
    assert (Hsh : shape d = shape (_data (b_base self)))
      by (unfold d; cbn [shape]; now rewrite Hd).
    destruct (set_data_same_shape (b_base self) d Hwf Hsh Hc)
      as (Hr & Hcur & Hdata & Hm).
    destruct (set_data (b_base self) d) as [b e].
    cbn [fst snd] in *. unfold returned in *. cbn [snd] in *.
    split; [exact Hr|]. split; [|split; assumption].
    unfold BinnedCost_data, _weighted, ndim. cbn [b_base _xe].
    rewrite Hx, Hdata. unfold d at 1. cbn [shape length Nat.ltb Nat.leb].
    unfold cols_to_2, d. cbn [shape flat size_of fold_right Nat.min].
    rewrite Ha, <- L, !Nat.mul_1_r.
    rewrite chunks_concat_map by reflexivity.
    do 2 f_equal. apply stored_rows_front.
  - intros Hd Hs.
    destruct (prepare_data_pairs (_xe self) value N Hs Hw Hx)
      as (L & Ha & E).
    rewrite E. unfold set_data.
    rewrite (assign_table_to_counts N (_data (b_base self))
                   (mk_nd [N; 4]
                      (concat (map stored_row
                                 (pair_up (map to_float (al_items value))))))
                   Hd eq_refl).
    now destruct self.
Qed.

End BinnedAssign.
(** * The statements on concrete terms, continued *)

(** X4, on a constraint, an unbinned term and a constant *)
Lemma CostSum_add_assoc_example :
  exists s1 s2,
    __add__ penalty (Term unbinned_term) = Ok s1 /\
    __add__ unbinned_term (Term (Constant (Int 1))) = Ok s2 /\
    items s1 = [penalty; unbinned_term] /\
    __add__ s1 (Term (Constant (Int 1))) = __add__ penalty (Term s2).
Proof.
  eexists. eexists. split; [reflexivity|]. split; [reflexivity|].
  split; [reflexivity|].
  exact (@CostSum_add_assoc float penalty unbinned_term (Constant (Int 1))
           _ _ eq_refl eq_refl).
Defined.

(** X5, on the sum of a constraint, a sum and a number *)
Lemma CostSum_flat_example :
  exists s,
    @CostSum_init float
      [Term penalty;
       Term (CostSum [] 0 [unbinned_term; Constant (Int 2)] [[]; []]);
       Number (Float 1.5)] = Ok s /\
    items s = [penalty; unbinned_term; Constant (Int 2); Constant (Float 1.5)]
    /\ is_sum s = true /\ items s <> [] /\ flat_sum s.
Proof.
  eexists. split; [reflexivity|]. split; [reflexivity|].
  match goal with
  | |- is_sum ?s = _ /\ _ =>
      destruct (@CostSum_flat float
                  [Term penalty;
                   Term (CostSum [] 0 [unbinned_term; Constant (Int 2)]
                           [[]; []]);
                   Number (Float 1.5)] s eq_refl) as (H1 & H2 & H3)
  end.
  split; [exact H1|]. split; [exact H2|].
  apply H3. repeat constructor.
Defined.

(** X7, on the three bins: a mask and then new counts, or the counts and
    then the mask *)
Lemma mask_data_commute_example :
  let mask := Some (BoolMask [true; false; true]) in
  let counts := @mk_nd float [3] [1; 2; 3]%float in
  returned (set_data (b_base three_counts_term) counts) /\
  set_mask (fst (set_data (b_base three_counts_term) counts)) mask
  = set_data (fst (set_mask (b_base three_counts_term) mask)) counts.
Proof.
  exact (@mask_data_commute float (b_base three_counts_term)
           (Some (BoolMask [true; false; true]))
           (@mk_nd float [3] [1; 2; 3]%float) eq_refl eq_refl eq_refl).
Defined.


(** X10, on the three bins in exact arithmetic: without a mask the model
    with [a = 2] expects twice the ten observed events, under the mask the
    eight active ones. *)
Lemma BinnedNLL_expected_total_example :
  (exists n prob mu,
     select (_mask (b_base real_counts_term)) [3; 2; 5]%R = Some n /\
     select (_mask (b_base real_counts_term))
       (@diff1 R exact [2 * (0 / 4); 2 * (1 / 4); 2 * (2 / 4); 2 * (4 / 4)]%R)
     = Some prob /\
     @BinnedNLL_expected R exact real_counts_term [2%R]
     = Ok (mk_nd [length n] n, mk_nd [length n] mu) /\
     Rsum mu = (Rsum [3; 2; 5] * (2 * (4 / 4) - 2 * (0 / 4)))%R) /\
  (exists n prob mu,
     select (_mask (b_base real_masked_term)) [3; 2; 5]%R = Some n /\
     select (_mask (b_base real_masked_term))
       (@diff1 R exact [2 * (0 / 4); 2 * (1 / 4); 2 * (2 / 4); 2 * (4 / 4)]%R)
     = Some prob /\
     @BinnedNLL_expected R exact real_masked_term [2%R]
     = Ok (mk_nd [length n] n, mk_nd [length n] mu) /\
     Rsum mu = Rsum [3; 5]%R).
Proof.
  split.
  - destruct (BinnedNLL_expected_total real_counts_term [2%R] [3; 2; 5]%R
                [2 * (0 / 4); 2 * (1 / 4); 2 * (2 / 4); 2 * (4 / 4)]%R
                eq_refl eq_refl eq_refl eq_refl eq_refl)
      as (n & prob & mu & Hn & Hp & He & Hnone & _).
    exists n, prob, mu. repeat (split; [assumption|]).
    exact (Hnone eq_refl).
  - destruct (BinnedNLL_expected_total real_masked_term [2%R] [3; 2; 5]%R
                [2 * (0 / 4); 2 * (1 / 4); 2 * (2 / 4); 2 * (4 / 4)]%R
                eq_refl eq_refl eq_refl eq_refl eq_refl)
      as (n & prob & mu & Hn & Hp & He & _ & Hsome).
    exists n, prob, mu. repeat (split; [assumption|]).
    injection Hn as <-.
    apply Hsome; [discriminate|].
    injection Hp as <-. simpl. lra.
Defined.

(** X11, on two observations and the density 3 with the integral 6 *)
Lemma ExtendedUnbinnedNLL_split_example :
  @ExtendedUnbinnedNLL_call R exact real_extended [3%R]
  = (2 * (2 * 3) + @UnbinnedNLL_call R exact real_unbinned [3%R])%R.
Proof.
  exact (ExtendedUnbinnedNLL_split real_extended real_unbinned [3%R]
           eq_refl eq_refl eq_refl).
Defined.



(** X15, on the constraint at the parameter value 3 and the constant 1.5
    appended to it *)
Lemma CostSum_call_append_example :
  @_call log_ref seq_sum no_linalg (CostSum ["a"]%string 0 [penalty] [[0]]) [3]%float
  = Return (Float (0 + (0 + (1 - 3) * (1 - 3) * 0.25))%float) /\
  @_call log_ref seq_sum no_linalg
    (CostSum ["a"]%string 0 [penalty; Constant (Float 1.5)] [[0]; []])
    [3]%float
  = Return (Float (0 + (0 + (1 - 3) * (1 - 3) * 0.25) + 1.5)%float).
Proof.
  split; [reflexivity|].
  destruct (@CostSum_call_append log_ref seq_sum no_linalg ["a"]%string 0
              [penalty] [[0]] (Constant (Float 1.5)) [] [3]%float eq_refl)
    as [_ H].
  change (@_call log_ref seq_sum no_linalg (CostSum ["a"]%string 0 [penalty] [[0]])
            [3]%float)
    with (@Return number (Float (0 + (0 + (1 - 3) * (1 - 3) * 0.25))%float))
    in H.
  destruct H as (r & Hr & H). injection Hr as <-. exact H.
Defined.
(** X16, on the three points of the straight-line fit, with the error 1
    for every point *)
Lemma LeastSquares_arguments_round_trip_example :
  exists self,
    fit_of "linear" = Ok self /\
    _ndim self = 1 /\
    _mask (ls_base self) = None /\
    MaskedCost_ndata (ls_base self) = Ok 3 /\
    LeastSquares_x self = Ok (mk_nd [3] [1; 2; 3]%float) /\
    LeastSquares_y self = Ok (mk_nd [3] [3; 4; 6]%float) /\
    LeastSquares_yerror self = Ok (mk_nd [3] [1; 1; 1]%float).
Proof.
  exact (@LeastSquares_arguments_round_trip float np64
           (ints [3] [1; 2; 3]%Z) (ints [3] [3; 4; 6]%Z) (ints [] [1]%Z)
           line (LossName "linear") _ 0 3
           eq_refl eq_refl eq_refl eq_refl (or_intror eq_refl) eq_refl
           eq_refl).
Defined.

(** X17, on the same fit and the line [2 + x]: the residuals are 0, 0 and
    1. *)
Lemma LeastSquares_fit_1d_example :
  exists self,
    fit_of "linear" = Ok self /\
    @LeastSquares_call float self [2; 1]%float
    = Ok (0 + 0 * 0 + 0 * 0 + 1 * 1)%float.
Proof.
  exact (@LeastSquares_fit_1d float np64
           (ints [3] [1; 2; 3]%Z) (ints [3] [3; 4; 6]%Z) (ints [] [1]%Z)
           line 0 3 [2; 1]%float [3; 4; 5]%float
           eq_refl eq_refl eq_refl eq_refl (or_intror eq_refl) eq_refl
           eq_refl eq_refl).
Defined.

(** X18, on the same fit: new values for [y], and new errors *)
Lemma LeastSquares_assign_read_example :
  (let o := @LeastSquares_set_y float np64 (fit_term (fit_of "linear"))
              (ints [3] [5; 6; 7]%Z) in
   returned o /\ current (ls_base (fst o)) /\
   LeastSquares_y (fst o) = Ok (mk_nd [3] [5; 6; 7]%float) /\
   LeastSquares_x (fst o) = Ok (mk_nd [3] [1; 2; 3]%float) /\
   LeastSquares_yerror (fst o) = Ok (mk_nd [3] [1; 1; 1]%float)) /\
  (let o := @LeastSquares_set_yerror float np64 (fit_term (fit_of "linear"))
              (ints [3] [5; 6; 7]%Z) in
   returned o /\ current (ls_base (fst o)) /\
   LeastSquares_yerror (fst o) = Ok (mk_nd [3] [5; 6; 7]%float) /\
   LeastSquares_x (fst o) = Ok (mk_nd [3] [1; 2; 3]%float) /\
   LeastSquares_y (fst o) = Ok (mk_nd [3] [3; 4; 6]%float)).
Proof.
  assert (HF : Forall (fun r : list float => length r = 1 + 2) three_points)
    by repeat constructor.
  exact (@LeastSquares_assign_read float np64 (fit_term (fit_of "linear"))
           three_points (ints [3] [5; 6; 7]%Z)
           eq_refl HF eq_refl eq_refl eq_refl).
Defined.

(** X19: the [func_code] wins over the signature and the docstring. *)
Lemma describe_make_func_code_example :
  util._arguments_from_func_code with_func_code = ["a"; "b"]%string /\
  util.describe with_func_code = Return ["a"; "b"]%string.
Proof.
  destruct (describe_make_func_code with_func_code ["a"; "b"]%string eq_refl)
    as (H1 & H2 & _).
  split; [exact H1|]. apply H2. discriminate.
Defined.

(** X20, on [def f(a, b, *args, key)] *)
Lemma describe_signature_example :
  exists front back,
    [("a", util.POSITIONAL_OR_KEYWORD); ("b", util.POSITIONAL_OR_KEYWORD);
     ("args", util.VAR_POSITIONAL); ("key", util.KEYWORD_ONLY)]%string
    = front ++ back /\
    util._arguments_from_inspect with_signature = Return (map fst front) /\
    util.describe with_signature = Return ["a"; "b"]%string.
Proof.
  destruct (describe_signature with_signature _ eq_refl eq_refl)
    as (front & back & E & Hi & _ & _ & Hd).
  exists front, back. split; [exact E|]. split; [exact Hi|].
  assert (Hf : map fst front = ["a"; "b"]%string).
  { change (util._arguments_from_inspect with_signature)
      with (@Return (list string) ["a"; "b"]%string) in Hi.
    now injection Hi. }
  rewrite <- Hf. apply Hd. intros ->. discriminate Hf.
Defined.


(** X22, on two Minos results *)
Lemma MErrors_index_and_name_example :
  util.MErrors_getitem [("a", 1%Z); ("b", 2%Z)]%string (util.IntKey 1)
  = Return 2%Z /\
  util.MErrors_getitem [("a", 1%Z); ("b", 2%Z)]%string (util.IntKey (-1))
  = Return 2%Z /\
  util.MErrors_getitem [("a", 1%Z); ("b", 2%Z)]%string (util.StrKey "b")
  = Return 2%Z /\
  util.MErrors_getitem [("a", 1%Z); ("b", 2%Z)]%string (util.IntKey 2)
  = Throw (Builtin IndexError).
Proof.
  assert (Hn : NoDup (map fst [("a", 1%Z); ("b", 2%Z)]%string)).
  { repeat constructor; simpl; intuition discriminate. }
  destruct (MErrors_index_and_name Z [("a", 1%Z); ("b", 2%Z)]%string
              1 "b" 2%Z Hn eq_refl) as (H1 & H2 & H3 & H4).
  split; [exact H1|]. split; [exact H2|]. split; [exact H3|].
  apply H4. right. simpl. lia.
Defined.

(** X25, on the three bins under the mask: the models with [a = 1] and
    [a = 2] cost the same. *)
Lemma BinnedNLL_masked_scale_free_example :
  @BinnedNLL_expected R exact real_masked_term [2%R]
  = @BinnedNLL_expected R exact real_masked_term [1%R] /\
  @BinnedNLL_call R exact real_masked_term [2%R]
  = @BinnedNLL_call R exact real_masked_term [1%R].
Proof.
  apply (BinnedNLL_masked_scale_free real_masked_term [1%R] [2%R]
           [3; 2; 5]%R [1 * (0 / 4); 1 * (1 / 4); 1 * (2 / 4); 1 * (4 / 4)]%R
           2%R (BoolMask [true; false; true])
           eq_refl eq_refl eq_refl eq_refl eq_refl).
  - change (@mk_nd R [4] [2 * (0 / 4); 2 * (1 / 4); 2 * (2 / 4); 2 * (4 / 4)]%R
            = @mk_nd R [4] [2 * (1 * (0 / 4)); 2 * (1 * (1 / 4));
                            2 * (1 * (2 / 4)); 2 * (1 * (4 / 4))]%R).
    f_equal. repeat (f_equal; try ring).
  - reflexivity.
  - lra.
  - intros prob H. injection H as <-. simpl. lra.
Defined.
(** X27, on the three bins: new counts are read back; pairs are read back
    from the weighted term and refused by the term of plain counts. *)
Lemma BinnedCost_assign_read_example :
  (let o := @BinnedCost_set_data float np64 three_counts_term
              (ints [3] [1; 2; 3]%Z) in
   returned o /\
   BinnedCost_data (fst o) = Ok (mk_nd [3] [1; 2; 3]%float)) /\
  (let o := @BinnedCost_set_data float np64 weighted_term
              (ints [2; 2] [1; 2; 3; 4]%Z) in
   returned o /\
   BinnedCost_data (fst o) = Ok (mk_nd [2; 2] [1; 2; 3; 4]%float)) /\
  @BinnedCost_set_data float np64 three_counts_term
    (ints [3; 2] [1; 2; 3; 4; 5; 6]%Z)
  = (three_counts_term,
     Some (ValueError "could not broadcast input array")).
Proof.
  destruct (@BinnedCost_assign_read float np64 three_counts_term
              (ints [3] [1; 2; 3]%Z) 3 eq_refl eq_refl eq_refl)
    as (HA & _ & _).
  destruct (@BinnedCost_assign_read float np64 weighted_term
              (ints [2; 2] [1; 2; 3; 4]%Z) 2 eq_refl eq_refl eq_refl)
    as (_ & HB & _).
  destruct (@BinnedCost_assign_read float np64 three_counts_term
              (ints [3; 2] [1; 2; 3; 4; 5; 6]%Z) 3 eq_refl eq_refl eq_refl)
    as (_ & _ & HC).
  split; [|split].
  - destruct (HA eq_refl eq_refl) as (H1 & H2 & _). now split.
  - destruct (HB eq_refl eq_refl) as (H1 & H2 & _). now split.
  - exact (HC eq_refl eq_refl).
Defined.
